(** * TrendyFetch: a verification development

    A shallow embedding of the TrendyFetch server (a product page scraper
    with an in-memory cache and a Shopify CSV exporter) and theorems
    about it.

    - [JsString]        JavaScript strings as sequences of UTF-16 code units
    - [CategoryMapping] server/category-mapping.ts
    - [JsNumber]        [parseFloat], [Number::toString], [toFixed(2)] over
                        binary64 values
    - [Errors]          server/errors.ts
    - [Page]            a page as the queries of the scraper see it
    - [Attributes]      scrapeProductAttributes
    - [Price]           scrapePrice
    - [Variants]        scrapeVariants
    - [UrlSchema]       shared/schema.ts, urlSchema
    - [Storage]         server/storage.ts
    - [Routes]          the POST /api/scrape handler, alone and under
                        overlapping requests
    - [Shopify]         exportToShopify
    - [Examples]        pages, products and requests used as instances
    - [Categories]      scrapeTrendyolCategories
    - [Shape]           predicates used in the statements of the last part
    - [Instances]       more instances

    JavaScript strings are modelled as lists of UTF-16 code units, so that
    [length], [substring], [includes], [trim] and [toLowerCase] count and
    compare what the engine counts and compares. Literals are written as
    Rocq strings (UTF-8 in this file) and decoded by [u]. Numbers are the
    kernel's binary64 floats. *)

From Corelib Require Import PrimFloat FloatOps SpecFloat.
From Stdlib Require Import ZArith NArith List String Ascii Bool Lia DecimalString.
From Stdlib Require Import Sorted DecimalN.
From stdpp Require Import base option list gmap.
Import ListNotations.

Local Open Scope N_scope.

(* ===================================================================== *)
(** ** JavaScript strings *)
(* ===================================================================== *)

Module JsString.

(** A JavaScript string: its UTF-16 code units. *)
Abbreviation jsstring := (list N).

Definition byte_of (c : ascii) : N := N_of_ascii c.

(** Code units of one code point (a surrogate pair above the BMP). *)
Definition units_of_code_point (cp : N) : jsstring :=
  if cp <? 65536 then [cp]
  else [55296 + (cp - 65536) / 1024; 56320 + (cp - 65536) mod 1024].

Definition cont (c : ascii) : N := byte_of c - 128.

(** UTF-8 decoder for the literals of this file; a malformed sequence
    decodes to U+FFFD, as a browser or Node decodes it. *)
Fixpoint u (s : string) : jsstring :=
  match s with
  | EmptyString => []
  | String a r =>
    let b := byte_of a in
    if b <? 128 then b :: u r
    else if b <? 192 then 65533 :: u r
    else if b <? 224 then
      match r with
      | String a1 r1 => units_of_code_point ((b - 192) * 64 + cont a1) ++ u r1
      | _ => [65533]
      end
    else if b <? 240 then
      match r with
      | String a1 (String a2 r2) =>
        units_of_code_point ((b - 224) * 4096 + cont a1 * 64 + cont a2) ++ u r2
      | _ => [65533]
      end
    else
      match r with
      | String a1 (String a2 (String a3 r3)) =>
        units_of_code_point
          ((b - 240) * 262144 + cont a1 * 4096 + cont a2 * 64 + cont a3) ++ u r3
      | _ => [65533]
      end
  end.

(** The double-quote character, for literals that hold one. *)
Definition dq : string := String (ascii_of_nat 34) EmptyString.

(** [a === b] on strings. *)
Fixpoint str_eqb (a b : jsstring) : bool :=
  match a, b with
  | [], [] => true
  | x :: a', y :: b' => (x =? y) && str_eqb a' b'
  | _, _ => false
  end.

(** [s.startsWith(p)]. *)
Fixpoint startsWith (s p : jsstring) : bool :=
  match p, s with
  | [], _ => true
  | y :: p', x :: s' => (x =? y) && startsWith s' p'
  | _ :: _, [] => false
  end.

(** [s.includes(p)]: [p] occurs in [s] as a run of consecutive code units. *)
Fixpoint includes (s p : jsstring) : bool :=
  startsWith s p ||
  match s with
  | [] => false
  | _ :: s' => includes s' p
  end.

(** ECMAScript WhiteSpace and LineTerminator code units, stripped by
    [String.prototype.trim]. *)
Definition isWhiteSpace (c : N) : bool :=
  ((9 <=? c) && (c <=? 13)) || (c =? 32) || (c =? 160) || (c =? 5760)
  || ((8192 <=? c) && (c <=? 8202)) || (c =? 8232) || (c =? 8233)
  || (c =? 8239) || (c =? 8287) || (c =? 12288) || (c =? 65279).

Fixpoint trimStart (s : jsstring) : jsstring :=
  match s with
  | c :: s' => if isWhiteSpace c then trimStart s' else s
  | [] => []
  end.

Definition trimEnd (s : jsstring) : jsstring := rev (trimStart (rev s)).

Definition trim (s : jsstring) : jsstring := trimEnd (trimStart s).

(** Lower-casing of one code unit. The table covers Basic Latin, Latin-1
    Supplement and Latin Extended-A (which hold the Turkish alphabet);
    U+0130 lower-cases to "i" followed by U+0307, as in the Unicode
    SpecialCasing the engine applies. Code units above U+017F are left as
    they are by this model. *)
Definition lowerUnit (c : N) : jsstring :=
  if (65 <=? c) && (c <=? 90) then [c + 32]
  else if (192 <=? c) && (c <=? 222) && negb (c =? 215) then [c + 32]
  else if c =? 304 then [105; 775]
  else if c =? 376 then [255]
  else if (((256 <=? c) && (c <=? 303)) || ((306 <=? c) && (c <=? 311))
           || ((330 <=? c) && (c <=? 375))) && N.even c then [c + 1]
  else if (((313 <=? c) && (c <=? 328)) || ((377 <=? c) && (c <=? 382)))
          && N.odd c then [c + 1]
  else [c].

Definition toLowerCase (s : jsstring) : jsstring := concat (map lowerUnit s).

(** A string is truthy when it is not empty. *)
Definition truthy (s : jsstring) : bool :=
  match s with [] => false | _ => true end.

End JsString.

Import JsString.

(* ===================================================================== *)
(** ** server/category-mapping.ts *)
(* ===================================================================== *)

Module CategoryMapping.

Record VariantConfig := {
  sizeLabel : option jsstring;
  colorLabel : option jsstring;
  materialLabel : option jsstring;
  defaultStock : Z;
  hasVariants : bool
}.

Record CategoryConfig := {
  shopifyCategory : jsstring;
  variantConfig : VariantConfig;
  attributes : list jsstring;
  inventoryTracking : bool
}.

Definition clothingVariants : VariantConfig :=
  {| sizeLabel := Some (u "Beden"); colorLabel := Some (u "Renk");
     materialLabel := None; defaultStock := 50%Z; hasVariants := true |}.

Definition walletVariants : VariantConfig :=
  {| sizeLabel := None; colorLabel := Some (u "Renk");
     materialLabel := Some (u "Materyal"); defaultStock := 50%Z;
     hasVariants := true |}.

Definition clothingAttributes : list jsstring :=
  [u "Kumaş"; u "Desen"; u "Yaka Tipi"; u "Kol Boyu"].

Definition erkekConfig : CategoryConfig :=
  {| shopifyCategory := u "Apparel & Accessories > Clothing > Men's Clothing";
     variantConfig := clothingVariants;
     attributes := clothingAttributes;
     inventoryTracking := true |}.

Definition kadinConfig : CategoryConfig :=
  {| shopifyCategory := u "Apparel & Accessories > Clothing > Women's Clothing";
     variantConfig := clothingVariants;
     attributes := clothingAttributes;
     inventoryTracking := true |}.

Definition tisortConfig : CategoryConfig :=
  {| shopifyCategory := u "Apparel & Accessories > Clothing > Shirts & Tops";
     variantConfig := clothingVariants;
     attributes := clothingAttributes;
     inventoryTracking := true |}.

Definition cuzdanConfig : CategoryConfig :=
  {| shopifyCategory :=
       u "Apparel & Accessories > Handbags, Wallets & Cases > Wallets & Money Clips";
     variantConfig := walletVariants;
     attributes := [u "Malzeme"; u "Boyut"; u "Bölme Sayısı"; u "Kart Bölmesi"];
     inventoryTracking := true |}.

Definition kartlikConfig : CategoryConfig :=
  {| shopifyCategory :=
       u "Apparel & Accessories > Handbags, Wallets & Cases > Wallets & Money Clips";
     variantConfig := walletVariants;
     attributes := [u "Malzeme"; u "Boyut"; u "Kart Bölmesi"];
     inventoryTracking := true |}.

Definition sneakerConfig : CategoryConfig :=
  {| shopifyCategory := u "Apparel & Accessories > Shoes > Athletic Shoes";
     variantConfig :=
       {| sizeLabel := Some (u "Numara"); colorLabel := Some (u "Renk");
          materialLabel := None; defaultStock := 30%Z; hasVariants := true |};
     attributes := [u "Taban"; u "Materyal"; u "Bağcık"; u "Kullanım Alanı"];
     inventoryTracking := true |}.

(** [Object.entries(categoryMapping)]: the keys in insertion order. *)
Definition categoryMapping : list (jsstring * CategoryConfig) :=
  [ (u "erkek", erkekConfig);
    (u "kadın", kadinConfig);
    (u "tişört", tisortConfig);
    (u "cüzdan", cuzdanConfig);
    (u "kartlık", kartlikConfig);
    (u "sneaker", sneakerConfig) ].

(** The object literal returned on the last line of [getCategoryConfig]. *)
Definition defaultConfig : CategoryConfig :=
  {| shopifyCategory := u "Apparel & Accessories > Clothing";
     variantConfig := clothingVariants;
     attributes := [];
     inventoryTracking := true |}.

(** A [for ... of] loop whose body returns on the first hit. *)
Fixpoint firstReturn {A B : Type} (body : A -> option B) (l : list A) : option B :=
  match l with
  | [] => None
  | x :: l' => match body x with Some r => Some r | None => firstReturn body l' end
  end.

Definition normalize (categories : list jsstring) : list jsstring :=
  map (fun c => trim (toLowerCase c)) categories.

(** First loop ("Önce tam eşleşme ara"): the predicate handed to [find]. *)
Definition exactLoop (category : jsstring) : option CategoryConfig :=
  match find (fun e => str_eqb category (fst e) || includes category (fst e))
             categoryMapping with
  | Some exactMatch => Some (snd exactMatch)
  | None => None
  end.

(** Second loop ("Kısmi eşleşme ara"). *)
Definition partialLoop (category : jsstring) : option CategoryConfig :=
  firstReturn (fun e => if includes category (fst e) then Some (snd e) else None)
              categoryMapping.

Definition getCategoryConfig (categories : list jsstring) : CategoryConfig :=
  let normalizedCategories := normalize categories in
  match firstReturn exactLoop normalizedCategories with
  | Some config => config
  | None =>
    match firstReturn partialLoop normalizedCategories with
    | Some config => config
    | None =>
      if existsb (fun c => includes c (u "erkek")) normalizedCategories
      then erkekConfig
      else if existsb (fun c => includes c (u "kadın")) normalizedCategories
      then kadinConfig
      else defaultConfig
    end
  end.

(** The matching order as the specification words it: (a) an exact match of
    some category against the known keys, (b) a known key contained in some
    category, (c) the gender keywords, (d) the default. *)
Definition exactOnly (category : jsstring) : option CategoryConfig :=
  match find (fun e => str_eqb category (fst e)) categoryMapping with
  | Some e => Some (snd e)
  | None => None
  end.

Definition resolveInSpecOrder (categories : list jsstring) : CategoryConfig :=
  let normalizedCategories := normalize categories in
  match firstReturn exactOnly normalizedCategories with
  | Some config => config
  | None =>
    match firstReturn partialLoop normalizedCategories with
    | Some config => config
    | None =>
      if existsb (fun c => includes c (u "erkek")) normalizedCategories
      then erkekConfig
      else if existsb (fun c => includes c (u "kadın")) normalizedCategories
      then kadinConfig
      else defaultConfig
    end
  end.

End CategoryMapping.

(* ===================================================================== *)
(** ** JavaScript numbers: [parseFloat], [Number.prototype.toFixed] *)
(* ===================================================================== *)

Module JsNumber.

Local Open Scope Z_scope.

Definition isDigit (c : N) : bool := ((48 <=? c) && (c <=? 57))%N.

(** Decimal digits of a natural number, as a string. *)
Definition decimal (n : N) : jsstring :=
  u (NilEmpty.string_of_uint (N.to_uint n)).

(** The longest run of decimal digits at the head of [s]: its value so
    far, how many digits it has, and what follows it. *)
Fixpoint digitsFrom (acc : Z) (count : Z) (s : jsstring) : Z * Z * jsstring :=
  match s with
  | c :: s' =>
    if isDigit c then digitsFrom (10 * acc + (Z.of_N c - 48)) (count + 1) s'
    else (acc, count, s)
  | [] => (acc, count, [])
  end.

(** Nearest integer to [p / q] for [q > 0], a tie going to the even one. *)
Definition roundHalfEven (p q : Z) : Z :=
  let d := p / q in
  let r := p mod q in
  if 2 * r <? q then d
  else if q <? 2 * r then d + 1
  else if Z.even d then d else d + 1.

(** The Number value of the positive rational [p / q]: the nearest binary64
    value, a tie going to the even significand; 2^1024 and above is
    Infinity. *)
Definition doubleOfRatio (neg : bool) (p q : Z) : float :=
  if p <=? 0 then (if neg then PrimFloat.neg_zero else PrimFloat.zero)
  else
    let e0 := Z.log2 p - Z.log2 q in
    let e := if (if 0 <=? e0 then p <? q * 2 ^ e0 else p * 2 ^ (- e0) <? q)
             then e0 - 1 else e0 in
    let ex := Z.max (e - 52) (-1074) in
    let m := if 0 <=? ex then roundHalfEven p (q * 2 ^ ex)
             else roundHalfEven (p * 2 ^ (- ex)) q in
    if m =? 0 then (if neg then PrimFloat.neg_zero else PrimFloat.zero)
    else if 2 ^ 2098 <=? m * 2 ^ (ex + 1074)
    then (if neg then PrimFloat.neg_infinity else PrimFloat.infinity)
    else SF2Prim (S754_finite neg (Z.to_pos m) ex).

(** Value of the decimal literal [digits * 10^scale]. *)
Definition doubleOfDecimal (neg : bool) (digits scale : Z) : float :=
  if 0 <=? scale then doubleOfRatio neg (digits * 10 ^ scale) 1
  else doubleOfRatio neg digits (10 ^ (- scale)).

(** The ExponentPart at the head of [s], if there is one: "e" or "E", an
    optional sign and at least one digit. *)
Definition exponentPart (s : jsstring) : Z :=
  match s with
  | c :: s1 =>
    if ((c =? 101) || (c =? 69))%N then
      let '(sign, s2) :=
        match s1 with
        | d :: s2 => if (d =? 45)%N then (-1, s2)
                     else if (d =? 43)%N then (1, s2) else (1, s1)
        | [] => (1, s1)
        end in
      let '(ev, en, _) := digitsFrom 0 0 s2 in
      if 0 <? en then sign * ev else 0
    else 0
  | [] => 0
  end.

(** [parseFloat(s)]: leading white space is skipped, then the longest
    prefix that is a StrDecimalLiteral is read and rounded to the nearest
    binary64 value; NaN when there is none. *)
Definition parseFloat (s : jsstring) : float :=
  let s0 := trimStart s in
  let '(neg, s1) :=
    match s0 with
    | c :: r => if (c =? 45)%N then (true, r)
                else if (c =? 43)%N then (false, r) else (false, s0)
    | [] => (false, s0)
    end in
  if startsWith s1 (u "Infinity")
  then (if neg then PrimFloat.neg_infinity else PrimFloat.infinity)
  else
    let '(iv, ic, s2) := digitsFrom 0 0 s1 in
    let '(fv, fc, s3) :=
      match s2 with
      | c :: r => if (c =? 46)%N then digitsFrom iv 0 r else (iv, 0, s2)
      | [] => (iv, 0, s2)
      end in
    if (ic =? 0) && (fc =? 0) then PrimFloat.nan
    else doubleOfDecimal neg fv (exponentPart s3 - fc).

Section NumberToString.

(** [Number::toString] of a finite value that is not an integer below
    10^21 is the shortest decimal that reads back as the value. That digit
    generation is the engine's and is taken as a parameter. *)
Variable shortestDecimal : float -> jsstring.

Definition signText (s : bool) : jsstring := if s then [45%N] else [].

(** [Number::toString(x)]. *)
Definition numberToString (x : float) : jsstring :=
  match Prim2SF x with
  | S754_nan => u "NaN"
  | S754_infinity s => if s then u "-Infinity" else u "Infinity"
  | S754_zero _ => u "0"
  | S754_finite s m e =>
    if (0 <=? e) && (Zpos m * 2 ^ e <? 10 ^ 21)
    then signText s ++ decimal (Z.to_N (Zpos m * 2 ^ e))
    else if (e <? 0) && (Zpos m mod 2 ^ (- e) =? 0)
    then signText s ++ decimal (Z.to_N (Zpos m / 2 ^ (- e)))
    else shortestDecimal x
  end.

(** The digits of [n] with a point before the last two, padded with zeros
    to at least three digits. *)
Definition fixed2 (n : Z) : jsstring :=
  let m := decimal (Z.to_N n) in
  let m := if Nat.leb (length m) 2 then repeat 48%N (3 - length m) ++ m else m in
  let k := length m in
  firstn (k - 2) m ++ [46%N] ++ skipn (k - 2) m.

(** The integer [n] for which [n / 100 - m * 2^e] is closest to zero, the
    larger one when there are two. *)
Definition centsOf (m : positive) (e : Z) : Z :=
  if 0 <=? e then 100 * Zpos m * 2 ^ e
  else (200 * Zpos m + 2 ^ (- e)) / (2 * 2 ^ (- e)).

(** [n] is an integer nearest to [100 * m * 2^e], the larger of the two at
    a tie. *)
Definition nearestCents (m : positive) (e : Z) (n : Z) : Prop :=
  if 0 <=? e then n = 100 * Zpos m * 2 ^ e
  else 2 * 2 ^ (- e) * n - 2 ^ (- e) <= 200 * Zpos m
       /\ 200 * Zpos m < 2 * 2 ^ (- e) * n + 2 ^ (- e).

(** [m * 2^e >= 10^21]. *)
Definition atLeast1e21 (m : positive) (e : Z) : bool :=
  if 0 <=? e then 10 ^ 21 <=? Zpos m * 2 ^ e
  else 10 ^ 21 * 2 ^ (- e) <=? Zpos m.

(** [x.toFixed(2)]. *)
Definition toFixed2 (x : float) : jsstring :=
  match Prim2SF x with
  | S754_nan | S754_infinity _ => numberToString x
  | S754_zero _ => u "0.00"
  | S754_finite s m e =>
    if atLeast1e21 m e then signText s ++ numberToString (PrimFloat.abs x)
    else signText s ++ fixed2 (centsOf m e)
  end.

End NumberToString.

End JsNumber.

Import JsNumber.

(* ===================================================================== *)
(** ** server/errors.ts *)
(* ===================================================================== *)

Module Errors.

(** The [details] object a [TrendyolScrapingError] is built with in
    routes: the upstream status and status text. *)
Record Details := { upstreamStatus : Z; upstreamStatusText : jsstring }.

(** What the server code throws. The first three are the classes of
    errors.ts; [ZodError] is what [urlSchema.parse] throws; [FetchError] is
    the rejection of node-fetch; the others are the built-in [Error],
    [SyntaxError] (from [JSON.parse]) and [TypeError] (a property read on
    [null]). *)
Inductive JsError :=
| TrendyolScrapingError (message : jsstring) (details : option Details)
| URLValidationError (message : jsstring)
| ProductDataError (message : jsstring) (field : jsstring)
| ZodError (message : jsstring)
| PlainError (message : jsstring)
| FetchError
| SyntaxError
| TypeError.

(** A computation that returns or throws. *)
Inductive Result (A : Type) :=
| Ok (a : A)
| Throw (e : JsError).
Arguments Ok {A} a.
Arguments Throw {A} e.

#[global] Instance result_ret : MRet Result := @Ok.

#[global] Instance result_bind : MBind Result :=
  fun A B k r =>
    match r with
    | Ok a => k a
    | Throw e => Throw e
    end.

Record ErrorReply := {
  status : Z;
  message : jsstring;
  details : option Details
}.

Definition handleError (error : JsError) : ErrorReply :=
  match error with
  | TrendyolScrapingError msg d =>
    {| status := 500;
       message := u "Ürün verisi çekilirken hata oluştu: " ++ msg;
       details := d |}
  | URLValidationError msg =>
    {| status := 400; message := msg; details := None |}
  | ProductDataError msg field =>
    {| status := 422;
       message := field ++ u " alanında hata: " ++ msg;
       details := None |}
  | _ =>
    {| status := 500;
       message := u "Beklenmeyen bir hata oluştu";
       details := None |}
  end.

(** The reply for an error that is none of the three classes. *)
Definition unexpectedReply : ErrorReply :=
  {| status := 500; message := u "Beklenmeyen bir hata oluştu"; details := None |}.

Definition isScrapingError (e : JsError) : bool :=
  match e with TrendyolScrapingError _ _ => true | _ => false end.

End Errors.

Import Errors.

(* ===================================================================== *)
(** ** The page, as the scraper queries it *)
(* ===================================================================== *)

(** The server reads a page through cheerio: CSS selections over the
    parsed HTML, and [JSON.parse] of the JSON-LD script blocks. Neither
    library is part of the repository; a page is modelled by the results of
    the queries the code makes, in document order. JSON fields are typed as
    the code uses them (texts where it reads a name or a URL); [None] is a
    field that is absent. *)
Module Page.

Record AdditionalProperty := {
  ap_name : option jsstring;
  ap_unitText : option jsstring
}.

Record VariantEntry := {
  ve_size : option jsstring;
  ve_color : option jsstring
}.

(** [offers.price]: JSON holds it as a text or as a number. *)
Inductive PriceValue :=
| PriceText (s : jsstring)
| PriceNumber (x : float).

(** [image.contentUrl]: one URL or an array of them. *)
Inductive ContentUrl :=
| OneUrl (s : jsstring)
| ManyUrls (l : list jsstring).

(** [hasVariant]: absent, an array, or another truthy value (whose
    [forEach] is not a function). *)
Inductive HasVariant :=
| NoVariants
| VariantList (l : list VariantEntry)
| VariantOther.

(** The fields of a JSON-LD object the server reads. *)
Record Schema := {
  s_type : option jsstring;                      (* ["@type"] *)
  s_name : option jsstring;
  s_description : option jsstring;
  s_offers_price : option PriceValue;            (* offers?.price *)
  s_brand_name : option jsstring;                (* brand?.name *)
  s_manufacturer : option jsstring;
  s_image_contentUrl : option ContentUrl;        (* image?.contentUrl *)
  s_hasVariant : HasVariant;
  s_additionalProperty : option (list AdditionalProperty)
}.

(** What [JSON.parse] yields at top level. *)
Inductive Json :=
| JNull                       (* null: a property read throws TypeError *)
| JOther                      (* a number, text, boolean or array *)
| JObject (s : Schema).

(** One [script[type="application/ld+json"]] element: its [html()] is
    empty, is not JSON, or parses. *)
Inductive Script :=
| EmptyScript
| BadScript
| Parsed (j : Json).

(** An element matched by one of the generic attribute selectors, by the
    branch of the extractor it falls in. The texts are as [text()] gives
    them, before [trim]. *)
Inductive AttrElement :=
| Labelled (labelText valueText : jsstring)   (* has .detail-attr-label / .property-label *)
| Cells (firstText lastText : jsstring)       (* has th / td *)
| PlainText (text : jsstring).

Record Doc := {
  (* $('script[type="application/ld+json"]') *)
  ldJson : list Script;
  (* $('.detail-attr-container'): for each container its tr rows, each
     with the text of its th and of its td *)
  attrContainers : list (list (jsstring * jsstring));
  (* $(selector) for a generic attribute selector *)
  attrElements : jsstring -> list AttrElement;
  (* for an alternative label: the elements matched by
     [data-attribute=..], [data-property=..], .detail-attr-item:contains(..),
     each with the text of its value nodes *)
  specialValues : jsstring -> list jsstring;
  (* $('.featured-attributes-group'): for each group its items, each with
     its label text and its value text *)
  attrGroups : list (list (jsstring * jsstring));
  (* text() of each element of $('.prc-dsc, .product-price-container .current-price') *)
  priceEl : list jsstring;
  (* text() of each element of $('.product-price, .discounted-price') *)
  altPriceEl : list jsstring;
  (* text() of each element of $(selector), for the variant selectors *)
  textsOf : jsstring -> list jsstring;
  (* $("img.detail-section-img").first().attr("src") *)
  mainImageSrc : option jsstring;
  (* attr("src") of each element of $("div.gallery-modal-content img") *)
  galleryImageSrc : list (option jsstring)
}.

(** Truthiness of an optional text: present and not empty. *)
Definition truthyOpt (o : option jsstring) : bool :=
  match o with Some s => truthy s | None => false end.

End Page.

Import Page.

(* ===================================================================== *)
(** ** scrapeProductAttributes *)
(* ===================================================================== *)

Module Attributes.

(** [s.split(sep)] for a one-unit separator. *)
Fixpoint splitOn (sep : N) (cur : jsstring) (s : jsstring) : list jsstring :=
  match s with
  | [] => [rev cur]
  | c :: s' =>
    if c =? sep then rev cur :: splitOn sep [] s'
    else splitOn sep (c :: cur) s'
  end.

Definition split (sep : N) (s : jsstring) : list jsstring := splitOn sep [] s.

(** The [attributes] object is a plain object created by [{}]: its own
    properties are a finite map, and a read of a key it does not own
    answers with the property of that name on [Object.prototype]. *)
Definition objectPrototypeKeys : list jsstring :=
  [ u "constructor"; u "__defineGetter__"; u "__defineSetter__";
    u "hasOwnProperty"; u "__lookupGetter__"; u "__lookupSetter__";
    u "isPrototypeOf"; u "propertyIsEnumerable"; u "toString"; u "valueOf";
    u "__proto__"; u "toLocaleString" ].

Definition inherited (k : jsstring) : bool :=
  existsb (str_eqb k) objectPrototypeKeys.

(** [attributes[k]] is truthy. *)
Definition has (attributes : gmap jsstring jsstring) (k : jsstring) : bool :=
  match attributes !! k with
  | Some v => truthy v
  | None => inherited k
  end.

(** [attributes[k] = v]. Assigning a text to [__proto__] runs the setter
    of [Object.prototype], which ignores it. *)
Definition assign (attributes : gmap jsstring jsstring) (k v : jsstring)
  : gmap jsstring jsstring :=
  if str_eqb k (u "__proto__") then attributes else <[k := v]> attributes.

(** *** 1. schema.org [additionalProperty] *)

Definition addProperty (attributes : gmap jsstring jsstring)
    (prop : AdditionalProperty) : gmap jsstring jsstring :=
  match ap_name prop, ap_unitText prop with
  | Some name, Some unitText =>
    if truthy name && truthy unitText then assign attributes name unitText
    else attributes
  | _, _ => attributes
  end.

(** One script block. An empty block parses as [{}]; a block that does not
    parse, or parses to [null], throws inside the inner [try] and is
    skipped. *)
Definition addScript (attributes : gmap jsstring jsstring) (script : Script)
  : gmap jsstring jsstring :=
  match script with
  | Parsed (JObject schema) =>
    match s_additionalProperty schema with
    | Some props => foldl addProperty attributes props
    | None => attributes
    end
  | _ => attributes
  end.

Definition fromSchema (doc : Doc) (attributes : gmap jsstring jsstring) :=
  foldl addScript attributes (ldJson doc).

(** *** 2. [.detail-attr-container] rows *)

Definition addPair (attributes : gmap jsstring jsstring)
    (row : jsstring * jsstring) : gmap jsstring jsstring :=
  let label := trim (fst row) in
  let value := trim (snd row) in
  if truthy label && truthy value then assign attributes label value
  else attributes.

Definition fromContainers (doc : Doc) (attributes : gmap jsstring jsstring) :=
  foldl (fun acc rows => foldl addPair acc rows) attributes (attrContainers doc).

(** *** 3. Generic selectors *)

Definition selectors : list jsstring :=
  [ u ".product-feature-list li";
    u ".detail-attr-item";
    u ".product-properties li";
    u ".detail-border-bottom tr";
    u ".product-details tr";
    u ".featured-attributes-item" ].

(** [label] and [value] of an element; [None] is [undefined], which the
    destructuring of a one-piece [split] leaves in [value]. *)
Definition labelValue (element : AttrElement) : option jsstring * option jsstring :=
  match element with
  | Labelled l v => (Some (trim l), Some (trim v))
  | Cells l v => (Some (trim l), Some (trim v))
  | PlainText t =>
    let parts := map trim (split 58 (trim t)) in
    (nth_error parts 0, nth_error parts 1)
  end.

Definition addElement (attributes : gmap jsstring jsstring)
    (element : AttrElement) : gmap jsstring jsstring :=
  match labelValue element with
  | (Some label, Some value) =>
    if truthy label && truthy value && negb (has attributes label)
    then assign attributes label value
    else attributes
  | _ => attributes
  end.

Definition fromSelectors (doc : Doc) (attributes : gmap jsstring jsstring) :=
  foldl (fun acc selector => foldl addElement acc (attrElements doc selector))
        attributes selectors.

(** *** 4. Special attribute fields *)

Definition specialAttributes : list (jsstring * list jsstring) :=
  [ (u "Materyal", [u "Materyal"; u "Kumaş"; u "Material"]);
    (u "Parça Sayısı", [u "Parça Sayısı"; u "Adet"]);
    (u "Renk", [u "Renk"; u "Color"]);
    (u "Desen", [u "Desen"; u "Pattern"]);
    (u "Yıkama Talimatı", [u "Yıkama Talimatı"; u "Yıkama"]);
    (u "Menşei", [u "Menşei"; u "Üretim Yeri"; u "Origin"]) ].

Definition addSpecialValue (key : jsstring)
    (attributes : gmap jsstring jsstring) (text : jsstring) :=
  let value := trim text in
  if truthy value then assign attributes key value else attributes.

Definition addSpecial (doc : Doc) (attributes : gmap jsstring jsstring)
    (entry : jsstring * list jsstring) : gmap jsstring jsstring :=
  let '(key, alternatives) := entry in
  if has attributes key then attributes
  else foldl (fun acc alt => foldl (addSpecialValue key) acc (specialValues doc alt))
             attributes alternatives.

Definition fromSpecial (doc : Doc) (attributes : gmap jsstring jsstring) :=
  foldl (addSpecial doc) attributes specialAttributes.

(** *** 5. [.featured-attributes-group] items *)

Definition fromGroups (doc : Doc) (attributes : gmap jsstring jsstring) :=
  foldl (fun acc items => foldl addPair acc items) attributes (attrGroups doc).

(** The maps between the strategies. *)
Definition afterContainers (doc : Doc) : gmap jsstring jsstring :=
  fromContainers doc (fromSchema doc ∅).

Definition afterSelectors (doc : Doc) : gmap jsstring jsstring :=
  fromSelectors doc (afterContainers doc).

Definition afterSpecial (doc : Doc) : gmap jsstring jsstring :=
  fromSpecial doc (afterSelectors doc).

(** No item of a [.featured-attributes-group] is labelled [k]. *)
Definition noGroupLabel (doc : Doc) (k : jsstring) : Prop :=
  Forall (Forall (fun item => trim (fst item) <> k)) (attrGroups doc).

(** Every value the extractor stores is a non-empty text. *)
Definition allTruthy (attributes : gmap jsstring jsstring) : Prop :=
  forall k v, attributes !! k = Some v -> truthy v = true.

(** [attributes] holds [v] under [k] and only non-empty texts. *)
Definition bound (k v : jsstring) (attributes : gmap jsstring jsstring) : Prop :=
  allTruthy attributes /\ attributes !! k = Some v.

(** The own properties of the object [scrapeProductAttributes] returns.
    None of the queries throws, so the outer [catch] is not reached. *)
Definition scrapeProductAttributes (doc : Doc) : gmap jsstring jsstring :=
  fromGroups doc (fromSpecial doc (fromSelectors doc
    (fromContainers doc (fromSchema doc ∅)))).

End Attributes.

Import Attributes.

(* ===================================================================== *)
(** ** scrapePrice *)
(* ===================================================================== *)

Module Price.

Record PriceResult := { price : jsstring; basePrice : jsstring }.

(** The literal [1.15]: the binary64 value nearest to it. *)
Definition markup : float := 0x1.2666666666666p+0%float.

(** [s.replace(pat, rep)] with a text pattern: the first occurrence only. *)
Fixpoint replaceFirst (pat rep s : jsstring) : jsstring :=
  if startsWith s pat then rep ++ skipn (length pat) s
  else match s with
       | [] => []
       | c :: s' => c :: replaceFirst pat rep s'
       end.

(** [el.first().text().trim().replace('TL', '').trim()]. *)
Definition priceText (text : jsstring) : jsstring :=
  trim (replaceFirst (u "TL") [] (trim text)).

(** Truthiness of [offers.price]. *)
Definition priceTruthy (p : PriceValue) : bool :=
  match p with
  | PriceText s => truthy s
  | PriceNumber x => negb (PrimFloat.eqb x PrimFloat.zero) && PrimFloat.eqb x x
  end.

Section WithNumberToString.

Variable shortestDecimal : float -> jsstring.

(** [offers.price.toString()]. *)
Definition priceToString (p : PriceValue) : jsstring :=
  match p with
  | PriceText s => s
  | PriceNumber x => numberToString shortestDecimal x
  end.

(** [(parseFloat(basePrice) * 1.15).toFixed(2)]. *)
Definition withMargin (basePrice : jsstring) : jsstring :=
  toFixed2 shortestDecimal (PrimFloat.mul (parseFloat basePrice) markup).

Definition priced (basePrice : jsstring) : PriceResult :=
  {| price := withMargin basePrice; basePrice := basePrice |}.

(** Strategies 2 and 3 and the final [throw]. *)
Definition priceFromDom (doc : Doc) : Result PriceResult :=
  match priceEl doc with
  | text :: _ => Ok (priced (priceText text))
  | [] =>
    match altPriceEl doc with
    | text :: _ => Ok (priced (priceText text))
    | [] => Throw (PlainError (u "Fiyat bilgisi bulunamadı"))
    end
  end.

(** The [catch] of [scrapePrice] logs and rethrows, so what the body
    throws is what the caller gets. *)
Definition scrapePrice (doc : Doc) : Result PriceResult :=
  match ldJson doc with
  | [] => priceFromDom doc
  | EmptyScript :: _ => priceFromDom doc
  | BadScript :: _ => Throw SyntaxError
  | Parsed JNull :: _ => Throw TypeError
  | Parsed JOther :: _ => priceFromDom doc
  | Parsed (JObject schema) :: _ =>
    match s_offers_price schema with
    | Some p =>
      if priceTruthy p then Ok (priced (priceToString p))
      else priceFromDom doc
    | None => priceFromDom doc
    end
  end.

End WithNumberToString.

(** The derived price as the specification words it: the base price times
    1.15 in exact arithmetic, rounded to two decimals. The base price is
    given in hundredths; a tie is rounded up, or to the even hundredth. *)
Definition exactWithMargin (baseCents : Z) : jsstring :=
  fixed2 ((baseCents * 115 + 50) / 100)%Z.

Definition exactWithMarginHalfEven (baseCents : Z) : jsstring :=
  fixed2 (roundHalfEven (baseCents * 115) 100).

(** No strategy yields a price: the first script block carries no truthy
    [offers.price] and neither price selector matches an element. *)
Definition noSchemaPrice (doc : Doc) : Prop :=
  match ldJson doc with
  | [] => True
  | EmptyScript :: _ => True
  | Parsed JOther :: _ => True
  | Parsed (JObject schema) :: _ =>
    match s_offers_price schema with
    | Some p => priceTruthy p = false
    | None => True
    end
  | _ => False
  end.

Definition noPriceAnywhere (doc : Doc) : Prop :=
  noSchemaPrice doc /\ priceEl doc = [] /\ altPriceEl doc = [].

End Price.

(* ===================================================================== *)
(** ** scrapeVariants *)
(* ===================================================================== *)

Module Variants.

Record VariantSet := { sizes : list jsstring; colors : list jsstring }.

Definition sizeSelectors : list jsstring :=
  [ u ".sp-itm:not(.so)";
    u ".variant-list-item:not(.disabled)";
    u ".size-variant-wrapper:not(.disabled)";
    u ".v2-size-value" ].

Definition colorSelectors : list jsstring :=
  [ u ".slc-txt";
    u ".color-variant-wrapper";
    u ".variant-property-list span";
    u ("[data-pk=" ++ dq ++ "color" ++ dq ++ "] .variant-list-item")%string ].

(** [$(selector).map((_, el) => $(el).text().trim()).get().filter(Boolean)]. *)
Definition found (doc : Doc) (selector : jsstring) : list jsstring :=
  List.filter truthy (map trim (textsOf doc selector)).

(** The test that recognises a run of sizes printed as one token. *)
Definition isComposite (size : jsstring) : bool :=
  includes size (u "XS") && includes size (u "S") && includes size (u "M").

(** The [reduce] over [foundSizes]. *)
Definition parseSizes (foundSizes : list jsstring) : list jsstring :=
  foldl (fun acc size => if isComposite size then acc else acc ++ [size])
        [] foundSizes.

(** [[...new Set(l)]]: the first occurrence of each value, in order. *)
Fixpoint uniqueFrom (seen : list jsstring) (l : list jsstring) : list jsstring :=
  match l with
  | [] => []
  | x :: l' =>
    if existsb (str_eqb x) seen then uniqueFrom seen l'
    else x :: uniqueFrom (x :: seen) l'
  end.

Definition unique (l : list jsstring) : list jsstring := uniqueFrom [] l.

Definition sizeOrder : list (jsstring * Z) :=
  [ (u "XXS", 1); (u "XS", 2); (u "S", 3); (u "M", 4); (u "L", 5);
    (u "XL", 6); (u "2XL", 7); (u "3XL", 8); (u "4XL", 9); (u "5XL", 10);
    (u "6XL", 11) ]%Z.

(** [sizeOrder[a] || 99]. A size named like a property of
    [Object.prototype] reads that property, a truthy value that is not a
    number: [None]. *)
Definition rank (a : jsstring) : option Z :=
  match List.find (fun e => str_eqb a (fst e)) sizeOrder with
  | Some e => Some (snd e)
  | None => if inherited a then None else Some 99%Z
  end.

(** The comparator is positive: [a] sorts after [b]. A difference that is
    NaN counts as zero. *)
Definition sortsAfter (a b : jsstring) : bool :=
  match rank a, rank b with
  | Some x, Some y => (0 <? x - y)%Z
  | _, _ => false
  end.

(** [Array.prototype.sort] is stable; a stable sort by insertion. *)
Fixpoint insertSorted (x : jsstring) (l : list jsstring) : list jsstring :=
  match l with
  | [] => [x]
  | y :: l' => if sortsAfter x y then y :: insertSorted x l' else x :: l
  end.

Definition sortSizes (l : list jsstring) : list jsstring :=
  foldr insertSorted [] l.

(** What the loop body computes from the texts of one selector. *)
Definition uniqueSizes (foundSizes : list jsstring) : list jsstring :=
  sortSizes (unique (parseSizes foundSizes)).

Definition nonEmpty {A : Type} (l : list A) : bool :=
  match l with [] => false | _ => true end.

(** The loop over [sizeSelectors]; [break] is the branch without a
    recursive call. *)
Fixpoint scanSizes (doc : Doc) (selectors : list jsstring) : list jsstring :=
  match selectors with
  | [] => []
  | selector :: rest =>
    let foundSizes := found doc selector in
    if nonEmpty foundSizes then
      if nonEmpty (uniqueSizes foundSizes) then uniqueSizes foundSizes
      else scanSizes doc rest
    else scanSizes doc rest
  end.

(** The choice of sizes as the specification words it: the texts of the
    first selector that yields any non-empty text, post-processed. *)
Definition sizesOfFirstYield (doc : Doc) (selectors : list jsstring) : list jsstring :=
  match List.find (fun selector => nonEmpty (found doc selector)) selectors with
  | Some selector => uniqueSizes (found doc selector)
  | None => []
  end.

(** The loop over [colorSelectors]. *)
Fixpoint scanColors (doc : Doc) (selectors : list jsstring) : list jsstring :=
  match selectors with
  | [] => []
  | selector :: rest =>
    let colors := found doc selector in
    if nonEmpty colors then unique colors else scanColors doc rest
  end.

Definition pushNew (l : list jsstring) (o : option jsstring) : list jsstring :=
  match o with
  | Some s => if truthy s && negb (existsb (str_eqb s) l) then l ++ [s] else l
  | None => l
  end.

Definition addVariant (variants : VariantSet) (variant : VariantEntry) : VariantSet :=
  {| sizes := pushNew (sizes variants) (ve_size variant);
     colors := pushNew (colors variants) (ve_color variant) |}.

(** [scrapeVariants($, schema)]. A [hasVariant] that is not an array throws
    at [forEach], before anything is pushed; the [catch] returns the
    variants collected from the page. *)
Definition scrapeVariants (doc : Doc) (schema : Schema) : VariantSet :=
  let variants :=
    {| sizes := scanSizes doc sizeSelectors;
       colors := scanColors doc colorSelectors |} in
  match s_hasVariant schema with
  | NoVariants => variants
  | VariantList l => foldl addVariant variants l
  | VariantOther => variants
  end.

End Variants.

Import Variants.


(* ===================================================================== *)
(** ** shared/schema.ts: urlSchema *)
(* ===================================================================== *)

Module UrlSchema.

(** The two components of a parsed URL the refinement reads. *)
Record URLRecord := { hostname : jsstring; pathname : jsstring }.

(** [req.body]: it carries a text [url], or it does not (no body, no
    [url], or a [url] that is not a text). *)
Inductive Body :=
| NoUrl
| WithUrl (url : jsstring).

Definition refineMessage : jsstring :=
  u "Geçerli bir Trendyol ürün URL'si giriniz. Örnek: https://www.trendyol.com/marka/urun-adi-p-123456".

Section WithURL.

(** [new URL(url)] is the platform's parser; [None] when it throws. *)
Variable parseURL : jsstring -> option URLRecord.

(** The predicate handed to [refine]. *)
Definition isProductUrl (url : jsstring) : bool :=
  match parseURL url with
  | Some parsedUrl =>
    let isValidHost := str_eqb (hostname parsedUrl) (u "www.trendyol.com") in
    let isProductUrl := includes (pathname parsedUrl) (u "/p-")
                        || includes (pathname parsedUrl) (u "-p-") in
    isValidHost && isProductUrl
  | None => false
  end.

(** [url] does not parse, or its host is not www.trendyol.com, or its path
    holds neither "/p-" nor "-p-". *)
Definition notProductUrl (url : jsstring) : Prop :=
  match parseURL url with
  | Some parsedUrl =>
    hostname parsedUrl <> u "www.trendyol.com"
    \/ (includes (pathname parsedUrl) (u "/p-") = false
        /\ includes (pathname parsedUrl) (u "-p-") = false)
  | None => True
  end.

(** [urlSchema.parse(req.body)]: the [url] or a thrown [ZodError]. *)
Definition parse (body : Body) : Result jsstring :=
  match body with
  | NoUrl => Throw (ZodError (u "Required"))
  | WithUrl url =>
    if isProductUrl url then Ok url else Throw (ZodError refineMessage)
  end.

End WithURL.

End UrlSchema.

(* ===================================================================== *)
(** ** server/storage.ts *)
(* ===================================================================== *)

Module Storage.

Record InsertProduct := {
  url : jsstring;
  title : jsstring;
  description : jsstring;
  price : jsstring;
  basePrice : jsstring;
  images : list jsstring;
  variants : VariantSet;
  attributes : gmap jsstring jsstring;
  categories : list jsstring;
  tags : list jsstring;
  brand : jsstring
}.

(** [{ ...insertProduct, id }]. *)
Record Product := { id : N; fields : InsertProduct }.

Record MemStorage := {
  products : gmap jsstring Product;
  currentId : N
}.

(** [new MemStorage()]. *)
Definition empty : MemStorage := {| products := ∅; currentId := 1 |}.

Definition saveProduct (this : MemStorage) (insertProduct : InsertProduct)
  : MemStorage * Product :=
  let id := currentId this in
  let product := {| id := id; fields := insertProduct |} in
  ({| products := <[url insertProduct := product]> (products this);
      currentId := id + 1 |},
   product).

Definition getProduct (this : MemStorage) (url : jsstring) : option Product :=
  products this !! url.

End Storage.

(* ===================================================================== *)
(** ** registerRoutes: POST /api/scrape *)
(* ===================================================================== *)

Module Routes.

Import UrlSchema Storage.

(** What [fetch] resolves to, with the body already read by
    [response.text()] and loaded by cheerio. *)
Record Response := {
  ok : bool;
  httpStatus : Z;
  statusText : jsstring;
  page : Doc
}.

(** The outcome of [await fetch(url, ...)]: a rejection or a response. *)
Inductive FetchResult :=
| Rejected
| Resolved (response : Response).

(** What the handler sends: [res.json(product)], or
    [res.status(status).json({ message, details })]. *)
Inductive Reply :=
| Sent (product : Product)
| Failed (error : ErrorReply).

(** [a || b] on optional texts. *)
Definition orElse (a b : option jsstring) : option jsstring :=
  if truthyOpt a then a else b.

(** [title.split(' ')[0]]. *)
Definition firstWord (title : jsstring) : jsstring :=
  hd [] (split 32 title).

Section Handler.

Variable parseURL : jsstring -> option URLRecord.
Variable shortestDecimal : float -> jsstring.

(** [scrapeTrendyolCategories] catches what it throws and always returns
    a list; its heuristics are not needed by any statement below and it is
    taken as a parameter. *)
Variable scrapeTrendyolCategories : Doc -> list jsstring.

(** The first JSON-LD block, checked. What the inner [try] throws,
    including the "Geçersiz ürün şeması" error, is caught and replaced. *)
Definition productSchema (doc : Doc) : Result Schema :=
  match ldJson doc with
  | [] => Throw (ProductDataError (u "Ürün şeması bulunamadı") (u "schema"))
  | EmptyScript :: _ =>
    Throw (ProductDataError (u "Ürün şeması bulunamadı") (u "schema"))
  | Parsed (JObject schema) :: _ =>
    if truthyOpt (s_type schema) && truthyOpt (s_name schema) then Ok schema
    else Throw (ProductDataError (u "Ürün şeması geçersiz") (u "schema"))
  | _ => Throw (ProductDataError (u "Ürün şeması geçersiz") (u "schema"))
  end.

(** The images block. The "Ürün görselleri bulunamadı" error is thrown
    inside the [try] and replaced by the [catch]. *)
Definition pushImage (images : list jsstring) (src : option jsstring) :=
  match src with
  | Some s => if truthy s && negb (existsb (str_eqb s) images)
              then images ++ [s] else images
  | None => images
  end.

Definition productImages (doc : Doc) (schema : Schema) : Result (list jsstring) :=
  let images :=
    match s_image_contentUrl schema with
    | Some (ManyUrls l) => l
    | Some (OneUrl s) => if truthy s then [s] else []
    | None => []
    end in
  let images :=
    if nonEmpty images then images
    else foldl pushImage
           (match mainImageSrc doc with
            | Some s => if truthy s then [s] else []
            | None => []
            end)
           (galleryImageSrc doc) in
  if nonEmpty images then Ok images
  else Throw (ProductDataError (u "Görseller işlenirken hata oluştu") (u "images")).

(** From the response to the record handed to [saveProduct]. *)
Definition assemble (url : jsstring) (result : FetchResult) : Result InsertProduct :=
  match result with
  | Rejected => Throw FetchError
  | Resolved response =>
    if negb (ok response) then
      Throw (TrendyolScrapingError (u "Ürün sayfası yüklenemedi")
               (Some {| upstreamStatus := httpStatus response;
                        upstreamStatusText := statusText response |}))
    else
      let doc := page response in
      schema ← productSchema doc;
      let title := default [] (s_name schema) in
      let description := s_description schema in
      priced ← Price.scrapePrice shortestDecimal doc;
      let brand :=
        default [] (orElse (orElse (s_brand_name schema) (s_manufacturer schema))
                           (Some (firstWord title))) in
      if negb (truthy title) || negb (truthyOpt description)
         || negb (truthy (Price.price priced))
      then Throw (ProductDataError (u "Temel ürün bilgileri eksik") (u "basicInfo"))
      else
        let categories := scrapeTrendyolCategories doc in
        let attributes := scrapeProductAttributes doc in
        images ← productImages doc schema;
        let variants := scrapeVariants doc schema in
        Ok {| url := url;
              title := title;
              description := default [] description;
              price := Price.price priced;
              basePrice := Price.basePrice priced;
              images := images;
              variants := variants;
              attributes := attributes;
              categories := categories;
              tags := categories;
              brand := brand |}
  end.

(** The handler up to [await fetch]: validation and the cache check. *)
Inductive Started :=
| Replied (reply : Reply)
| Fetching (url : jsstring).

Definition scrapeStart (storage : MemStorage) (body : Body) : Started :=
  match parse parseURL body with
  | Throw e => Replied (Failed (handleError e))
  | Ok url =>
    match getProduct storage url with
    | Some existing => Replied (Sent existing)
    | None => Fetching url
    end
  end.

(** The handler from the point where [fetch] settles. *)
Definition scrapeFinish (storage : MemStorage) (url : jsstring)
    (result : FetchResult) : MemStorage * Reply :=
  match assemble url result with
  | Ok product =>
    let '(storage', saved) := saveProduct storage product in
    (storage', Sent saved)
  | Throw e => (storage, Failed (handleError e))
  end.

(** One request served from start to end with nothing in between: the
    storage after it, the reply, and the URLs fetched. [net] is what the
    network answers. *)
Definition scrape (net : jsstring -> FetchResult) (storage : MemStorage)
    (body : Body) : MemStorage * Reply * list jsstring :=
  match scrapeStart storage body with
  | Replied reply => (storage, reply, [])
  | Fetching url =>
    let '(storage', reply) := scrapeFinish storage url (net url) in
    (storage', reply, [url])
  end.

(** *** The server under overlapping requests

    The handler is [async]: it runs to [await fetch] without interruption,
    and resumes when the fetch settles, after other requests may have been
    started or finished. An event is the arrival of a request or the
    settling of the fetch of a request in flight. *)
Inductive Event :=
| Arrive (body : Body)
| Settle (k : nat) (result : FetchResult).

Record Server := {
  storage : MemStorage;
  inFlight : list jsstring       (* URLs whose fetch has not settled *)
}.

(** What one event produces: a reply when the handler ends, the URL when
    a fetch is issued. *)
Record Effect := {
  reply : option Reply;
  fetched : option jsstring
}.

Definition step (s : Server) (e : Event) : Server * Effect :=
  match e with
  | Arrive body =>
    match scrapeStart (storage s) body with
    | Replied r => (s, {| reply := Some r; fetched := None |})
    | Fetching url =>
      ({| storage := storage s; inFlight := inFlight s ++ [url] |},
       {| reply := None; fetched := Some url |})
    end
  | Settle k result =>
    match inFlight s !! k with
    | Some url =>
      let '(storage', r) := scrapeFinish (storage s) url result in
      ({| storage := storage'; inFlight := delete k (inFlight s) |},
       {| reply := Some r; fetched := None |})
    | None => (s, {| reply := None; fetched := None |})
    end
  end.

Fixpoint run (s : Server) (events : list Event) : Server * list Effect :=
  match events with
  | [] => (s, [])
  | e :: rest =>
    let '(s1, eff) := step s e in
    let '(s2, effs) := run s1 rest in
    (s2, eff :: effs)
  end.

(** The server when it starts: [new MemStorage()], nothing in flight. *)
Definition initial : Server := {| storage := Storage.empty; inFlight := [] |}.

(** Every URL in flight has passed [urlSchema]. *)
Definition validInFlight (s : Server) : Prop :=
  Forall (fun url => isProductUrl parseURL url = true) (inFlight s).

(** [url] is cached as [p] and no scrape of [url] is in flight. *)
Definition settled (url : jsstring) (p : Product) (s : Server) : Prop :=
  products (storage s) !! url = Some p /\ url ∉ inFlight s.

End Handler.

(** The [id] of the product a reply carries. *)
Definition sentId (r : option Reply) : option N :=
  match r with
  | Some (Sent p) => Some (id p)
  | _ => None
  end.

End Routes.

(* ===================================================================== *)
(** ** registerRoutes: exportToShopify *)
(* ===================================================================== *)

Module Shopify.

(** The product handed to [exportToShopify]: the [product] member of the
    request body, with the fields the exporter reads. [attributes] is
    [Object.entries(product.attributes)]; [brand] may be missing. *)
Record Product := {
  title : jsstring;
  price : jsstring;
  brand : option jsstring;
  categories : list jsstring;
  sizes : list jsstring;             (* variants.sizes *)
  colors : list jsstring;            (* variants.colors *)
  images : list jsstring;
  attributes : list (jsstring * jsstring)
}.

(** A record handed to the CSV writer: an object literal, as its keys in
    source order; [None] is a member that holds [undefined]. *)
Definition Row : Type := list (jsstring * option jsstring).

(** [row[key]], [None] when the member is missing or [undefined]. *)
Definition get (row : Row) (key : jsstring) : option jsstring :=
  match List.find (fun e => str_eqb key (fst e)) row with
  | Some e => snd e
  | None => None
  end.

(** [l.join(sep)]. *)
Fixpoint join (sep : jsstring) (l : list jsstring) : jsstring :=
  match l with
  | [] => []
  | [x] => x
  | x :: l' => x ++ sep ++ join sep l'
  end.

(** The [replace] that doubles every double-quote character. *)
Definition doubleQuotes (s : jsstring) : jsstring :=
  concat (map (fun c => if c =? 34 then [34; 34] else [c]) s).

Definition isLowerAlnum (c : N) : bool :=
  ((97 <=? c) && (c <=? 122)) || ((48 <=? c) && (c <=? 57)).

(** [s.replace(/[^a-z0-9]+/g, '-')]. *)
Fixpoint hyphenate (inRun : bool) (s : jsstring) : jsstring :=
  match s with
  | [] => []
  | c :: s' =>
    if isLowerAlnum c then c :: hyphenate false s'
    else if inRun then hyphenate true s'
    else 45 :: hyphenate true s'
  end.

(** [s.replace(/-+/g, '-')]. *)
Fixpoint squeeze (inRun : bool) (s : jsstring) : jsstring :=
  match s with
  | [] => []
  | c :: s' =>
    if c =? 45 then (if inRun then squeeze true s' else 45 :: squeeze true s')
    else c :: squeeze false s'
  end.

(** [s.replace(/^-|-$/g, '')]. *)
Definition stripEnds (s : jsstring) : jsstring :=
  let s1 := match s with
            | c :: r => if c =? 45 then r else s
            | [] => []
            end in
  match rev s1 with
  | c :: r => if c =? 45 then rev r else s1
  | [] => s1
  end.

Definition handleOf (title : jsstring) : jsstring :=
  stripEnds (squeeze false (hyphenate false (toLowerCase title))).

Definition nl : string := String (ascii_of_nat 10) EmptyString.

(** The template literal of 'Body (HTML)', line breaks and indentation as
    in the source. *)
Definition bodyHtml (attributesHtml : jsstring) : jsstring :=
  u ("<div class=" ++ dq ++ "product-features" ++ dq ++ ">" ++ nl
     ++ "        <h3>Ürün Özellikleri</h3>" ++ nl
     ++ "        <div class=" ++ dq ++ "features-list" ++ dq ++ ">" ++ nl
     ++ "          ")%string
  ++ attributesHtml
  ++ u (nl ++ "        </div>" ++ nl ++ "      </div>")%string.

Definition text (s : string) : option jsstring := Some (u s).

Section Records.

Variable product : Product.

Definition handle : jsstring := handleOf (title product).

Definition attributesHtml : jsstring :=
  join (u "<br>")
    (map (fun e => u "<strong>" ++ fst e ++ u ":</strong> " ++ snd e)
         (attributes product)).

Definition seoDescription : jsstring :=
  doubleQuotes
    (firstn 320
       (join (u ". ")
          (map (fun e => fst e ++ u ": " ++ snd e) (attributes product)))).

Definition mainRecord : Row :=
  [ (u "Title", Some (title product));
    (u "Handle", Some handle);
    (u "Body (HTML)", Some (doubleQuotes (bodyHtml attributesHtml)));
    (u "Vendor", Routes.orElse (brand product) (Some []));
    (u "Product Category", text "Apparel & Accessories > Clothing");
    (u "Type", text "Clothing");
    (u "Tags", Some (join (u ",") (categories product)));
    (u "Published", text "TRUE");
    (u "Status", text "active");
    (u "SKU", Some (handle ++ u "-1"));
    (u "Barcode", Some []);
    (u "Option1 Name", if nonEmpty (sizes product) then text "Size" else Some []);
    (u "Option1 Value", Routes.orElse (nth_error (sizes product) 0) (Some []));
    (u "Option2 Name", if nonEmpty (colors product) then text "Color" else Some []);
    (u "Option2 Value", Routes.orElse (nth_error (colors product) 0) (Some []));
    (u "Option3 Name", Some []);
    (u "Option3 Value", Some []);
    (u "Price", Some (price product));
    (u "Inventory policy", text "deny");
    (u "Inventory quantity", text "100");
    (u "Requires shipping", text "TRUE");
    (u "Weight", text "500");
    (u "Weight unit", text "g");
    (u "Image Src", Routes.orElse (nth_error (images product) 0) (Some []));
    (u "Image Position", text "1");
    (u "Image alt text", Some (title product));
    (u "Variant Image", Some []);
    (u "SEO Title", Some (title product));
    (u "SEO Description", Some seoDescription) ].

(** The record pushed for [sizes[i]]. *)
Definition sizeRecord (i : nat) : Row :=
  [ (u "Handle", Some handle);
    (u "Title", Some []);
    (u "Body (HTML)", get mainRecord (u "Body (HTML)"));
    (u "Vendor", get mainRecord (u "Vendor"));
    (u "Product Category", get mainRecord (u "Product Category"));
    (u "Type", get mainRecord (u "Type"));
    (u "Tags", get mainRecord (u "Tags"));
    (u "Published", get mainRecord (u "Published"));
    (u "Status", get mainRecord (u "Status"));
    (u "Option1 Name", text "Size");
    (u "Option1 Value", nth_error (sizes product) i);
    (u "Option2 Name", get mainRecord (u "Option2 Name"));
    (u "Option2 Value", get mainRecord (u "Option2 Value"));
    (u "Option3 Name", Some []);
    (u "Option3 Value", Some []);
    (u "SKU", Some (handle ++ u "-size-" ++ decimal (N.of_nat i)));
    (u "Price", Some (price product));
    (u "Inventory policy", text "deny");
    (u "Inventory quantity", text "100");
    (u "Requires shipping", text "TRUE");
    (u "Weight", get mainRecord (u "Weight"));
    (u "Weight unit", get mainRecord (u "Weight unit")) ].

(** The record pushed for [colors[i]]. *)
Definition colorRecord (i : nat) : Row :=
  let variantImage :=
    Routes.orElse (nth_error (images product) i) (nth_error (images product) 0) in
  [ (u "Handle", Some handle);
    (u "Title", Some []);
    (u "Body (HTML)", get mainRecord (u "Body (HTML)"));
    (u "Vendor", get mainRecord (u "Vendor"));
    (u "Product Category", get mainRecord (u "Product Category"));
    (u "Type", get mainRecord (u "Type"));
    (u "Tags", get mainRecord (u "Tags"));
    (u "Published", get mainRecord (u "Published"));
    (u "Status", get mainRecord (u "Status"));
    (u "Option1 Name", get mainRecord (u "Option1 Name"));
    (u "Option1 Value", get mainRecord (u "Option1 Value"));
    (u "Option2 Name", text "Color");
    (u "Option2 Value", nth_error (colors product) i);
    (u "Option3 Name", Some []);
    (u "Option3 Value", Some []);
    (u "SKU", Some (handle ++ u "-color-" ++ decimal (N.of_nat i)));
    (u "Price", Some (price product));
    (u "Inventory policy", text "deny");
    (u "Inventory quantity", text "100");
    (u "Requires shipping", text "TRUE");
    (u "Weight", get mainRecord (u "Weight"));
    (u "Weight unit", get mainRecord (u "Weight unit"));
    (u "Image Src", variantImage);
    (u "Image Position", Some (decimal (N.of_nat (i + 1))));
    (u "Variant Image", variantImage) ].

(** [for (let i = 1; i < n; i++)]: the indices visited. *)
Definition fromOne (n : nat) : list nat := seq 1 (n - 1).

Definition sizeRecords : list Row :=
  if nonEmpty (sizes product)
  then map sizeRecord (fromOne (length (sizes product)))
  else [].

Definition colorRecords : list Row :=
  if nonEmpty (colors product)
  then map colorRecord (fromOne (length (colors product)))
  else [].

(** The [records] array handed to [csvWriter.writeRecords]. *)
Definition records : list Row :=
  [mainRecord] ++ sizeRecords ++ colorRecords.

End Records.

(** The image at index [i] if there is one and it is not the empty text,
    the first image otherwise; nothing when there is neither. *)
Definition imageFor (images : list jsstring) (i : nat) : option jsstring :=
  match nth_error images i with
  | Some (c :: s) => Some (c :: s)
  | _ => nth_error images 0
  end.

(** The four image columns. *)
Definition imageColumns : list jsstring :=
  [u "Image Src"; u "Image Position"; u "Image alt text"; u "Variant Image"].

(** The columns of the CSV file: the [header] of the writer. *)
Definition header : list jsstring :=
  map u
  [ "Title"; "Handle"; "Body (HTML)"; "Vendor"; "Product Category"; "Type";
    "Tags"; "Published"; "Status"; "Option1 Name"; "Option1 Value";
    "Option2 Name"; "Option2 Value"; "Option3 Name"; "Option3 Value"; "SKU";
    "Price"; "Inventory policy"; "Inventory quantity"; "Requires shipping";
    "Weight"; "Weight unit"; "Image Src"; "Image Position"; "Image alt text";
    "Variant Image"; "SEO Title"; "SEO Description" ]%string.

(** Modelled from the spec: the cell that csv-writer, a library outside the
    repository, prints for a column of a record. "Absent values render as
    empty strings, not omitted columns." *)
Definition cell (row : Row) (column : jsstring) : jsstring :=
  default [] (get row column).

(** The lines of products.csv below the header line, cell by cell. *)
Definition exportToShopify (product : Product) : list (list jsstring) :=
  map (fun row => map (cell row) header) (records product).

End Shopify.


(* ===================================================================== *)
(** ** Pages used as examples *)
(* ===================================================================== *)

Module Examples.

(** A page on which every query comes back empty. *)
Definition blank : Doc :=
  {| ldJson := [];
     attrContainers := [];
     attrElements := fun _ => [];
     specialValues := fun _ => [];
     attrGroups := [];
     priceEl := [];
     altPriceEl := [];
     textsOf := fun _ => [];
     mainImageSrc := None;
     galleryImageSrc := [] |}.

(** A page whose [.sp-itm:not(.so)] elements hold the single text XSSMLXL
    and whose [.variant-list-item:not(.disabled)] elements hold S and M. *)
Definition compositeFirst : Doc :=
  {| ldJson := [];
     attrContainers := [];
     attrElements := fun _ => [];
     specialValues := fun _ => [];
     attrGroups := [];
     priceEl := [];
     altPriceEl := [];
     textsOf := fun selector =>
       if str_eqb selector (u ".sp-itm:not(.so)") then [u "XSSMLXL"]
       else if str_eqb selector (u ".variant-list-item:not(.disabled)")
       then [u "S"; u "M"]
       else [];
     mainImageSrc := None;
     galleryImageSrc := [] |}.

(** A JSON-LD object with a type and a name and nothing else. *)
Definition bareSchema : Schema :=
  {| s_type := Some (u "Product");
     s_name := Some (u "Basic Tişört");
     s_description := None;
     s_offers_price := None;
     s_brand_name := None;
     s_manufacturer := None;
     s_image_contentUrl := None;
     s_hasVariant := NoVariants;
     s_additionalProperty := None |}.

(** A page that names the colour twice and the fabric twice: the JSON-LD
    block has the additional property Renk = Mavi, a row of the
    [.detail-attr-container] table reads Renk / Kırmızı, a
    [.detail-attr-item] element is labelled Kumaş / Pamuk, and an item of a
    [.featured-attributes-group] is labelled Kumaş / Polyester. *)
Definition twiceNamed : Doc :=
  {| ldJson :=
       [Parsed (JObject
          {| s_type := Some (u "Product");
             s_name := Some (u "Basic Tişört");
             s_description := None;
             s_offers_price := None;
             s_brand_name := None;
             s_manufacturer := None;
             s_image_contentUrl := None;
             s_hasVariant := NoVariants;
             s_additionalProperty :=
               Some [{| ap_name := Some (u "Renk");
                        ap_unitText := Some (u "Mavi") |}] |})];
     attrContainers := [[(u "Renk", u " Kırmızı ")]];
     attrElements := fun selector =>
       if str_eqb selector (u ".detail-attr-item")
       then [Labelled (u "Kumaş") (u "Pamuk"); Labelled (u "Renk") (u "Yeşil")]
       else [];
     specialValues := fun _ => [];
     attrGroups := [[(u "Kumaş", u "Polyester")]];
     priceEl := [];
     altPriceEl := [];
     textsOf := fun _ => [];
     mainImageSrc := None;
     galleryImageSrc := [] |}.

(** A page whose JSON-LD block offers the product at [p] and which shows
    no price element. *)
Definition offeredAt (p : PriceValue) : Doc :=
  {| ldJson :=
       [Parsed (JObject
          {| s_type := Some (u "Product");
             s_name := Some (u "Basic Tişört");
             s_description := Some (u "Pamuklu tişört");
             s_offers_price := Some p;
             s_brand_name := Some (u "Marka");
             s_manufacturer := None;
             s_image_contentUrl := Some (OneUrl (u "https://cdn.example.com/a.jpg"));
             s_hasVariant := NoVariants;
             s_additionalProperty := None |})];
     attrContainers := [];
     attrElements := fun _ => [];
     specialValues := fun _ => [];
     attrGroups := [];
     priceEl := [];
     altPriceEl := [];
     textsOf := fun _ => [];
     mainImageSrc := None;
     galleryImageSrc := [] |}.

(** A page with a JSON-LD block that has a type and a name and offers no
    price, and with no price element. *)
Definition unpriced : Doc :=
  {| ldJson := [Parsed (JObject bareSchema)];
     attrContainers := [];
     attrElements := fun _ => [];
     specialValues := fun _ => [];
     attrGroups := [];
     priceEl := [];
     altPriceEl := [];
     textsOf := fun _ => [];
     mainImageSrc := Some (u "https://cdn.example.com/a.jpg");
     galleryImageSrc := [] |}.

(** A reading of [new URL] for the examples: plain http(s) URLs with no
    credentials and no port. The host runs to the first slash, question
    mark or hash; the path from there to the first question mark or hash. *)
Fixpoint upTo (stop : N -> bool) (s : jsstring) : jsstring * jsstring :=
  match s with
  | [] => ([], [])
  | c :: s' =>
    if stop c then ([], s)
    else let '(a, b) := upTo stop s' in (c :: a, b)
  end.

Definition parseHttpUrl (url : jsstring) : option UrlSchema.URLRecord :=
  let rest :=
    if startsWith url (u "https://") then Some (skipn 8 url)
    else if startsWith url (u "http://") then Some (skipn 7 url)
    else None in
  match rest with
  | None => None
  | Some r =>
    let '(host, r1) := upTo (fun c => (c =? 47) || (c =? 63) || (c =? 35)) r in
    let '(path, _) := upTo (fun c => (c =? 63) || (c =? 35)) r1 in
    if nonEmpty host
    then Some {| UrlSchema.hostname := toLowerCase host;
                 UrlSchema.pathname := if nonEmpty path then path else u "/" |}
    else None
  end.

(** A product URL, and a URL of another host. *)
Definition productUrl : jsstring :=
  u "https://www.trendyol.com/marka/basic-tisort-p-123456".

Definition foreignUrl : jsstring :=
  u "https://www.example.com/marka/basic-tisort-p-123456".

(** The answer of the network for the examples: the page that offers the
    product at 100. *)
Definition pageAt100 : Routes.FetchResult :=
  Routes.Resolved
    {| Routes.ok := true;
       Routes.httpStatus := 200;
       Routes.statusText := u "OK";
       Routes.page := offeredAt (PriceNumber 100%float) |}.

(** What the handler assembles from that page for [productUrl]. *)
Definition scrapedAt100 : Storage.InsertProduct :=
  {| Storage.url := productUrl;
     Storage.title := u "Basic Tişört";
     Storage.description := u "Pamuklu tişört";
     Storage.price := u "115.00";
     Storage.basePrice := u "100";
     Storage.images := [u "https://cdn.example.com/a.jpg"];
     Storage.variants := {| sizes := []; colors := [] |};
     Storage.attributes := ∅;
     Storage.categories := [u "Giyim"];
     Storage.tags := [u "Giyim"];
     Storage.brand := u "Marka" |}.

Definition firstSaved : Storage.Product :=
  {| Storage.id := 1; Storage.fields := scrapedAt100 |}.

(** The server with one scrape of [productUrl] in flight, and the server
    after that scrape has been answered. *)
Definition awaitingFirst : Routes.Server :=
  {| Routes.storage := Storage.empty; Routes.inFlight := [productUrl] |}.

Definition afterFirst : Routes.Server :=
  {| Routes.storage :=
       {| Storage.products := {[ productUrl := firstSaved ]};
          Storage.currentId := 2 |};
     Routes.inFlight := [] |}.

Definition servedFromCache : Routes.Effect :=
  {| Routes.reply := Some (Routes.Sent firstSaved); Routes.fetched := None |}.

(** Two requests for [productUrl] arrive before the fetch of the first
    settles; both fetches settle; a third request arrives. *)
Definition overlapping : list Routes.Event :=
  [ Routes.Arrive (UrlSchema.WithUrl productUrl);
    Routes.Arrive (UrlSchema.WithUrl productUrl);
    Routes.Settle 0 pageAt100;
    Routes.Settle 0 pageAt100;
    Routes.Arrive (UrlSchema.WithUrl productUrl) ].

(** A stand-in for [scrapeTrendyolCategories] in the examples. *)
Definition oneCategory : Doc -> list jsstring := fun _ => [u "Giyim"].

(** A [shortestDecimal] for the examples, none of which reaches it. *)
Definition noDigits : float -> jsstring := fun _ => [].

(** A product with one size, two colours and two images, the second
    image being the empty text. *)
Definition emptySecondImage : Shopify.Product :=
  {| Shopify.title := u "Basic Tişört";
     Shopify.price := u "115.00";
     Shopify.brand := Some (u "Marka");
     Shopify.categories := [u "Erkek"; u "Tişört"];
     Shopify.sizes := [u "S"];
     Shopify.colors := [u "Mavi"; u "Kırmızı"];
     Shopify.images := [u "https://cdn.example.com/a.jpg"; []];
     Shopify.attributes := [(u "Renk", u "Mavi")] |}.

(** A product with two sizes, two colours and three images. *)
Definition twoByTwo : Shopify.Product :=
  {| Shopify.title := u "Basic Tişört";
     Shopify.price := u "115.00";
     Shopify.brand := Some (u "Marka");
     Shopify.categories := [u "Erkek"; u "Tişört"];
     Shopify.sizes := [u "S"; u "M"];
     Shopify.colors := [u "Mavi"; u "Kırmızı"];
     Shopify.images := [u "https://cdn.example.com/a.jpg";
                        u "https://cdn.example.com/b.jpg";
                        u "https://cdn.example.com/c.jpg"];
     Shopify.attributes := [(u "Renk", u "Mavi")] |}.

(** The same page with texts added under the two later size selectors. *)
Definition compositeFirstThenMore : Doc :=
  {| ldJson := [];
     attrContainers := [];
     attrElements := fun _ => [];
     specialValues := fun _ => [];
     attrGroups := [];
     priceEl := [];
     altPriceEl := [];
     textsOf := fun selector =>
       if str_eqb selector (u ".sp-itm:not(.so)") then [u "XSSMLXL"]
       else if str_eqb selector (u ".variant-list-item:not(.disabled)")
       then [u "S"; u "M"]
       else [u "L"; u "XL"];
     mainImageSrc := None;
     galleryImageSrc := [] |}.

(** The response that carries the page without a price. *)
Definition unpricedResponse : Routes.Response :=
  {| Routes.ok := true;
     Routes.httpStatus := 200;
     Routes.statusText := u "OK";
     Routes.page := unpriced |}.

End Examples.

(* ===================================================================== *)
(** ** scrapeTrendyolCategories *)
(* ===================================================================== *)

Module Categories.

(** An entry of [breadcrumb.itemListElement]: its [name] and the [name] of
    its [item]. *)
Record BreadcrumbItem := {
  bi_name : option jsstring;
  bi_item_name : option jsstring
}.

(** [breadcrumb?.itemListElement]: absent, an array, or another truthy
    value (whose [map] is not a function). *)
Inductive ItemList :=
| NoItems
| ItemArray (l : list BreadcrumbItem)
| ItemsOther.

(** One JSON-LD block, as the category extractor reads it: its [html()]
    is empty, is not JSON, parses to [null], to a value that is not an
    object, or to an object. *)
Inductive CrumbScript :=
| CrumbEmpty
| CrumbBad
| CrumbNull
| CrumbOther
| CrumbObject (itemListElement : ItemList).

(** The queries of [scrapeTrendyolCategories], in document order. The
    texts are as [text()] gives them, before [trim]; [first().text()] of an
    empty selection is the empty text. *)
Record CategoryPage := {
  (* $('script[type="application/ld+json"]') *)
  crumbScripts : list CrumbScript;
  (* text() of each of $(".breadcrumb-wrapper span, .product-path span, .breadcrumb li") *)
  breadcrumbTexts : list jsstring;
  (* $(".pr-new-br span, .product-brand-name, .brand-name").first().text() *)
  brandText : jsstring;
  (* $(".product-category-container span").first().text() *)
  mainCategoryText : jsstring;
  (* text() of each of $(".detail-category-wrapper span, .product-type-wrapper span") *)
  detailTexts : list jsstring;
  (* $(".pr-new-br").text() *)
  productTitleText : jsstring;
  (* $(".product-type, .type-name").first().text() *)
  typeText : jsstring;
  (* $("h1.pr-new-br").text() *)
  h1Text : jsstring
}.

(** Upper-casing of one code unit, over the same range as [lowerUnit];
    sharp s, dotless i, long s and the apostrophe-n are the special cases
    of Unicode. *)
Definition toUpperUnit (c : N) : jsstring :=
  if (97 <=? c) && (c <=? 122) then [c - 32]
  else if c =? 181 then [924]
  else if c =? 223 then [83; 83]
  else if (224 <=? c) && (c <=? 254) && negb (c =? 247) then [c - 32]
  else if c =? 255 then [376]
  else if c =? 305 then [73]
  else if c =? 329 then [700; 78]
  else if c =? 383 then [83]
  else if (((257 <=? c) && (c <=? 303)) || ((307 <=? c) && (c <=? 311))
           || ((331 <=? c) && (c <=? 375))) && N.odd c then [c - 1]
  else if (((314 <=? c) && (c <=? 328)) || ((378 <=? c) && (c <=? 382)))
          && N.even c then [c - 1]
  else [c].

(** Canonicalize of a regular expression with the [i] flag and without
    the [u] flag: the upper case of the unit when that is one unit, except
    that a unit outside ASCII is not mapped into ASCII. For the letters of
    the pattern below the table of [toUpperUnit] is complete: no unit
    above U+017F has an upper case among them. *)
Definition canonicalize (c : N) : N :=
  match toUpperUnit c with
  | [cu] => if (128 <=? c) && (cu <? 128) then c else cu
  | _ => c
  end.

(** The pattern word [w] matches at the head of [s], case ignored. *)
Fixpoint matchesAt (w s : jsstring) : bool :=
  match w, s with
  | [], _ => true
  | p :: w', x :: s' => (canonicalize x =? canonicalize p) && matchesAt w' s'
  | _ :: _, [] => false
  end.

(** The alternatives of [/(erkek|kadın|unisex|çocuk)/i], in order. *)
Definition genderWords : list jsstring :=
  [u "erkek"; u "kadın"; u "unisex"; u "çocuk"].

(** [s.match(/(erkek|kadın|unisex|çocuk)/i)?.[0]]: the text matched at the
    leftmost position where an alternative matches, [None] for no match. *)
Fixpoint matchGender (s : jsstring) : option jsstring :=
  match CategoryMapping.firstReturn
          (fun w => if matchesAt w s then Some (firstn (length w) s) else None)
          genderWords with
  | Some gender => Some gender
  | None =>
    match s with
    | [] => None
    | _ :: s' => matchGender s'
    end
  end.

(** [g.charAt(0).toUpperCase() + g.slice(1)]. *)
Definition capitalize (g : jsstring) : jsstring :=
  match g with
  | [] => []
  | c :: r => toUpperUnit c ++ r
  end.

(** [item.name || item.item?.name]. *)
Definition crumbName (item : BreadcrumbItem) : option jsstring :=
  Routes.orElse (bi_name item) (bi_item_name item).

(** The [map] and [filter] over [itemListElement]. *)
Definition breadcrumbsOf (items : list BreadcrumbItem) : list jsstring :=
  flat_map
    (fun item =>
       match crumbName item with
       | Some name =>
         if truthy name && negb (str_eqb name (u "Trendyol")) then [name] else []
       | None => []
       end)
    items.

(** One script block of strategy 1. Whatever throws inside the inner [try]
    leaves [categories] as it was. *)
Definition fromScript (categories : list jsstring) (script : CrumbScript)
  : list jsstring :=
  match script with
  | CrumbObject (ItemArray items) =>
    let breadcrumbs := breadcrumbsOf items in
    if nonEmpty breadcrumbs then breadcrumbs else categories
  | _ => categories
  end.

(** Strategy 2: the breadcrumb elements. *)
Definition fromBreadcrumb (page : CategoryPage) : list jsstring :=
  List.filter
    (fun cat => negb (str_eqb cat (u ">")) && negb (str_eqb cat (u "/"))
                && negb (str_eqb cat (u "Trendyol")) && nonEmpty cat)
    (map trim (breadcrumbTexts page)).

(** Strategy 3: brand, main category, detail categories. *)
Definition fromDetail (page : CategoryPage) : list jsstring :=
  let brand := trim (brandText page) in
  let mainCategory := trim (mainCategoryText page) in
  let detailCategories := if truthy brand then [brand] else [] in
  let detailCategories :=
    if truthy mainCategory then detailCategories ++ [mainCategory]
    else detailCategories in
  foldl (fun acc text => pushNew acc (Some (trim text)))
        detailCategories (detailTexts page).

Definition productTypes : list jsstring :=
  [u "Giyim"; u "Spor"; u "Ayakkabı"; u "Aksesuar"].

(** The loop over [productTypes]. *)
Definition addProductType (productTitle : jsstring)
    (categoryParts : list jsstring) (pType : jsstring) : list jsstring :=
  if includes (toLowerCase productTitle) (toLowerCase pType)
  then (if existsb (str_eqb pType) categoryParts then categoryParts
        else categoryParts ++ [pType])
  else categoryParts.

(** Strategy 4: gender and type read off the title. *)
Definition fromTitle (page : CategoryPage) : list jsstring :=
  let productTitle := trim (productTitleText page) in
  let type := trim (typeText page) in
  let gender := matchGender productTitle in
  if truthyOpt gender || truthy type then
    let categoryParts :=
      match gender with
      | Some g => [capitalize g]
      | None => []
      end in
    let categoryParts := if truthy type then categoryParts ++ [type]
                         else categoryParts in
    foldl (addProductType productTitle) categoryParts productTypes
  else [].

(** [if (categories.length === 0) { ... }]: [next] is what the block
    leaves in [categories]. *)
Definition orIfEmpty (categories next : list jsstring) : list jsstring :=
  if nonEmpty categories then categories else next.

(** Strategy 5: the title, or the default category. *)
Definition lastResort (page : CategoryPage) : list jsstring :=
  let title := trim (h1Text page) in
  if truthy title then [title] else [u "Giyim"].

(** None of the queries throws, so the outer [catch] is not reached. *)
Definition scrapeTrendyolCategories (page : CategoryPage) : list jsstring :=
  let categories := foldl fromScript [] (crumbScripts page) in
  let categories := orIfEmpty categories (fromBreadcrumb page) in
  let categories := orIfEmpty categories (fromDetail page) in
  let categories := orIfEmpty categories (fromTitle page) in
  orIfEmpty categories (lastResort page).

End Categories.

(* ===================================================================== *)
(** ** Predicates used in the statements below *)
(* ===================================================================== *)

Module Shape.

(** A JSON-LD block that leaves the categories as they are: anything but
    an object whose breadcrumb items give at least one name. *)
Definition silent (script : Categories.CrumbScript) : Prop :=
  match script with
  | Categories.CrumbObject (Categories.ItemArray items) =>
    Categories.breadcrumbsOf items = []
  | _ => True
  end.

(** Every text of the list is non-empty. *)
Definition allNamed (l : list jsstring) : Prop :=
  Forall (fun c => truthy c = true) l.




(** The fields the handler checks before it saves. *)
Definition completeRecord (product : Storage.InsertProduct) : Prop :=
  truthy (Storage.title product) = true
  /\ truthy (Storage.description product) = true
  /\ truthy (Storage.price product) = true
  /\ Storage.images product <> []
  /\ Storage.tags product = Storage.categories product.

(** Every own property has a non-empty name and holds a non-empty text,
    and none is named [__proto__]. *)
Definition namedEntries (attributes : gmap jsstring jsstring) : Prop :=
  map_Forall (fun k v => truthy k = true /\ truthy v = true) attributes
  /\ attributes !! u "__proto__" = None.


(** [a] does not rank above [b], both having a rank. *)
Definition inRankOrder (a b : jsstring) : Prop :=
  exists x y, rank a = Some x /\ rank b = Some y /\ (x <= y)%Z.

(** The texts of [l] whose rank is [r], in the order of [l]. *)
Definition ofRank (r : option Z) (l : list jsstring) : list jsstring :=
  List.filter (fun s => bool_decide (rank s = r)) l.

(** The status of a reply: [res.json] answers with 200. *)
Definition replyStatus (r : Routes.Reply) : Z :=
  match r with
  | Routes.Sent _ => 200
  | Routes.Failed e => status e
  end.

(** The event is the arrival of a request. *)
Definition isArrival (e : Routes.Event) : bool :=
  match e with Routes.Arrive _ => true | Routes.Settle _ _ => false end.

(** The effect holds a reply; the effect holds a fetch. *)
Definition answered (eff : Routes.Effect) : bool :=
  match Routes.reply eff with Some _ => true | None => false end.

Definition issued (eff : Routes.Effect) : bool :=
  match Routes.fetched eff with Some _ => true | None => false end.


(** The statuses the scrape handler answers with. *)
Definition knownStatus (r : Routes.Reply) : Prop :=
  (replyStatus r = 200 \/ replyStatus r = 422 \/ replyStatus r = 500)%Z.

(** The errors of the scrape handler once the URL has been accepted, by
    the [throw] they come from. *)
Definition thrownByScrape (e : JsError) : Prop :=
  e = FetchError
  \/ (exists upstream,
        e = TrendyolScrapingError (u "Ürün sayfası yüklenemedi") (Some upstream))
  \/ e = ProductDataError (u "Ürün şeması bulunamadı") (u "schema")
  \/ e = ProductDataError (u "Ürün şeması geçersiz") (u "schema")
  \/ e = PlainError (u "Fiyat bilgisi bulunamadı")
  \/ e = ProductDataError (u "Temel ürün bilgileri eksik") (u "basicInfo")
  \/ e = ProductDataError (u "Görseller işlenirken hata oluştu") (u "images").



End Shape.

(* ===================================================================== *)
(** ** More instances *)
(* ===================================================================== *)

Module Instances.

(** A page with two JSON-LD blocks that carry a breadcrumb, followed by a
    block that is not JSON, and with breadcrumb elements as well. *)
Definition twoBreadcrumbs : Categories.CategoryPage :=
  {| Categories.crumbScripts :=
       [ Categories.CrumbObject (Categories.ItemArray
           [{| Categories.bi_name := Some (u "Trendyol");
               Categories.bi_item_name := None |};
            {| Categories.bi_name := Some (u "Kadın");
               Categories.bi_item_name := None |}]);
         Categories.CrumbObject (Categories.ItemArray
           [{| Categories.bi_name := Some (u "Trendyol");
               Categories.bi_item_name := None |};
            {| Categories.bi_name := None;
               Categories.bi_item_name := Some (u "Erkek") |};
            {| Categories.bi_name := Some (u "Tişört");
               Categories.bi_item_name := Some (u "T-Shirt") |}]);
         Categories.CrumbBad ];
     Categories.breadcrumbTexts := [u "Trendyol"; u ">"; u "Giyim"];
     Categories.brandText := u "Marka";
     Categories.mainCategoryText := [];
     Categories.detailTexts := [];
     Categories.productTitleText := u "Marka Erkek Tişört";
     Categories.typeText := [];
     Categories.h1Text := u "Marka Erkek Tişört" |}.





(** What the handler assembles from the page at 100 when the category
    queries answer as on [twoBreadcrumbs]. *)
Definition scrapedWithBreadcrumbs : Storage.InsertProduct :=
  {| Storage.url := Examples.productUrl;
     Storage.title := u "Basic Tişört";
     Storage.description := u "Pamuklu tişört";
     Storage.price := u "115.00";
     Storage.basePrice := u "100";
     Storage.images := [u "https://cdn.example.com/a.jpg"];
     Storage.variants := {| sizes := []; colors := [] |};
     Storage.attributes := ∅;
     Storage.categories := [u "Erkek"; u "Tişört"];
     Storage.tags := [u "Erkek"; u "Tişört"];
     Storage.brand := u "Marka" |}.

End Instances.

(* ===================================================================== *)
(** * Theorems *)
(* ===================================================================== *)

(** ** Category resolution *)

Section CategoryResolution.

Import CategoryMapping.

Lemma firstReturn_none {A B : Type} (f : A -> option B) (l : list A) :
  firstReturn f l = None <-> Forall (fun x => f x = None) l.
Proof.
  induction l as [|x l IH]; simpl.
  - split; [constructor | reflexivity].
  - destruct (f x) eqn:E.
    + split; [discriminate | intros H; inversion H; congruence].
    + rewrite IH. split; [intros H; constructor; assumption | intros H; inversion H; assumption].
Qed.

(** A category that the first loop passes over holds no known key, so the
    second loop passes over it as well. *)
Lemma exactLoop_none_partialLoop_none (category : jsstring) :
  exactLoop category = None -> partialLoop category = None.
Proof.
  unfold exactLoop, partialLoop.
  induction categoryMapping as [|e m IH]; simpl; [reflexivity|].
  destruct (str_eqb category (fst e) || includes category (fst e)) eqn:E.
  - discriminate.
  - apply orb_false_iff in E as [_ ->]. exact IH.
Qed.

(** The second loop of [getCategoryConfig] never returns: whenever the
    first loop finds nothing, the second finds nothing either. *)
Lemma partial_loop_never_returns (categories : list jsstring) :
  firstReturn exactLoop categories = None ->
  firstReturn partialLoop categories = None.
Proof.
  rewrite !firstReturn_none. intros H.
  eapply Forall_impl; [exact H|]. intros c Hc.
  apply exactLoop_none_partialLoop_none. exact Hc.
Qed.

Lemma erkek_differs_from_tisort : erkekConfig <> tisortConfig.
Proof.
  intros H. apply (f_equal shopifyCategory) in H.
  vm_compute in H. discriminate H.
Qed.

End CategoryResolution.

(** C1. For the category list ["Erkek Giyim", "Tişört"] the resolver
    [getCategoryConfig] returns the mapping of the key "erkek", which is
    not the mapping of "tişört": the first loop tests containment together
    with equality, and "erkek giyim" contains the first key of the table.
    Resolving in the order exact match, containment, gender keyword,
    default returns the "tişört" mapping on the same list. *)
Theorem getCategoryConfig_erkek_giyim_tisort :
  CategoryMapping.getCategoryConfig [u "Erkek Giyim"; u "Tişört"]
    = CategoryMapping.erkekConfig
  /\ CategoryMapping.erkekConfig <> CategoryMapping.tisortConfig
  /\ CategoryMapping.resolveInSpecOrder [u "Erkek Giyim"; u "Tişört"]
    = CategoryMapping.tisortConfig.
Proof.
  split; [vm_compute; reflexivity|].
  split; [exact erkek_differs_from_tisort|].
  vm_compute; reflexivity.
Qed.

(** ** Sizes *)

Section Sizes.

Lemma uniqueSizes_nil : uniqueSizes [] = [].
Proof. reflexivity. Qed.

Lemma nonEmpty_false {A : Type} (l : list A) : nonEmpty l = false -> l = [].
Proof. destruct l; [reflexivity | discriminate]. Qed.

(** The loop returns the post-processed sizes of the first selector for
    which they are not empty, whatever list of selectors it runs over. *)
Lemma scanSizes_find (doc : Doc) (selectors : list jsstring) :
  scanSizes doc selectors =
    match List.find (fun selector => nonEmpty (uniqueSizes (found doc selector)))
                    selectors with
    | Some selector => uniqueSizes (found doc selector)
    | None => []
    end.
Proof.
  induction selectors as [|selector rest IH]; simpl; [reflexivity|].
  destruct (nonEmpty (found doc selector)) eqn:Hfound.
  - destruct (nonEmpty (uniqueSizes (found doc selector))); [reflexivity | exact IH].
  - apply nonEmpty_false in Hfound. rewrite Hfound, uniqueSizes_nil. simpl. exact IH.
Qed.

Lemma found_ext (doc doc' : Doc) (selector : jsstring) :
  textsOf doc' selector = textsOf doc selector ->
  found doc' selector = found doc selector.
Proof. unfold found. intros ->. reflexivity. Qed.

(** Selectors after the one that wins are not consulted: two pages that
    answer alike up to and including it get the same sizes. *)
Lemma scanSizes_ignores_later (doc doc' : Doc) (before after : list jsstring)
    (winner : jsstring) :
  Forall (fun selector => textsOf doc' selector = textsOf doc selector)
         (before ++ [winner]) ->
  Forall (fun selector => uniqueSizes (found doc selector) = []) before ->
  uniqueSizes (found doc winner) <> [] ->
  scanSizes doc' (before ++ winner :: after) = uniqueSizes (found doc winner).
Proof.
  intros Hsame Hbefore Hwinner.
  rewrite scanSizes_find.
  induction before as [|b before IH]; simpl in *.
  - inversion Hsame as [|? ? Hw _]; subst.
    rewrite (found_ext _ _ _ Hw).
    destruct (uniqueSizes (found doc winner)) eqn:E; [congruence|].
    simpl. rewrite (found_ext _ _ _ Hw). exact E.
  - inversion Hsame as [|? ? Hb Hrest]; subst.
    inversion Hbefore as [|? ? Hb0 Hbefore']; subst.
    rewrite (found_ext _ _ _ Hb), Hb0. simpl.
    apply IH; assumption.
Qed.

(** The entries of the structured data are appended. *)
Lemma pushNew_appends (l : list jsstring) (o : option jsstring) :
  exists added, pushNew l o = l ++ added.
Proof.
  unfold pushNew. destruct o as [x|]; [|exists []; symmetry; apply app_nil_r].
  destruct (truthy x && negb (existsb (str_eqb x) l));
    [exists [x]; reflexivity | exists []; symmetry; apply app_nil_r].
Qed.

Lemma sizes_foldl_addVariant (l : list VariantEntry) (variants : VariantSet) :
  exists added, sizes (foldl addVariant variants l) = sizes variants ++ added.
Proof.
  revert variants. induction l as [|entry l IH]; intros variants; simpl.
  - exists []. symmetry. apply app_nil_r.
  - destruct (IH (addVariant variants entry)) as [added Hadded].
    destruct (pushNew_appends (sizes variants) (ve_size entry)) as [first Hfirst].
    exists (first ++ added). rewrite Hadded. simpl. rewrite Hfirst.
    symmetry. apply app_assoc.
Qed.

End Sizes.

(** C5 (as amended). For every page, the sizes taken from the CSS
    selectors are those of exactly one strategy: the first of the four, in
    their fixed order, whose texts are not empty after the composite tokens
    are dropped; they are empty when there is none. A strategy whose texts
    are all composite tokens is passed over. The selectors after the one
    used are not consulted: a page that answers alike up to and including
    it gets the same sizes. The entries of the structured data are appended
    to these sizes and replace none. *)
Theorem sizes_from_first_productive_strategy (doc : Doc) :
  scanSizes doc sizeSelectors =
    match List.find (fun selector => nonEmpty (uniqueSizes (found doc selector)))
                    sizeSelectors with
    | Some selector => uniqueSizes (found doc selector)
    | None => []
    end
  /\ (forall doc' before winner after,
        sizeSelectors = before ++ winner :: after ->
        Forall (fun selector => uniqueSizes (found doc selector) = []) before ->
        uniqueSizes (found doc winner) <> [] ->
        Forall (fun selector => textsOf doc' selector = textsOf doc selector)
               (before ++ [winner]) ->
        scanSizes doc sizeSelectors = uniqueSizes (found doc winner)
        /\ scanSizes doc' sizeSelectors = uniqueSizes (found doc winner))
  /\ (forall schema, exists added,
        sizes (scrapeVariants doc schema) = scanSizes doc sizeSelectors ++ added).
Proof.
  split; [apply scanSizes_find|]. split.
  - intros doc' before winner after -> Hbefore Hwinner Hsame. split.
    + apply scanSizes_ignores_later; [|assumption|assumption].
      apply Forall_forall. intros selector _. reflexivity.
    + apply scanSizes_ignores_later; assumption.
  - intros schema. unfold scrapeVariants.
    destruct (s_hasVariant schema) as [|l|];
      [exists []; simpl; symmetry; apply app_nil_r
      | apply sizes_foldl_addVariant
      | exists []; simpl; symmetry; apply app_nil_r].
Qed.

Lemma sizes_from_first_productive_strategy_witness :
  scanSizes Examples.compositeFirst sizeSelectors = [u "S"; u "M"]
  /\ scanSizes Examples.compositeFirstThenMore sizeSelectors = [u "S"; u "M"].
Proof.
  destruct (sizes_from_first_productive_strategy Examples.compositeFirst)
    as (_ & Hlater & _).
  apply (Hlater Examples.compositeFirstThenMore
           [u ".sp-itm:not(.so)"] (u ".variant-list-item:not(.disabled)")
           [u ".size-variant-wrapper:not(.disabled)"; u ".v2-size-value"]).
  - reflexivity.
  - repeat constructor.
  - vm_compute. discriminate.
  - repeat constructor.
Defined.

(** C5, as stated, fails: on a page whose first strategy yields the one
    text XSSMLXL and whose second yields S and M, the first strategy yields
    a non-empty text, and the sizes are those of the second. *)
Lemma sizes_first_yield_passed_over :
  found Examples.compositeFirst (u ".sp-itm:not(.so)") = [u "XSSMLXL"]
  /\ sizesOfFirstYield Examples.compositeFirst sizeSelectors = []
  /\ scanSizes Examples.compositeFirst sizeSelectors = [u "S"; u "M"]
  /\ scanSizes Examples.compositeFirst sizeSelectors
     <> sizesOfFirstYield Examples.compositeFirst sizeSelectors.
Proof.
  repeat split; try (vm_compute; reflexivity).
  vm_compute. discriminate.
Qed.

(** C6. The post-processing of the texts S, M, L, XSSMLXL drops the last
    one, which contains XS, S and M at once, removes nothing else, and
    leaves S, M, L in the canonical order. *)
Theorem size_pipeline_drops_composite_token :
  isComposite (u "XSSMLXL") = true
  /\ parseSizes [u "S"; u "M"; u "L"; u "XSSMLXL"] = [u "S"; u "M"; u "L"]
  /\ uniqueSizes [u "S"; u "M"; u "L"; u "XSSMLXL"] = [u "S"; u "M"; u "L"].
Proof. repeat split; vm_compute; reflexivity. Qed.

(** ** CSV export *)

Section CsvExport.

Import Shopify.

Lemma in_fromOne (n i : nat) : In i (fromOne n) <-> (1 <= i < n)%nat.
Proof. unfold fromOne. rewrite in_seq. lia. Qed.

Lemma in_colorRecords (product : Product) (row : Row) :
  In row (colorRecords product) <->
  exists i, (1 <= i < length (colors product))%nat /\ row = colorRecord product i.
Proof.
  unfold colorRecords. destruct (colors product) as [|c cs] eqn:E; simpl nonEmpty; cbv iota.
  - simpl. split; [tauto | intros [i [Hi _]]; lia].
  - rewrite in_map_iff. split.
    + intros [i [<- Hi]]. exists i. split; [apply in_fromOne; exact Hi | reflexivity].
    + intros [i [Hi ->]]. exists i. split; [reflexivity | apply in_fromOne; exact Hi].
Qed.

Lemma in_sizeRecords (product : Product) (row : Row) :
  In row (sizeRecords product) <->
  exists i, (1 <= i < length (sizes product))%nat /\ row = sizeRecord product i.
Proof.
  unfold sizeRecords. destruct (sizes product) as [|c cs] eqn:E; simpl nonEmpty; cbv iota.
  - simpl. split; [tauto | intros [i [Hi _]]; lia].
  - rewrite in_map_iff. split.
    + intros [i [<- Hi]]. exists i. split; [apply in_fromOne; exact Hi | reflexivity].
    + intros [i [Hi ->]]. exists i. split; [reflexivity | apply in_fromOne; exact Hi].
Qed.

(** [a || b] on optional texts, spelled out. *)
Lemma orElse_imageFor (images : list jsstring) (i : nat) :
  Routes.orElse (nth_error images i) (nth_error images 0) = imageFor images i.
Proof.
  unfold Routes.orElse, imageFor, truthyOpt, truthy.
  destruct (nth_error images i) as [[|c s]|]; reflexivity.
Qed.

Lemma orElse_first (l : list jsstring) :
  l <> [] -> Routes.orElse (nth_error l 0) (Some []) = nth_error l 0.
Proof.
  destruct l as [|[|c s] l]; [congruence | reflexivity | reflexivity].
Qed.

(** A size record has none of the image members. *)
Lemma sizeRecord_no_image (product : Product) (i : nat) (column : jsstring) :
  In column imageColumns ->
  get (sizeRecord product i) column = None /\ cell (sizeRecord product i) column = [].
Proof.
  unfold imageColumns, cell. simpl.
  intros [<-|[<-|[<-|[<-|[]]]]]; split; reflexivity.
Qed.

End CsvExport.

(** C7. A product with exactly two sizes, two colours and three images is
    exported as three records: the main record, the record of the second
    size and the record of the second colour, in that order; the CSV file
    has three lines below its header; and the Image Position of the colour
    record is the text 2. *)
Theorem export_two_sizes_two_colors_three_images (product : Shopify.Product) :
  length (Shopify.sizes product) = 2%nat ->
  length (Shopify.colors product) = 2%nat ->
  length (Shopify.images product) = 3%nat ->
  Shopify.records product =
    [Shopify.mainRecord product; Shopify.sizeRecord product 1;
     Shopify.colorRecord product 1]
  /\ length (Shopify.exportToShopify product) = 3%nat
  /\ Shopify.get (Shopify.colorRecord product 1) (u "Image Position") = Some (u "2")
  /\ Shopify.cell (Shopify.colorRecord product 1) (u "Image Position") = u "2".
Proof.
  intros Hs Hc _.
  assert (Hrecords : Shopify.records product =
    [Shopify.mainRecord product; Shopify.sizeRecord product 1;
     Shopify.colorRecord product 1]).
  { unfold Shopify.records, Shopify.sizeRecords, Shopify.colorRecords.
    destruct (Shopify.sizes product) as [|s0 [|s1 [|s2 ss]]]; try discriminate Hs.
    destruct (Shopify.colors product) as [|c0 [|c1 [|c2 cs]]]; try discriminate Hc.
    reflexivity. }
  split; [exact Hrecords|].
  split; [unfold Shopify.exportToShopify; rewrite length_map, Hrecords; reflexivity|].
  split; reflexivity.
Qed.

Lemma export_two_sizes_two_colors_three_images_witness :
  Shopify.records Examples.twoByTwo =
    [Shopify.mainRecord Examples.twoByTwo; Shopify.sizeRecord Examples.twoByTwo 1;
     Shopify.colorRecord Examples.twoByTwo 1]
  /\ length (Shopify.exportToShopify Examples.twoByTwo) = 3%nat
  /\ Shopify.get (Shopify.colorRecord Examples.twoByTwo 1) (u "Image Position")
     = Some (u "2")
  /\ Shopify.cell (Shopify.colorRecord Examples.twoByTwo 1) (u "Image Position")
     = u "2".
Proof.
  apply (export_two_sizes_two_colors_three_images Examples.twoByTwo); reflexivity.
Defined.

(** C10 (as amended). For every product with at least one size, each
    record pushed for a colour beyond the first carries the Option1 Name
    and Option1 Value of the main record, which are Size and the first
    size; its Option2 Value is that colour; its Image Src and its Variant
    Image are both the image at the colour's index when there is one and it
    is not the empty text, and the first image otherwise. A record pushed
    for a size beyond the first has none of the four image members, and
    they are printed empty. *)
Theorem extra_color_rows_pair_first_size (product : Shopify.Product)
    (row : Shopify.Row) :
  Shopify.sizes product <> [] ->
  In row (Shopify.colorRecords product) ->
  (exists i : nat,
     (1 <= i < length (Shopify.colors product))%nat
     /\ Shopify.get row (u "Option2 Value") = nth_error (Shopify.colors product) i
     /\ Shopify.get row (u "Image Src") = Shopify.imageFor (Shopify.images product) i
     /\ Shopify.get row (u "Variant Image")
        = Shopify.imageFor (Shopify.images product) i)
  /\ Shopify.get row (u "Option1 Name") = Some (u "Size")
  /\ Shopify.get row (u "Option1 Name")
     = Shopify.get (Shopify.mainRecord product) (u "Option1 Name")
  /\ Shopify.get row (u "Option1 Value") = nth_error (Shopify.sizes product) 0
  /\ Shopify.get row (u "Option1 Value")
     = Shopify.get (Shopify.mainRecord product) (u "Option1 Value")
  /\ (forall sizeRow column,
        In sizeRow (Shopify.sizeRecords product) ->
        In column Shopify.imageColumns ->
        Shopify.get sizeRow column = None /\ Shopify.cell sizeRow column = []).
Proof.
  intros Hsizes Hrow.
  apply in_colorRecords in Hrow as [i [Hi ->]].
  split.
  { exists i. split; [exact Hi|]. split; [reflexivity|].
    split; change (Routes.orElse (nth_error (Shopify.images product) i)
                     (nth_error (Shopify.images product) 0)
                   = Shopify.imageFor (Shopify.images product) i);
      apply orElse_imageFor. }
  assert (Hname : Shopify.get (Shopify.mainRecord product) (u "Option1 Name")
                  = Some (u "Size")).
  { change ((if Variants.nonEmpty (Shopify.sizes product)
             then Shopify.text "Size" else Some []) = Some (u "Size")).
    destruct (Shopify.sizes product); [congruence | reflexivity]. }
  assert (Hvalue : Shopify.get (Shopify.mainRecord product) (u "Option1 Value")
                   = nth_error (Shopify.sizes product) 0).
  { change (Routes.orElse (nth_error (Shopify.sizes product) 0) (Some [])
            = nth_error (Shopify.sizes product) 0).
    apply orElse_first. exact Hsizes. }
  split; [exact Hname|].
  split; [reflexivity|].
  split; [exact Hvalue|].
  split; [reflexivity|].
  intros sizeRow column HsizeRow Hcolumn.
  apply in_sizeRecords in HsizeRow as [j [_ ->]].
  apply sizeRecord_no_image. exact Hcolumn.
Qed.

Lemma extra_color_rows_pair_first_size_witness :
  (exists i : nat,
     (1 <= i < length (Shopify.colors Examples.twoByTwo))%nat
     /\ Shopify.get (Shopify.colorRecord Examples.twoByTwo 1) (u "Option2 Value")
        = nth_error (Shopify.colors Examples.twoByTwo) i
     /\ Shopify.get (Shopify.colorRecord Examples.twoByTwo 1) (u "Image Src")
        = Shopify.imageFor (Shopify.images Examples.twoByTwo) i
     /\ Shopify.get (Shopify.colorRecord Examples.twoByTwo 1) (u "Variant Image")
        = Shopify.imageFor (Shopify.images Examples.twoByTwo) i)
  /\ Shopify.get (Shopify.colorRecord Examples.twoByTwo 1) (u "Option1 Name")
     = Some (u "Size")
  /\ Shopify.get (Shopify.colorRecord Examples.twoByTwo 1) (u "Option1 Name")
     = Shopify.get (Shopify.mainRecord Examples.twoByTwo) (u "Option1 Name")
  /\ Shopify.get (Shopify.colorRecord Examples.twoByTwo 1) (u "Option1 Value")
     = nth_error (Shopify.sizes Examples.twoByTwo) 0
  /\ Shopify.get (Shopify.colorRecord Examples.twoByTwo 1) (u "Option1 Value")
     = Shopify.get (Shopify.mainRecord Examples.twoByTwo) (u "Option1 Value")
  /\ (forall sizeRow column,
        In sizeRow (Shopify.sizeRecords Examples.twoByTwo) ->
        In column Shopify.imageColumns ->
        Shopify.get sizeRow column = None /\ Shopify.cell sizeRow column = []).
Proof.
  apply (extra_color_rows_pair_first_size Examples.twoByTwo
           (Shopify.colorRecord Examples.twoByTwo 1)).
  - vm_compute. discriminate.
  - simpl. left. reflexivity.
Defined.

(** C10, as stated, fails: with the images a.jpg and the empty text, the
    index of the second colour is in range and holds the empty text, and
    the Image Src and Variant Image of its record are the first image. *)
Lemma empty_image_falls_back_to_first :
  Shopify.records Examples.emptySecondImage =
    [Shopify.mainRecord Examples.emptySecondImage;
     Shopify.colorRecord Examples.emptySecondImage 1]
  /\ nth_error (Shopify.images Examples.emptySecondImage) 1 = Some []
  /\ Shopify.get (Shopify.colorRecord Examples.emptySecondImage 1) (u "Image Src")
     = Some (u "https://cdn.example.com/a.jpg")
  /\ Shopify.get (Shopify.colorRecord Examples.emptySecondImage 1) (u "Variant Image")
     = Some (u "https://cdn.example.com/a.jpg")
  /\ Shopify.get (Shopify.colorRecord Examples.emptySecondImage 1) (u "Image Src")
     <> nth_error (Shopify.images Examples.emptySecondImage) 1.
Proof.
  repeat split; try (vm_compute; reflexivity).
  vm_compute. discriminate.
Qed.

(** ** Attributes *)

Section AttributeStrategies.

Lemma foldl_invariant {A B : Type} (P : A -> Prop) (f : A -> B -> A)
    (l : list B) (a : A) :
  P a -> (forall a x, P a -> In x l -> P (f a x)) -> P (foldl f a l).
Proof.
  revert a. induction l as [|x l IH]; intros a Ha Hstep; simpl; [exact Ha|].
  apply IH.
  - apply Hstep; [exact Ha | left; reflexivity].
  - intros a' y Ha' Hy. apply Hstep; [exact Ha' | right; exact Hy].
Qed.

Lemma allTruthy_empty : allTruthy ∅.
Proof. intros k v H. rewrite lookup_empty in H. discriminate. Qed.

Lemma allTruthy_assign attributes k v :
  allTruthy attributes -> truthy v = true -> allTruthy (assign attributes k v).
Proof.
  intros Hall Hv k' v'. unfold assign.
  destruct (str_eqb k (u "__proto__")); [apply Hall|].
  destruct (decide (k = k')) as [->|Hne].
  - rewrite lookup_insert_eq. intros [= <-]. exact Hv.
  - rewrite lookup_insert_ne by exact Hne. apply Hall.
Qed.

(** An assignment to another key leaves [k] alone. *)
Lemma bound_assign_other attributes k v k' v' :
  k' <> k -> truthy v' = true ->
  bound k v attributes -> bound k v (assign attributes k' v').
Proof.
  intros Hne Hv' [Hall Hk]. split; [apply allTruthy_assign; assumption|].
  unfold assign. destruct (str_eqb k' (u "__proto__")); [exact Hk|].
  rewrite lookup_insert_ne by exact Hne. exact Hk.
Qed.

Lemma bound_has attributes k v : bound k v attributes -> has attributes k = true.
Proof. intros [Hall Hk]. unfold has. rewrite Hk. eapply Hall. exact Hk. Qed.

(** The guard of the generic selectors keeps a bound key. *)
Lemma bound_addElement attributes k v element :
  bound k v attributes -> bound k v (addElement attributes element).
Proof.
  intros Hb. unfold addElement.
  destruct (labelValue element) as [[label|] [value|]]; try exact Hb.
  destruct (truthy label && truthy value && negb (has attributes label)) eqn:E;
    [|exact Hb].
  apply andb_true_iff in E as [E Hhas]. apply andb_true_iff in E as [_ Hvalue].
  apply bound_assign_other; [|exact Hvalue|exact Hb].
  intros ->. rewrite (bound_has _ _ _ Hb) in Hhas. discriminate.
Qed.

Lemma bound_fromSelectors doc attributes k v :
  bound k v attributes -> bound k v (fromSelectors doc attributes).
Proof.
  intros Hb. unfold fromSelectors.
  apply foldl_invariant; [exact Hb|]. intros a selector Ha _.
  apply foldl_invariant; [exact Ha|]. intros a' element Ha' _.
  apply bound_addElement. exact Ha'.
Qed.

(** The guard of the targeted lookups keeps a bound key. *)
Lemma bound_addSpecial doc attributes k v entry :
  bound k v attributes -> bound k v (addSpecial doc attributes entry).
Proof.
  intros Hb. destruct entry as [key alternatives]. unfold addSpecial.
  destruct (has attributes key) eqn:Hhas; [exact Hb|].
  assert (Hne : key <> k).
  { intros ->. rewrite (bound_has _ _ _ Hb) in Hhas. discriminate. }
  apply foldl_invariant; [exact Hb|]. intros a alt Ha _.
  apply foldl_invariant; [exact Ha|]. intros a' text Ha' _.
  unfold addSpecialValue. destruct (truthy (trim text)) eqn:Ht; [|exact Ha'].
  apply bound_assign_other; assumption.
Qed.

Lemma bound_fromSpecial doc attributes k v :
  bound k v attributes -> bound k v (fromSpecial doc attributes).
Proof.
  intros Hb. unfold fromSpecial.
  apply foldl_invariant; [exact Hb|]. intros a entry Ha _.
  apply bound_addSpecial. exact Ha.
Qed.

(** A pair assigned without a guard touches only its own label. *)
Lemma bound_addPair attributes k v row :
  trim (fst row) <> k -> bound k v attributes -> bound k v (addPair attributes row).
Proof.
  intros Hne Hb. unfold addPair.
  destruct (truthy (trim (fst row)) && truthy (trim (snd row))) eqn:E; [|exact Hb].
  apply andb_true_iff in E as [_ Hvalue].
  apply bound_assign_other; assumption.
Qed.

Lemma bound_fromGroups doc attributes k v :
  noGroupLabel doc k -> bound k v attributes -> bound k v (fromGroups doc attributes).
Proof.
  intros Hno Hb. unfold fromGroups, noGroupLabel in *.
  apply foldl_invariant; [exact Hb|]. intros a items Ha Hitems.
  rewrite Forall_forall in Hno. specialize (Hno items).
  apply foldl_invariant; [exact Ha|]. intros a' item Ha' Hitem.
  apply bound_addPair; [|exact Ha'].
  assert (Hall : Forall (fun item => trim (fst item) <> k) items).
  { apply Hno. apply list_elem_of_In. exact Hitems. }
  rewrite Forall_forall in Hall. apply Hall. apply list_elem_of_In. exact Hitem.
Qed.

(** The maps the unguarded strategies build hold non-empty texts only. *)
Lemma allTruthy_addPair attributes row :
  allTruthy attributes -> allTruthy (addPair attributes row).
Proof.
  intros Hall. unfold addPair.
  destruct (truthy (trim (fst row)) && truthy (trim (snd row))) eqn:E; [|exact Hall].
  apply andb_true_iff in E as [_ Hvalue]. apply allTruthy_assign; assumption.
Qed.

Lemma allTruthy_fromSchema doc attributes :
  allTruthy attributes -> allTruthy (fromSchema doc attributes).
Proof.
  intros Hall. unfold fromSchema.
  apply foldl_invariant; [exact Hall|]. intros a script Ha _.
  unfold addScript. destruct script as [| |[| |schema]]; try exact Ha.
  destruct (s_additionalProperty schema) as [props|]; [|exact Ha].
  apply foldl_invariant; [exact Ha|]. intros a' prop Ha' _.
  unfold addProperty.
  destruct (ap_name prop) as [name|], (ap_unitText prop) as [unitText|];
    try exact Ha'.
  destruct (truthy name && truthy unitText) eqn:E; [|exact Ha'].
  apply andb_true_iff in E as [_ Hvalue]. apply allTruthy_assign; assumption.
Qed.

Lemma allTruthy_fromContainers doc attributes :
  allTruthy attributes -> allTruthy (fromContainers doc attributes).
Proof.
  intros Hall. unfold fromContainers.
  apply foldl_invariant; [exact Hall|]. intros a rows Ha _.
  apply foldl_invariant; [exact Ha|]. intros a' row Ha' _.
  apply allTruthy_addPair. exact Ha'.
Qed.

Lemma allTruthy_afterContainers doc : allTruthy (afterContainers doc).
Proof.
  apply allTruthy_fromContainers, allTruthy_fromSchema, allTruthy_empty.
Qed.

Lemma allTruthy_afterSelectors doc : allTruthy (afterSelectors doc).
Proof.
  unfold afterSelectors, fromSelectors.
  apply foldl_invariant; [apply allTruthy_afterContainers|]. intros a selector Ha _.
  apply foldl_invariant; [exact Ha|]. intros a' element Ha' _.
  unfold addElement.
  destruct (labelValue element) as [[label|] [value|]]; try exact Ha'.
  destruct (truthy label && truthy value && negb (has a' label)) eqn:E;
    [|exact Ha'].
  apply andb_true_iff in E as [E _]. apply andb_true_iff in E as [_ Hvalue].
  apply allTruthy_assign; assumption.
Qed.

End AttributeStrategies.

(** C2 (as amended). For every page and every key: a value the key has
    when the generic selector patterns start, or when the targeted
    canonical-name lookups start, is the value it has when they end; and
    the grouped-attributes pattern leaves it too, unless one of the items
    of a group carries that key as its label. *)
Theorem guarded_strategies_keep_bound_values (doc : Doc) (k v : jsstring) :
  afterContainers doc !! k = Some v \/ afterSelectors doc !! k = Some v ->
  afterSelectors doc !! k = Some v
  /\ afterSpecial doc !! k = Some v
  /\ (noGroupLabel doc k -> scrapeProductAttributes doc !! k = Some v).
Proof.
  intros H.
  assert (H3 : bound k v (afterSelectors doc)).
  { destruct H as [H2|H3].
    - apply bound_fromSelectors. split; [apply allTruthy_afterContainers | exact H2].
    - split; [apply allTruthy_afterSelectors | exact H3]. }
  assert (H4 : bound k v (afterSpecial doc)) by (apply bound_fromSpecial; exact H3).
  split; [exact (proj2 H3)|].
  split; [exact (proj2 H4)|].
  intros Hno. exact (proj2 (bound_fromGroups doc _ k v Hno H4)).
Qed.

Lemma guarded_strategies_keep_bound_values_witness :
  afterSelectors Examples.twiceNamed !! u "Renk" = Some (u "Kırmızı")
  /\ afterSpecial Examples.twiceNamed !! u "Renk" = Some (u "Kırmızı")
  /\ scrapeProductAttributes Examples.twiceNamed !! u "Renk" = Some (u "Kırmızı").
Proof.
  destruct (guarded_strategies_keep_bound_values Examples.twiceNamed
              (u "Renk") (u "Kırmızı")) as (H3 & H4 & H5).
  - left. vm_compute. reflexivity.
  - split; [exact H3|]. split; [exact H4|].
    apply H5. repeat constructor. vm_compute. discriminate.
Defined.

(** C2, as stated, fails: on a page whose JSON-LD block binds Renk to Mavi
    and whose attribute table has a row Renk / Kırmızı, the table row
    replaces the value; and the value Pamuk that a generic selector binds
    to Kumaş is replaced by the Polyester of a grouped item. *)
Lemma later_strategies_overwrite :
  fromSchema Examples.twiceNamed ∅ !! u "Renk" = Some (u "Mavi")
  /\ scrapeProductAttributes Examples.twiceNamed !! u "Renk" = Some (u "Kırmızı")
  /\ afterSelectors Examples.twiceNamed !! u "Kumaş" = Some (u "Pamuk")
  /\ scrapeProductAttributes Examples.twiceNamed !! u "Kumaş" = Some (u "Polyester").
Proof. repeat split; vm_compute; reflexivity. Qed.

(** ** Price *)

Section PriceFacts.

Local Open Scope Z_scope.

(** [centsOf] picks a nearest integer, the larger at a tie. *)
Lemma centsOf_nearest (m : positive) (e : Z) : nearestCents m e (centsOf m e).
Proof.
  unfold nearestCents, centsOf.
  destruct (0 <=? e) eqn:He; [reflexivity|].
  assert (HD : 0 < 2 ^ (- e)) by (apply Z.pow_pos_nonneg; lia).
  set (D := 2 ^ (- e)) in *.
  pose proof (Z.div_mod (200 * Zpos m + D) (2 * D) ltac:(lia)) as Hdm.
  pose proof (Z.mod_pos_bound (200 * Zpos m + D) (2 * D) ltac:(lia)) as Hr.
  set (n := (200 * Zpos m + D) / (2 * D)) in *.
  set (r := (200 * Zpos m + D) mod (2 * D)) in *.
  split; nia.
Qed.

Variable shortestDecimal : float -> jsstring.

(** Whichever strategy answers, the price is computed from the base price
    it returns. *)
Lemma scrapePrice_ok (doc : Doc) (r : Price.PriceResult) :
  Price.scrapePrice shortestDecimal doc = Ok r ->
  Price.price r = Price.withMargin shortestDecimal (Price.basePrice r).
Proof.
  unfold Price.scrapePrice, Price.priceFromDom, Price.priced.
  intros H.
  repeat match type of H with
         | Ok _ = Ok _ => injection H as <-; reflexivity
         | Throw _ = Ok _ => discriminate H
         | context [match ?x with _ => _ end] => destruct x
         end.
Qed.

(** [toFixed(2)] of a finite value below 10^21. *)
Lemma toFixed2_finite (x : float) (s : bool) (m : positive) (e : Z) :
  Prim2SF x = S754_finite s m e -> atLeast1e21 m e = false ->
  toFixed2 shortestDecimal x = signText s ++ fixed2 (centsOf m e).
Proof. intros Hx Hsmall. unfold toFixed2. rewrite Hx, Hsmall. reflexivity. Qed.

End PriceFacts.

(** C8 (as amended). Whichever strategy yields the base price, the
    derived price is [toFixed(2)] of the binary64 product of
    [parseFloat(basePrice)] and the literal 1.15: when that product is
    finite and below 10^21, the price is its sign and the digits of the
    whole number of hundredths nearest to it, the larger at a tie; when
    the base price does not start with a number, the price is the text
    NaN. For a structured-data base price of 100, given as a number or as
    a text, the base price is the text 100 and the derived price is
    exactly 115.00. *)
Theorem derived_price_of_scraped_base_price
    (shortestDecimal : float -> jsstring) (doc : Doc) (r : Price.PriceResult) :
  Price.scrapePrice shortestDecimal doc = Ok r ->
  Price.price r
    = toFixed2 shortestDecimal
        (PrimFloat.mul (parseFloat (Price.basePrice r)) Price.markup)
  /\ (forall s m e,
        Prim2SF (PrimFloat.mul (parseFloat (Price.basePrice r)) Price.markup)
          = S754_finite s m e ->
        atLeast1e21 m e = false ->
        Price.price r = signText s ++ fixed2 (centsOf m e)
        /\ nearestCents m e (centsOf m e))
  /\ (parseFloat (Price.basePrice r) = PrimFloat.nan -> Price.price r = u "NaN")
  /\ (forall p, p = PriceNumber 100%float \/ p = PriceText (u "100") ->
        Price.scrapePrice shortestDecimal (Examples.offeredAt p)
          = Ok {| Price.price := u "115.00"; Price.basePrice := u "100" |}).
Proof.
  intros H. apply scrapePrice_ok in H.
  split; [exact H|]. split; [|split].
  - intros s m e Hx Hsmall. split; [|apply centsOf_nearest].
    rewrite H. apply toFixed2_finite; assumption.
  - intros Hnan. rewrite H. unfold Price.withMargin. rewrite Hnan.
    vm_compute. reflexivity.
  - intros p [->| ->]; vm_compute; reflexivity.
Qed.

Lemma derived_price_of_scraped_base_price_witness :
  u "115.00"
    = toFixed2 Examples.noDigits (PrimFloat.mul (parseFloat (u "100")) Price.markup)
  /\ (forall s m e,
        Prim2SF (PrimFloat.mul (parseFloat (u "100")) Price.markup)
          = S754_finite s m e ->
        atLeast1e21 m e = false ->
        u "115.00" = signText s ++ fixed2 (centsOf m e)
        /\ nearestCents m e (centsOf m e))
  /\ (parseFloat (u "100") = PrimFloat.nan -> u "115.00" = u "NaN")
  /\ (forall p, p = PriceNumber 100%float \/ p = PriceText (u "100") ->
        Price.scrapePrice Examples.noDigits (Examples.offeredAt p)
          = Ok {| Price.price := u "115.00"; Price.basePrice := u "100" |}).
Proof.
  apply (derived_price_of_scraped_base_price Examples.noDigits
           (Examples.offeredAt (PriceNumber 100%float))
           {| Price.price := u "115.00"; Price.basePrice := u "100" |}).
  vm_compute. reflexivity.
Defined.

(** C8, as stated, fails: for the base price 10.10 the derived price is
    11.61, while 10.10 times 1.15 is 11.615, which rounds to 11.62 whether
    a tie goes up or to the even hundredth; and for a base price text that
    does not start with a number the derived price is the text NaN. *)
Lemma price_of_10_10_is_a_cent_short :
  Price.scrapePrice Examples.noDigits (Examples.offeredAt (PriceText (u "10.10")))
    = Ok {| Price.price := u "11.61"; Price.basePrice := u "10.10" |}
  /\ Price.exactWithMargin 1010 = u "11.62"
  /\ Price.exactWithMarginHalfEven 1010 = u "11.62"
  /\ Price.scrapePrice Examples.noDigits (Examples.offeredAt (PriceText (u "yok")))
    = Ok {| Price.price := u "NaN"; Price.basePrice := u "yok" |}.
Proof. repeat split; vm_compute; reflexivity. Qed.

(** C4. On every page where no strategy yields a price, [scrapePrice]
    throws a plain [Error], which is not a [TrendyolScrapingError];
    [handleError] answers it with the reply for an unexpected error, status
    500 and no details, and not with the reply for a scraping error; and
    that is the reply of the scrape handler for such a page once its
    JSON-LD block has been accepted, with nothing saved. *)
Theorem missing_price_throws_plain_error
    (shortestDecimal : float -> jsstring) (doc : Doc) :
  Price.noPriceAnywhere doc ->
  Price.scrapePrice shortestDecimal doc
    = Throw (PlainError (u "Fiyat bilgisi bulunamadı"))
  /\ isScrapingError (PlainError (u "Fiyat bilgisi bulunamadı")) = false
  /\ handleError (PlainError (u "Fiyat bilgisi bulunamadı")) = unexpectedReply
  /\ (forall d, handleError (PlainError (u "Fiyat bilgisi bulunamadı"))
                <> handleError (TrendyolScrapingError (u "Fiyat bilgisi bulunamadı") d))
  /\ (forall categoriesOf storage url response schema,
        Routes.ok response = true ->
        Routes.page response = doc ->
        Routes.productSchema doc = Ok schema ->
        Routes.scrapeFinish shortestDecimal categoriesOf storage url
          (Routes.Resolved response)
        = (storage, Routes.Failed unexpectedReply)).
Proof.
  intros (Hschema & Hprice & Halt).
  assert (Hthrow : Price.scrapePrice shortestDecimal doc
                   = Throw (PlainError (u "Fiyat bilgisi bulunamadı"))).
  { unfold Price.scrapePrice, Price.priceFromDom, Price.noSchemaPrice in *.
    rewrite Hprice, Halt.
    destruct (ldJson doc) as [|[| |[| |schema]] rest]; try reflexivity;
      try contradiction.
    destruct (s_offers_price schema) as [p|]; [rewrite Hschema|]; reflexivity. }
  split; [exact Hthrow|]. split; [reflexivity|]. split; [reflexivity|]. split.
  - intros d H. apply (f_equal message) in H. vm_compute in H. discriminate H.
  - intros categoriesOf storage url response schema Hok Hpage Hproduct.
    unfold Routes.scrapeFinish, Routes.assemble.
    rewrite Hok, Hpage, Hproduct. simpl. rewrite Hthrow. reflexivity.
Qed.

Lemma missing_price_throws_plain_error_witness :
  Price.scrapePrice Examples.noDigits Examples.unpriced
    = Throw (PlainError (u "Fiyat bilgisi bulunamadı"))
  /\ Routes.scrapeFinish Examples.noDigits Examples.oneCategory Storage.empty
       Examples.productUrl (Routes.Resolved Examples.unpricedResponse)
     = (Storage.empty, Routes.Failed unexpectedReply)
  /\ status unexpectedReply = 500%Z.
Proof.
  destruct (missing_price_throws_plain_error Examples.noDigits Examples.unpriced)
    as (Hthrow & _ & _ & _ & Hhandler).
  - repeat split.
  - split; [exact Hthrow|]. split; [|reflexivity].
    apply (Hhandler Examples.oneCategory Storage.empty Examples.productUrl
             Examples.unpricedResponse Examples.bareSchema); reflexivity.
Defined.

(** ** The scrape handler and its cache *)

Section ServerFacts.

Import UrlSchema Storage Routes.

Variable parseURL : jsstring -> option URLRecord.
Variable shortestDecimal : float -> jsstring.
Variable categoriesOf : Doc -> list jsstring.

Lemma parse_ok (body : Body) (url : jsstring) :
  parse parseURL body = Ok url ->
  body = WithUrl url /\ isProductUrl parseURL url = true.
Proof.
  destruct body as [|url']; simpl; [discriminate|].
  destruct (isProductUrl parseURL url') eqn:E; [|discriminate].
  intros [= <-]. split; [reflexivity | exact E].
Qed.

(** What [urlSchema.parse] throws is none of the classes [handleError]
    knows. *)
Lemma parse_throw (body : Body) (e : JsError) :
  parse parseURL body = Throw e -> handleError e = unexpectedReply.
Proof.
  destruct body as [|url']; simpl.
  - intros [= <-]. reflexivity.
  - destruct (isProductUrl parseURL url'); [discriminate|].
    intros [= <-]. reflexivity.
Qed.

(** The record handed to [saveProduct] carries the URL of the request. *)
Lemma assemble_url (url : jsstring) (result : FetchResult) (product : InsertProduct) :
  assemble shortestDecimal categoriesOf url result = Ok product ->
  Storage.url product = url.
Proof.
  unfold assemble, mbind, result_bind. intros H.
  repeat match type of H with
         | Ok _ = Ok _ => injection H as <-; reflexivity
         | Throw _ = Ok _ => discriminate H
         | context [match ?x with _ => _ end] => destruct x
         end.
Qed.

Lemma step_validInFlight (s s' : Server) (e : Event) (eff : Effect) :
  validInFlight parseURL s ->
  step parseURL shortestDecimal categoriesOf s e = (s', eff) ->
  validInFlight parseURL s'.
Proof.
  unfold validInFlight. intros Hvalid Hstep. destruct e as [body|k result]; simpl in Hstep.
  - unfold scrapeStart in Hstep.
    destruct (parse parseURL body) as [url|err] eqn:Hparse.
    + destruct (getProduct (storage s) url).
      * injection Hstep as <- _. exact Hvalid.
      * injection Hstep as <- _. simpl. apply Forall_app. split; [exact Hvalid|].
        constructor; [|constructor]. apply parse_ok in Hparse. tauto.
    + injection Hstep as <- _. exact Hvalid.
  - destruct (inFlight s !! k) as [url|].
    + destruct (scrapeFinish shortestDecimal categoriesOf (storage s) url result).
      injection Hstep as <- _. simpl. apply Forall_delete. exact Hvalid.
    + injection Hstep as <- _. exact Hvalid.
Qed.

Lemma run_validInFlight (events : list Event) (s s' : Server) (effs : list Effect) :
  validInFlight parseURL s ->
  run parseURL shortestDecimal categoriesOf s events = (s', effs) ->
  validInFlight parseURL s'.
Proof.
  revert s effs. induction events as [|e events IH]; intros s effs Hvalid Hrun; simpl in Hrun.
  - injection Hrun as <- _. exact Hvalid.
  - destruct (step parseURL shortestDecimal categoriesOf s e) as [s1 eff] eqn:Hstep.
    destruct (run parseURL shortestDecimal categoriesOf s1 events) as [s2 effs2] eqn:Hrest.
    injection Hrun as <- _.
    eapply IH; [|exact Hrest]. eapply step_validInFlight; eassumption.
Qed.

(** Once [url] is cached and no scrape of it is in flight, an event leaves
    it so, fetches another URL if any, and a request for [url] is answered
    with the cached product. *)
Lemma step_settled (url : jsstring) (p : Product) (s s' : Server)
    (e : Event) (eff : Effect) :
  isProductUrl parseURL url = true ->
  settled url p s ->
  step parseURL shortestDecimal categoriesOf s e = (s', eff) ->
  settled url p s'
  /\ fetched eff <> Some url
  /\ (e = Arrive (WithUrl url) -> reply eff = Some (Sent p) /\ fetched eff = None).
Proof.
  intros Hurl [Hcached Hquiet] Hstep.
  destruct e as [body|k result]; simpl in Hstep.
  - unfold scrapeStart in Hstep.
    destruct (parse parseURL body) as [url'|err] eqn:Hparse.
    + destruct (parse_ok _ _ Hparse) as [Hbody _]. subst body.
      destruct (getProduct (storage s) url') as [existing|] eqn:Hget.
      * injection Hstep as <- <-. simpl.
        split; [split; assumption|]. split; [discriminate|].
        intros [= ->]. unfold getProduct in Hget.
        rewrite Hcached in Hget. injection Hget as <-. split; reflexivity.
      * assert (Hne : url' <> url).
        { intros ->. unfold getProduct in Hget. congruence. }
        injection Hstep as <- <-. simpl.
        split; [split; [exact Hcached|]|].
        { intros Hin. apply elem_of_app in Hin as [Hin|Hin]; [exact (Hquiet Hin)|].
          apply list_elem_of_singleton in Hin. congruence. }
        split; [congruence|]. intros [= ->]. congruence.
    + injection Hstep as <- <-. simpl.
      split; [split; assumption|]. split; [discriminate|].
      intros [= ->]. simpl in Hparse. rewrite Hurl in Hparse. discriminate.
  - destruct (inFlight s !! k) as [url'|] eqn:Hk.
    + assert (Hne : url' <> url).
      { intros ->. apply Hquiet. eapply list_elem_of_lookup_2. exact Hk. }
      unfold scrapeFinish in Hstep.
      destruct (assemble shortestDecimal categoriesOf url' result) as [product|err] eqn:Ha.
      * apply assemble_url in Ha. simpl in Hstep. injection Hstep as <- <-.
        unfold settled. simpl.
        split; [split|].
        { rewrite Ha, lookup_insert_ne by exact Hne. exact Hcached. }
        { intros Hin. apply Hquiet. eapply list_elem_of_delete_inv. exact Hin. }
        split; [discriminate | discriminate].
      * injection Hstep as <- <-. unfold settled. simpl.
        split; [split; [exact Hcached|]|].
        { intros Hin. apply Hquiet. eapply list_elem_of_delete_inv. exact Hin. }
        split; [discriminate | discriminate].
    + injection Hstep as <- <-. simpl.
      split; [split; assumption|]. split; [discriminate | discriminate].
Qed.

Lemma run_settled (url : jsstring) (p : Product) (events : list Event)
    (s s' : Server) (effs : list Effect) :
  isProductUrl parseURL url = true ->
  settled url p s ->
  run parseURL shortestDecimal categoriesOf s events = (s', effs) ->
  settled url p s'
  /\ Forall (fun eff => fetched eff <> Some url) effs
  /\ (forall i, events !! i = Some (Arrive (WithUrl url)) ->
        exists eff, effs !! i = Some eff
                    /\ reply eff = Some (Sent p) /\ fetched eff = None).
Proof.
  intros Hurl. revert s effs.
  induction events as [|e events IH]; intros s effs Hs Hrun; simpl in Hrun.
  - injection Hrun as <- <-. split; [exact Hs|]. split; [constructor|].
    intros i Hi. rewrite lookup_nil in Hi. discriminate.
  - destruct (step parseURL shortestDecimal categoriesOf s e) as [s1 eff] eqn:Hstep.
    destruct (run parseURL shortestDecimal categoriesOf s1 events) as [s2 effs2] eqn:Hrest.
    injection Hrun as <- <-.
    destruct (step_settled url p s s1 e eff Hurl Hs Hstep) as (Hs1 & Hfetch & Hreply).
    destruct (IH s1 effs2 Hs1 Hrest) as (Hs2 & Hfetches & Hreplies).
    split; [exact Hs2|]. split; [constructor; assumption|].
    intros [|i] Hi; simpl in Hi.
    + injection Hi as ->. exists eff. split; [reflexivity|]. apply Hreply. reflexivity.
    + apply Hreplies. exact Hi.
Qed.

(** A scrape that ends by sending a product leaves it cached under its
    URL; the URL is settled if no other scrape of it is in flight. *)
Lemma settle_sent (s s1 : Server) (k : nat) (result : FetchResult)
    (url : jsstring) (p : Product) (eff : Effect) :
  inFlight s !! k = Some url ->
  url ∉ delete k (inFlight s) ->
  step parseURL shortestDecimal categoriesOf s (Settle k result) = (s1, eff) ->
  reply eff = Some (Sent p) ->
  settled url p s1.
Proof.
  intros Hk Hothers Hstep Hreply. simpl in Hstep. rewrite Hk in Hstep.
  unfold scrapeFinish in Hstep.
  destruct (assemble shortestDecimal categoriesOf url result) as [product|err] eqn:Ha.
  - apply assemble_url in Ha. simpl in Hstep. injection Hstep as <- <-.
    simpl in Hreply. injection Hreply as <-.
    unfold settled. simpl. split; [|exact Hothers]. rewrite Ha. apply lookup_insert_eq.
  - injection Hstep as <- <-. simpl in Hreply. discriminate.
Qed.

End ServerFacts.

Section UrlFacts.

Lemma str_eqb_eq (a b : jsstring) : str_eqb a b = true <-> a = b.
Proof.
  revert b. induction a as [|x a IH]; intros [|y b]; simpl;
    try (split; [discriminate | congruence]); [tauto|].
  rewrite andb_true_iff, N.eqb_eq, IH. split; [intros [-> ->]; reflexivity|].
  intros [= -> ->]. tauto.
Qed.

Lemma notProductUrl_refused (parseURL : jsstring -> option UrlSchema.URLRecord)
    (url : jsstring) :
  UrlSchema.notProductUrl parseURL url ->
  UrlSchema.isProductUrl parseURL url = false.
Proof.
  unfold UrlSchema.notProductUrl, UrlSchema.isProductUrl.
  destruct (parseURL url) as [parsedUrl|]; [|reflexivity].
  intros [Hhost|[Hp1 Hp2]].
  - destruct (str_eqb (UrlSchema.hostname parsedUrl) (u "www.trendyol.com")) eqn:E;
      [|reflexivity].
    apply str_eqb_eq in E. contradiction.
  - rewrite Hp1, Hp2. apply andb_false_r.
Qed.

End UrlFacts.

(** C3. A request whose [url] is missing, does not parse, names another
    host than www.trendyol.com or has a path with neither "/p-" nor "-p-"
    is refused before the cache is read or written and before anything is
    fetched; the refusal is a [ZodError], which [handleError] answers with
    status 500 and the message of an unexpected error, not with the status
    400 it has for a [URLValidationError]. *)
Theorem rejected_url_answered_as_unexpected_error
    (parseURL : jsstring -> option UrlSchema.URLRecord)
    (shortestDecimal : float -> jsstring) (categoriesOf : Doc -> list jsstring)
    (net : jsstring -> Routes.FetchResult) (storage : Storage.MemStorage)
    (body : UrlSchema.Body) :
  (forall url, body = UrlSchema.WithUrl url -> UrlSchema.notProductUrl parseURL url) ->
  Routes.scrape parseURL shortestDecimal categoriesOf net storage body
    = (storage, Routes.Failed unexpectedReply, [])
  /\ status unexpectedReply = 500%Z
  /\ (forall msg, status (handleError (URLValidationError msg)) = 400%Z)
  /\ (forall s, Routes.step parseURL shortestDecimal categoriesOf s (Routes.Arrive body)
                = (s, {| Routes.reply := Some (Routes.Failed unexpectedReply);
                         Routes.fetched := None |})).
Proof.
  intros Hbad.
  assert (Hstart : forall st, Routes.scrapeStart parseURL st body
                              = Routes.Replied (Routes.Failed unexpectedReply)).
  { intros st. unfold Routes.scrapeStart.
    destruct (UrlSchema.parse parseURL body) as [url|err] eqn:Hparse.
    - apply parse_ok in Hparse as [Hbody Hok].
      rewrite (notProductUrl_refused _ _ (Hbad url Hbody)) in Hok. discriminate.
    - rewrite (parse_throw _ _ _ Hparse). reflexivity. }
  split; [unfold Routes.scrape; rewrite Hstart; reflexivity|].
  split; [reflexivity|]. split; [reflexivity|].
  intros s. simpl. rewrite Hstart. reflexivity.
Qed.

Lemma rejected_url_answered_as_unexpected_error_witness :
  Routes.scrape Examples.parseHttpUrl Examples.noDigits Examples.oneCategory
      (fun _ => Examples.pageAt100) Storage.empty
      (UrlSchema.WithUrl Examples.foreignUrl)
    = (Storage.empty, Routes.Failed unexpectedReply, [])
  /\ status unexpectedReply = 500%Z
  /\ (forall msg, status (handleError (URLValidationError msg)) = 400%Z)
  /\ (forall s, Routes.step Examples.parseHttpUrl Examples.noDigits
                  Examples.oneCategory s
                  (Routes.Arrive (UrlSchema.WithUrl Examples.foreignUrl))
                = (s, {| Routes.reply := Some (Routes.Failed unexpectedReply);
                         Routes.fetched := None |})).
Proof.
  apply (rejected_url_answered_as_unexpected_error Examples.parseHttpUrl
           Examples.noDigits Examples.oneCategory (fun _ => Examples.pageAt100)
           Storage.empty (UrlSchema.WithUrl Examples.foreignUrl)).
  intros url [= <-]. left. vm_compute. discriminate.
Defined.

(** C9 (as amended). Take any history of the server from its start, and a
    scrape of a URL that ends by sending a product while no other scrape of
    that URL is in flight. From then on, whatever requests arrive and
    whatever fetches settle, the cache holds that product under the URL,
    the URL is not fetched again, and every request for it is answered
    with that same product, its id included, without a fetch. *)
Theorem repeated_scrape_served_from_cache
    (parseURL : jsstring -> option UrlSchema.URLRecord)
    (shortestDecimal : float -> jsstring) (categoriesOf : Doc -> list jsstring)
    (history later : list Routes.Event) (s s1 s2 : Routes.Server)
    (past effs : list Routes.Effect) (eff : Routes.Effect)
    (k : nat) (result : Routes.FetchResult)
    (url : jsstring) (p : Storage.Product) :
  Routes.run parseURL shortestDecimal categoriesOf Routes.initial history = (s, past) ->
  Routes.inFlight s !! k = Some url ->
  url ∉ delete k (Routes.inFlight s) ->
  Routes.step parseURL shortestDecimal categoriesOf s (Routes.Settle k result) = (s1, eff) ->
  Routes.reply eff = Some (Routes.Sent p) ->
  Routes.run parseURL shortestDecimal categoriesOf s1 later = (s2, effs) ->
  Storage.getProduct (Routes.storage s2) url = Some p
  /\ Forall (fun e => Routes.fetched e <> Some url) effs
  /\ (forall i, later !! i = Some (Routes.Arrive (UrlSchema.WithUrl url)) ->
        exists e, effs !! i = Some e
                  /\ Routes.reply e = Some (Routes.Sent p)
                  /\ Routes.fetched e = None).
Proof.
  intros Hhistory Hk Hothers Hstep Hreply Hlater.
  assert (Hvalid : Routes.validInFlight parseURL s).
  { eapply run_validInFlight; [|exact Hhistory]. constructor. }
  assert (Hurl : UrlSchema.isProductUrl parseURL url = true).
  { unfold Routes.validInFlight in Hvalid. rewrite Forall_lookup in Hvalid.
    exact (Hvalid k url Hk). }
  pose proof (settle_sent _ _ _ _ _ _ _ _ _ _ Hk Hothers Hstep Hreply) as Hsettled.
  destruct (run_settled _ _ _ _ _ _ _ _ _ Hurl Hsettled Hlater) as ([Hcached _] & Hfetch & Hanswers).
  split; [exact Hcached|]. split; [exact Hfetch | exact Hanswers].
Qed.

Lemma repeated_scrape_served_from_cache_witness :
  Storage.getProduct (Routes.storage Examples.afterFirst) Examples.productUrl
    = Some Examples.firstSaved
  /\ Forall (fun e => Routes.fetched e <> Some Examples.productUrl)
       [Examples.servedFromCache; Examples.servedFromCache]
  /\ (forall i,
        [Routes.Arrive (UrlSchema.WithUrl Examples.productUrl);
         Routes.Arrive (UrlSchema.WithUrl Examples.productUrl)] !! i
          = Some (Routes.Arrive (UrlSchema.WithUrl Examples.productUrl)) ->
        exists e, [Examples.servedFromCache; Examples.servedFromCache] !! i = Some e
                  /\ Routes.reply e = Some (Routes.Sent Examples.firstSaved)
                  /\ Routes.fetched e = None).
Proof.
  apply (repeated_scrape_served_from_cache Examples.parseHttpUrl Examples.noDigits
           Examples.oneCategory
           [Routes.Arrive (UrlSchema.WithUrl Examples.productUrl)]
           [Routes.Arrive (UrlSchema.WithUrl Examples.productUrl);
            Routes.Arrive (UrlSchema.WithUrl Examples.productUrl)]
           Examples.awaitingFirst Examples.afterFirst Examples.afterFirst
           [{| Routes.reply := None; Routes.fetched := Some Examples.productUrl |}]
           [Examples.servedFromCache; Examples.servedFromCache]
           Examples.servedFromCache 0 Examples.pageAt100
           Examples.productUrl Examples.firstSaved).
  - vm_compute. reflexivity.
  - reflexivity.
  - simpl. apply not_elem_of_nil.
  - vm_compute. reflexivity.
  - reflexivity.
  - vm_compute. reflexivity.
Defined.

(** C9, as stated, fails when requests overlap: two requests for one URL
    that arrive before the first fetch settles are both fetched and both
    saved, the second under a new id in place of the first, and a third
    request is answered with the second product, not the first. *)
Lemma overlapping_scrapes_fetch_and_save_twice :
  map Routes.fetched
      (snd (Routes.run Examples.parseHttpUrl Examples.noDigits Examples.oneCategory
              Routes.initial Examples.overlapping))
    = [Some Examples.productUrl; Some Examples.productUrl; None; None; None]
  /\ map (fun e => Routes.sentId (Routes.reply e))
       (snd (Routes.run Examples.parseHttpUrl Examples.noDigits Examples.oneCategory
               Routes.initial Examples.overlapping))
    = [None; None; Some 1; Some 2; Some 2].
Proof. split; vm_compute; reflexivity. Qed.

(* ===================================================================== *)
(** * Further properties of the code *)
(* ===================================================================== *)

(** ** Categories of a page *)

Arguments u : simpl never.

Section CategoryExtraction.

Import Categories Shape.

Lemma allNamed_orIfEmpty (a b : list jsstring) :
  allNamed a -> allNamed b -> allNamed (orIfEmpty a b).
Proof. unfold orIfEmpty. destruct (nonEmpty a); tauto. Qed.

Lemma allNamed_breadcrumbsOf (items : list BreadcrumbItem) :
  allNamed (breadcrumbsOf items).
Proof.
  unfold allNamed, breadcrumbsOf.
  induction items as [|item items IH]; simpl; [constructor|].
  apply Forall_app. split; [|exact IH].
  destruct (crumbName item) as [name|]; [|constructor].
  destruct (truthy name && negb (str_eqb name (u "Trendyol"))) eqn:E; [|constructor].
  apply andb_true_iff in E as [E _]. constructor; [exact E|constructor].
Qed.

Lemma allNamed_pushNew (l : list jsstring) (o : option jsstring) :
  allNamed l -> allNamed (pushNew l o).
Proof.
  intros Hl. unfold pushNew. destruct o as [s|]; [|exact Hl].
  destruct (truthy s) eqn:E; simpl; [|exact Hl].
  destruct (existsb (str_eqb s) l); simpl; [exact Hl|].
  apply Forall_app. split; [exact Hl|]. constructor; [exact E|constructor].
Qed.

Lemma toUpperUnit_not_nil (c : N) : toUpperUnit c <> [].
Proof.
  unfold toUpperUnit.
  repeat match goal with
         | |- context [if ?b then _ else _] => destruct b
         end; discriminate.
Qed.

Lemma matchesAt_head (w s : jsstring) :
  w <> [] -> matchesAt w s = true -> firstn (length w) s <> [].
Proof.
  destruct w as [|p w]; [congruence|]. intros _.
  destruct s as [|x s]; simpl; [discriminate | discriminate].
Qed.

Lemma pick_not_nil (words : list jsstring) (s g : jsstring) :
  Forall (fun w => w <> []) words ->
  CategoryMapping.firstReturn
    (fun w => if matchesAt w s then Some (firstn (length w) s) else None) words
    = Some g ->
  g <> [].
Proof.
  induction words as [|w words IH]; intros Hwords H; [discriminate H|].
  inversion Hwords as [|? ? Hw Hrest]; subst.
  cbn [CategoryMapping.firstReturn] in H.
  destruct (matchesAt w s) eqn:E.
  - injection H as <-. apply matchesAt_head; assumption.
  - apply IH; assumption.
Qed.

Lemma matchGender_eq (s : jsstring) :
  matchGender s =
    match CategoryMapping.firstReturn
            (fun w => if matchesAt w s then Some (firstn (length w) s) else None)
            genderWords with
    | Some gender => Some gender
    | None => match s with [] => None | _ :: s' => matchGender s' end
    end.
Proof. destruct s; reflexivity. Qed.

Lemma genderWords_not_nil : Forall (fun w => w <> []) genderWords.
Proof. repeat constructor; vm_compute; discriminate. Qed.

Lemma matchGender_not_nil (s g : jsstring) : matchGender s = Some g -> g <> [].
Proof.
  induction s as [|x s IH]; rewrite matchGender_eq;
    destruct (CategoryMapping.firstReturn _ genderWords) as [gender|] eqn:E;
    intros H; try discriminate H.
  - injection H as <-. eapply pick_not_nil; [apply genderWords_not_nil | exact E].
  - injection H as <-. eapply pick_not_nil; [apply genderWords_not_nil | exact E].
  - apply IH. exact H.
Qed.

Lemma allNamed_fromTitle (page : CategoryPage) : allNamed (fromTitle page).
Proof.
  unfold fromTitle.
  destruct (truthyOpt (matchGender (trim (productTitleText page)))
            || truthy (trim (typeText page))); [|constructor].
  apply foldl_invariant.
  - assert (Hgender : allNamed
              match matchGender (trim (productTitleText page)) with
              | Some g => [capitalize g]
              | None => []
              end).
    { destruct (matchGender (trim (productTitleText page))) as [g|] eqn:Hg;
        [|constructor].
      constructor; [|constructor].
      apply matchGender_not_nil in Hg. destruct g as [|c r]; [congruence|].
      simpl. pose proof (toUpperUnit_not_nil c).
      destruct (toUpperUnit c); [congruence | reflexivity]. }
    destruct (truthy (trim (typeText page))) eqn:Et; [|exact Hgender].
    apply Forall_app. split; [exact Hgender|]. constructor; [exact Et|constructor].
  - intros parts pType Hparts Hin. unfold addProductType.
    destruct (includes _ _); [|exact Hparts].
    destruct (existsb _ _); [exact Hparts|].
    apply Forall_app. split; [exact Hparts|]. constructor; [|constructor].
    unfold productTypes in Hin. simpl in Hin.
    destruct Hin as [<-|[<-|[<-|[<-|[]]]]]; reflexivity.
Qed.

Lemma allNamed_fromDetail (page : CategoryPage) : allNamed (fromDetail page).
Proof.
  unfold fromDetail. apply foldl_invariant.
  - destruct (truthy (trim (brandText page))) eqn:Eb,
             (truthy (trim (mainCategoryText page))) eqn:Em;
      repeat first [apply Forall_app; split | constructor]; assumption.
  - intros acc text Hacc _. apply allNamed_pushNew. exact Hacc.
Qed.

Lemma allNamed_fromBreadcrumb (page : CategoryPage) : allNamed (fromBreadcrumb page).
Proof.
  unfold allNamed, fromBreadcrumb. apply Forall_forall. intros cat Hin.
  apply list_elem_of_In, filter_In in Hin as [_ Hkeep].
  apply andb_true_iff in Hkeep as [_ Hcat]. destruct cat; [discriminate | reflexivity].
Qed.

Lemma allNamed_fromScripts (scripts : list CrumbScript) :
  allNamed (foldl fromScript [] scripts).
Proof.
  apply foldl_invariant; [constructor|]. intros acc script Hacc _.
  destruct script as [| | | |[|items|]]; try exact Hacc. simpl.
  destruct (nonEmpty (breadcrumbsOf items)); [apply allNamed_breadcrumbsOf | exact Hacc].
Qed.

(** A block after the last breadcrumb that counts changes nothing. *)
Lemma fromScript_silent (categories : list jsstring) (script : CrumbScript) :
  Shape.silent script -> fromScript categories script = categories.
Proof.
  destruct script as [| | | |[|items|]]; try reflexivity.
  simpl. intros ->. reflexivity.
Qed.

Lemma breadcrumbsOf_no_trendyol (items : list BreadcrumbItem) :
  ~ In (u "Trendyol") (breadcrumbsOf items).
Proof.
  unfold breadcrumbsOf. rewrite in_flat_map. intros [item [_ Hin]].
  destruct (crumbName item) as [name|]; [|destruct Hin].
  destruct (truthy name && negb (str_eqb name (u "Trendyol"))) eqn:E; [|destruct Hin].
  destruct Hin as [->|[]]. vm_compute in E. discriminate.
Qed.

End CategoryExtraction.

(** The categories are never none, and none is the empty text. *)
Lemma scrapeTrendyolCategories_named (page : Categories.CategoryPage) :
  Categories.scrapeTrendyolCategories page <> []
  /\ Shape.allNamed (Categories.scrapeTrendyolCategories page).
Proof.
  unfold Categories.scrapeTrendyolCategories. split.
  - unfold Categories.orIfEmpty at 1.
    destruct (nonEmpty _) eqn:E.
    + intros H. rewrite H in E. discriminate.
    + unfold Categories.lastResort.
      destruct (truthy (trim (Categories.h1Text page))); discriminate.
  - repeat apply allNamed_orIfEmpty.
    + apply allNamed_fromScripts.
    + apply allNamed_fromBreadcrumb.
    + apply allNamed_fromDetail.
    + apply allNamed_fromTitle.
    + unfold Categories.lastResort.
      destruct (truthy (trim (Categories.h1Text page))) eqn:E;
        constructor; solve [assumption | reflexivity | constructor].
Qed.

(** X1. [scrapeTrendyolCategories] returns, for every page, at least one
    category, and no category is the empty text. *)
Theorem categories_never_empty (page : Categories.CategoryPage) :
  Categories.scrapeTrendyolCategories page <> []
  /\ Forall (fun c => truthy c = true) (Categories.scrapeTrendyolCategories page).
Proof. apply scrapeTrendyolCategories_named. Qed.

(** X2. When a JSON-LD block carries breadcrumb items that give at least
    one name other than Trendyol, and no later block does, the categories
    are the names of that block, whatever the earlier blocks and the page
    elements hold; Trendyol is not among them. *)
Theorem last_structured_breadcrumb_wins (page : Categories.CategoryPage)
    (before after : list Categories.CrumbScript)
    (items : list Categories.BreadcrumbItem) :
  Categories.crumbScripts page
    = before ++ Categories.CrumbObject (Categories.ItemArray items) :: after ->
  Categories.breadcrumbsOf items <> [] ->
  Forall Shape.silent after ->
  Categories.scrapeTrendyolCategories page = Categories.breadcrumbsOf items
  /\ ~ In (u "Trendyol") (Categories.scrapeTrendyolCategories page).
Proof.
  intros Hscripts Hitems Hafter.
  assert (H : Categories.scrapeTrendyolCategories page = Categories.breadcrumbsOf items).
  { unfold Categories.scrapeTrendyolCategories. rewrite Hscripts, foldl_app. simpl.
    destruct (Categories.breadcrumbsOf items) as [|name names] eqn:E; [congruence|].
    simpl.
    assert (Hfold : foldl Categories.fromScript (name :: names) after = name :: names).
    { clear Hscripts. induction after as [|script after IH]; [reflexivity|].
      inversion Hafter as [|? ? Hs Hrest]; subst. simpl.
      rewrite (fromScript_silent _ _ Hs). apply IH. exact Hrest. }
    rewrite Hfold. reflexivity. }
  split; [exact H|]. rewrite H. apply breadcrumbsOf_no_trendyol.
Qed.

Lemma last_structured_breadcrumb_wins_witness :
  Categories.scrapeTrendyolCategories Instances.twoBreadcrumbs
    = [u "Erkek"; u "Tişört"]
  /\ ~ In (u "Trendyol") (Categories.scrapeTrendyolCategories Instances.twoBreadcrumbs).
Proof.
  refine (last_structured_breadcrumb_wins Instances.twoBreadcrumbs
            [Categories.CrumbObject (Categories.ItemArray
               [{| Categories.bi_name := Some (u "Trendyol");
                   Categories.bi_item_name := None |};
                {| Categories.bi_name := Some (u "Kadın");
                   Categories.bi_item_name := None |}])]
            [Categories.CrumbBad]
            [{| Categories.bi_name := Some (u "Trendyol");
                Categories.bi_item_name := None |};
             {| Categories.bi_name := None;
                Categories.bi_item_name := Some (u "Erkek") |};
             {| Categories.bi_name := Some (u "Tişört");
                Categories.bi_item_name := Some (u "T-Shirt") |}] _ _ _).
  - reflexivity.
  - vm_compute. discriminate.
  - repeat constructor.
Defined.

(** ** Category resolution in one pass *)

Section SinglePass.

Import CategoryMapping.






End SinglePass.


(** ** The storage *)

Section StorageFacts.

Import Storage Shape.








End StorageFacts.




(** ** The scrape handler: what it throws and what it saves *)

Section HandlerFacts.

Import UrlSchema Storage Routes Shape.

Variable parseURL : jsstring -> option URLRecord.
Variable shortestDecimal : float -> jsstring.
Variable categoriesOf : Doc -> list jsstring.

Lemma productSchema_first (doc : Doc) (schema : Schema) :
  productSchema doc = Ok schema ->
  (exists rest, ldJson doc = Parsed (JObject schema) :: rest)
  /\ truthyOpt (s_name schema) = true.
Proof.
  unfold productSchema.
  destruct (ldJson doc) as [|[| |[| |s]] rest]; try discriminate.
  destruct (truthyOpt (s_type s)); [|discriminate].
  destruct (truthyOpt (s_name s)) eqn:Hname; [|discriminate].
  intros [= <-]. split; [exists rest; reflexivity | exact Hname].
Qed.

Lemma productSchema_throw (doc : Doc) (e : JsError) :
  productSchema doc = Throw e ->
  e = ProductDataError (u "Ürün şeması bulunamadı") (u "schema")
  \/ e = ProductDataError (u "Ürün şeması geçersiz") (u "schema").
Proof.
  unfold productSchema.
  destruct (ldJson doc) as [|[| |[| |s]] rest].
  - intros [= <-]. left. reflexivity.
  - intros [= <-]. left. reflexivity.
  - intros [= <-]. right. reflexivity.
  - intros [= <-]. right. reflexivity.
  - intros [= <-]. right. reflexivity.
  - destruct (truthyOpt (s_type s) && truthyOpt (s_name s)); [discriminate|].
    intros [= <-]. right. reflexivity.
Qed.

(** Once the first JSON-LD block has been accepted, [scrapePrice] cannot
    fail on it. *)
Lemma scrapePrice_after_schema (doc : Doc) (schema : Schema) (e : JsError) :
  productSchema doc = Ok schema ->
  Price.scrapePrice shortestDecimal doc = Throw e ->
  e = PlainError (u "Fiyat bilgisi bulunamadı").
Proof.
  intros Hschema. apply productSchema_first in Hschema as [[rest Hfirst] _].
  unfold Price.scrapePrice, Price.priceFromDom. rewrite Hfirst.
  intros H.
  repeat match type of H with
         | Throw _ = Throw _ => injection H as <-; reflexivity
         | Ok _ = Throw _ => discriminate H
         | context [match ?x with _ => _ end] => destruct x
         end.
Qed.

Lemma productImages_throw (doc : Doc) (schema : Schema) (e : JsError) :
  productImages doc schema = Throw e ->
  e = ProductDataError (u "Görseller işlenirken hata oluştu") (u "images").
Proof.
  unfold productImages.
  match goal with |- (if ?c then _ else _) = _ -> _ => destruct c end;
    [discriminate|].
  intros [= <-]. reflexivity.
Qed.

Lemma productImages_ok (doc : Doc) (schema : Schema) (images : list jsstring) :
  productImages doc schema = Ok images -> images <> [].
Proof.
  unfold productImages.
  match goal with |- (if nonEmpty ?l then _ else _) = _ -> _ =>
    destruct l eqn:E end; [discriminate|].
  intros [= <-]. discriminate.
Qed.

Lemma assemble_throw (url : jsstring) (result : FetchResult) (e : JsError) :
  assemble shortestDecimal categoriesOf url result = Throw e ->
  thrownByScrape e.
Proof.
  unfold assemble, thrownByScrape.
  destruct result as [|response]; [intros [= <-]; left; reflexivity|].
  destruct (ok response); cbn [negb];
    [|intros [= <-]; right; left; eexists; reflexivity].
  destruct (productSchema (page response)) as [schema|e1] eqn:Hschema;
    cbn [mbind result_bind].
  2:{ intros [= <-]. apply productSchema_throw in Hschema as [->| ->].
      - do 2 right. left. reflexivity.
      - do 3 right. left. reflexivity. }
  destruct (Price.scrapePrice shortestDecimal (page response)) as [priced|e2] eqn:Hprice;
    cbn [mbind result_bind].
  2:{ intros [= <-]. apply (scrapePrice_after_schema _ _ _ Hschema) in Hprice as ->.
      do 4 right. left. reflexivity. }
  match goal with |- (if ?c then _ else _) = _ -> _ => destruct c end;
    [intros [= <-]; do 5 right; left; reflexivity|].
  destruct (productImages (page response) schema) as [images|e3] eqn:Himages;
    cbn [mbind result_bind]; [discriminate|].
  intros [= <-]. apply productImages_throw in Himages as ->.
  do 6 right. reflexivity.
Qed.

Lemma assemble_complete (url : jsstring) (result : FetchResult)
    (product : InsertProduct) :
  assemble shortestDecimal categoriesOf url result = Ok product ->
  completeRecord product.
Proof.
  unfold assemble, completeRecord.
  destruct result as [|response]; [discriminate|].
  destruct (ok response); cbn [negb]; [|discriminate].
  destruct (productSchema (page response)) as [schema|e1];
    cbn [mbind result_bind]; [|discriminate].
  destruct (Price.scrapePrice shortestDecimal (page response)) as [priced|e2];
    cbn [mbind result_bind]; [|discriminate].
  match goal with |- (if ?c then _ else _) = _ -> _ => destruct c eqn:Hbasic end;
    [discriminate|].
  destruct (productImages (page response) schema) as [images|e3] eqn:Himages;
    cbn [mbind result_bind]; [|discriminate].
  intros [= <-]. cbn.
  apply orb_false_elim in Hbasic as [Hbasic Hprice].
  apply orb_false_elim in Hbasic as [Htitle Hdescription].
  apply negb_false_iff in Htitle, Hdescription, Hprice.
  split; [exact Htitle|]. split.
  { destruct (s_description schema); [exact Hdescription | discriminate]. }
  split; [exact Hprice|]. split; [|reflexivity].
  eapply productImages_ok. exact Himages.
Qed.

Lemma thrownByScrape_status (e : JsError) :
  thrownByScrape e ->
  (status (handleError e) = 422 \/ status (handleError e) = 500)%Z.
Proof.
  intros [->|[[upstream ->]|[->|[->|[->|[->| ->]]]]]]; cbn [handleError status];
    (left; reflexivity) || (right; reflexivity).
Qed.



Lemma scrapeFinish_status (storage : MemStorage) (url : jsstring)
    (result : FetchResult) :
  knownStatus (scrapeFinish shortestDecimal categoriesOf storage url result).2.
Proof.
  unfold scrapeFinish, knownStatus.
  destruct (assemble shortestDecimal categoriesOf url result) as [product|e] eqn:Ha.
  - left. reflexivity.
  - right. apply assemble_throw in Ha. apply thrownByScrape_status in Ha. exact Ha.
Qed.

Lemma scrapeStart_status (storage : MemStorage) (body : Body) (r : Reply) :
  scrapeStart parseURL storage body = Replied r -> knownStatus r.
Proof.
  unfold scrapeStart, knownStatus.
  destruct (parse parseURL body) as [url|e] eqn:Hparse.
  - destruct (getProduct storage url); [|discriminate].
    intros [= <-]. left. reflexivity.
  - intros [= <-]. right. right. cbn [replyStatus].
    rewrite (parse_throw _ _ _ Hparse). reflexivity.
Qed.

Lemma step_status (s : Server) (e : Event) :
  from_option knownStatus True
    (reply (step parseURL shortestDecimal categoriesOf s e).2).
Proof.
  destruct e as [body|k result]; cbn [step].
  - destruct (scrapeStart parseURL (storage s) body) as [r|url] eqn:Hstart;
      cbn; [|exact I].
    eapply scrapeStart_status. exact Hstart.
  - destruct (inFlight s !! k) as [url|]; [|exact I].
    pose proof (scrapeFinish_status (storage s) url result) as H.
    destruct (scrapeFinish shortestDecimal categoriesOf (storage s) url result)
      as [storage' r].
    exact H.
Qed.



Lemma run_status (events : list Event) (s : Server) :
  Forall (fun eff => from_option knownStatus True (reply eff))
    (run parseURL shortestDecimal categoriesOf s events).2.
Proof.
  revert s. induction events as [|e events IH]; intros s; cbn [run]; [constructor|].
  pose proof (step_status s e) as Hstep.
  destruct (step parseURL shortestDecimal categoriesOf s e) as [s1 eff].
  specialize (IH s1).
  destruct (run parseURL shortestDecimal categoriesOf s1 events) as [s2 effs].
  constructor; assumption.
Qed.

End HandlerFacts.

(** X7. Whatever the request, the answer of the network and the state of
    the cache, the scrape handler answers with status 200, 422 or 500:
    200 with a product, or the status [handleError] gives the error. It
    never answers 400, the status kept for a [URLValidationError], which
    nothing throws. The same holds for every reply while requests
    overlap. *)
Theorem scrape_status_codes
    (parseURL : jsstring -> option UrlSchema.URLRecord)
    (shortestDecimal : float -> jsstring) (categoriesOf : Doc -> list jsstring) :
  (forall net storage body,
     Shape.knownStatus
       (Routes.scrape parseURL shortestDecimal categoriesOf net storage body).1.2)
  /\ (forall s events,
        Forall (fun eff => from_option Shape.knownStatus True (Routes.reply eff))
          (Routes.run parseURL shortestDecimal categoriesOf s events).2).
Proof.
  split; [|intros s events; apply run_status].
  intros net storage body. unfold Routes.scrape.
  destruct (Routes.scrapeStart parseURL storage body) as [r|url] eqn:Hstart.
  - eapply scrapeStart_status. exact Hstart.
  - pose proof (scrapeFinish_status shortestDecimal categoriesOf storage url (net url))
      as H.
    destruct (Routes.scrapeFinish shortestDecimal categoriesOf storage url (net url))
      as [storage' r].
    exact H.
Qed.



(** X9. One request served from start to end fetches at most once, the
    URL as it was sent and only when the cache has nothing under it. A
    failed request leaves the cache as it was. A product that is sent is
    the cache entry of the URL of the request afterwards: either it was
    there and nothing was fetched or saved, or it is the one save made,
    it carries that URL and has the id that was next. *)
Theorem scrape_storage_effect
    (parseURL : jsstring -> option UrlSchema.URLRecord)
    (shortestDecimal : float -> jsstring) (categoriesOf : Doc -> list jsstring)
    (net : jsstring -> Routes.FetchResult) (storage : Storage.MemStorage)
    (body : UrlSchema.Body) :
  ((Routes.scrape parseURL shortestDecimal categoriesOf net storage body).2 = []
   \/ exists url,
        body = UrlSchema.WithUrl url
        /\ Storage.getProduct storage url = None
        /\ (Routes.scrape parseURL shortestDecimal categoriesOf net storage body).2
           = [url])
  /\ (forall error,
        (Routes.scrape parseURL shortestDecimal categoriesOf net storage body).1.2
          = Routes.Failed error ->
        (Routes.scrape parseURL shortestDecimal categoriesOf net storage body).1.1
          = storage)
  /\ (forall p,
        (Routes.scrape parseURL shortestDecimal categoriesOf net storage body).1.2
          = Routes.Sent p ->
        exists url,
          body = UrlSchema.WithUrl url
          /\ UrlSchema.isProductUrl parseURL url = true
          /\ Storage.getProduct
               (Routes.scrape parseURL shortestDecimal categoriesOf net storage body).1.1
               url = Some p
          /\ (((Routes.scrape parseURL shortestDecimal categoriesOf net storage body).1.1
                 = storage
               /\ (Routes.scrape parseURL shortestDecimal categoriesOf net storage body).2
                  = [])
              \/ ((Routes.scrape parseURL shortestDecimal categoriesOf net storage body).1.1
                    = (Storage.saveProduct storage (Storage.fields p)).1
                  /\ Storage.url (Storage.fields p) = url
                  /\ Storage.id p = Storage.currentId storage
                  /\ (Routes.scrape parseURL shortestDecimal categoriesOf net storage
                        body).2 = [url]))).
Proof.
  unfold Routes.scrape, Routes.scrapeStart.
  destruct (UrlSchema.parse parseURL body) as [url|err] eqn:Hparse.
  2:{ cbn. split; [left; reflexivity|].
      split; [reflexivity | intros p H; discriminate H]. }
  apply parse_ok in Hparse as [-> Hurl].
  destruct (Storage.getProduct storage url) as [existing|] eqn:Hget.
  { cbn. split; [left; reflexivity|]. split; [reflexivity|].
    intros p [= <-]. exists url. split; [reflexivity|]. split; [exact Hurl|].
    split; [exact Hget|]. left. split; reflexivity. }
  unfold Routes.scrapeFinish.
  destruct (Routes.assemble shortestDecimal categoriesOf url (net url))
    as [product|err] eqn:Ha.
  2:{ cbn. split; [right; exists url; repeat split; exact Hget|].
      split; [reflexivity | intros p H; discriminate H]. }
  apply assemble_url in Ha. cbn.
  split; [right; exists url; repeat split; exact Hget|].
  split; [intros error H; discriminate H|].
  intros p [= <-]. cbn. exists url. split; [reflexivity|]. split; [exact Hurl|].
  split; [rewrite Ha; apply lookup_insert_eq|].
  right. split; [reflexivity|]. split; [exact Ha|]. split; reflexivity.
Qed.


(** ** Variants: sizes and colors *)

Section VariantFacts.

Import Shape.

Lemma existsb_str_eqb (x : jsstring) (l : list jsstring) :
  existsb (str_eqb x) l = true <-> x ∈ l.
Proof.
  rewrite existsb_exists. split.
  - intros (y & Hin & Heq). apply str_eqb_eq in Heq as ->.
    apply list_elem_of_In. exact Hin.
  - intros Hin. exists x. split; [apply list_elem_of_In; exact Hin|].
    apply str_eqb_eq. reflexivity.
Qed.

Lemma existsb_str_eqb_false (x : jsstring) (l : list jsstring) :
  existsb (str_eqb x) l = false <-> x ∉ l.
Proof.
  rewrite <- existsb_str_eqb.
  destruct (existsb (str_eqb x) l); split; congruence.
Qed.

(** The [reduce] keeps the texts that are not composite, in order. *)
Lemma parseSizes_filter (l : list jsstring) :
  parseSizes l = List.filter (fun s => negb (isComposite s)) l.
Proof.
  unfold parseSizes.
  enough (H : forall acc,
             foldl (fun acc size => if isComposite size then acc else acc ++ [size])
                   acc l
             = acc ++ List.filter (fun s => negb (isComposite s)) l)
    by apply (H []).
  induction l as [|x l IH]; intros acc; simpl.
  - symmetry. apply app_nil_r.
  - rewrite IH. destruct (isComposite x); simpl; [reflexivity|].
    rewrite <- app_assoc. reflexivity.
Qed.

Lemma uniqueFrom_elem (seen l : list jsstring) (x : jsstring) :
  x ∈ uniqueFrom seen l <-> x ∈ l /\ x ∉ seen.
Proof.
  revert seen. induction l as [|y l IH]; intros seen; simpl.
  - rewrite elem_of_nil. tauto.
  - destruct (existsb (str_eqb y) seen) eqn:E.
    + apply existsb_str_eqb in E. rewrite IH, elem_of_cons. split.
      * intros [H1 H2]. split; [right; exact H1 | exact H2].
      * intros [[->|H1] H2]; [contradiction | split; assumption].
    + apply existsb_str_eqb_false in E.
      rewrite !elem_of_cons, IH, not_elem_of_cons. split.
      * intros [->|[H1 [H2 H3]]]; [split; [left; reflexivity | exact E]|].
        split; [right; exact H1 | exact H3].
      * intros [[->|H1] H2]; [left; reflexivity|].
        destruct (decide (x = y)) as [->|Hne]; [left; reflexivity|].
        right. split; [exact H1|]. split; assumption.
Qed.

Lemma uniqueFrom_NoDup (seen l : list jsstring) : NoDup (uniqueFrom seen l).
Proof.
  revert seen. induction l as [|y l IH]; intros seen; simpl; [constructor|].
  destruct (existsb (str_eqb y) seen); [apply IH|].
  constructor; [|apply IH].
  rewrite uniqueFrom_elem, not_elem_of_cons. intros [_ [H _]]. apply H. reflexivity.
Qed.

Lemma unique_elem (l : list jsstring) (x : jsstring) : x ∈ unique l <-> x ∈ l.
Proof.
  unfold unique. rewrite uniqueFrom_elem. split; [tauto|].
  intros H. split; [exact H | apply not_elem_of_nil].
Qed.

Lemma insertSorted_perm (x : jsstring) (l : list jsstring) :
  insertSorted x l ≡ₚ x :: l.
Proof.
  induction l as [|y l IH]; simpl; [reflexivity|].
  destruct (sortsAfter x y); [|reflexivity].
  rewrite IH. apply perm_swap.
Qed.

Lemma sortSizes_perm (l : list jsstring) : sortSizes l ≡ₚ l.
Proof.
  induction l as [|x l IH]; simpl; [reflexivity|].
  rewrite insertSorted_perm, IH. reflexivity.
Qed.

Lemma sortsAfter_true (a b : jsstring) :
  sortsAfter a b = true ->
  exists x y, rank a = Some x /\ rank b = Some y /\ (y < x)%Z.
Proof.
  unfold sortsAfter. destruct (rank a) as [x|], (rank b) as [y|]; try discriminate.
  intros H. exists x, y. split; [reflexivity|]. split; [reflexivity|].
  apply Z.ltb_lt in H. lia.
Qed.

Lemma sortsAfter_false (a b : jsstring) (x y : Z) :
  rank a = Some x -> rank b = Some y -> sortsAfter a b = false -> (x <= y)%Z.
Proof.
  unfold sortsAfter. intros -> -> H. apply Z.ltb_ge in H. lia.
Qed.

Lemma rank_not_inherited (s : jsstring) :
  inherited s = false -> exists x, rank s = Some x.
Proof.
  unfold rank. intros ->.
  destruct (find (fun e => str_eqb s e.1) sizeOrder) as [e|]; eexists; reflexivity.
Qed.

Lemma insertSorted_sorted (x : jsstring) (l : list jsstring) :
  inherited x = false -> Forall (fun s => inherited s = false) l ->
  StronglySorted inRankOrder l ->
  StronglySorted inRankOrder (insertSorted x l).
Proof.
  intros Hx Hl Hsorted.
  destruct (rank_not_inherited x Hx) as [rx Hrx].
  induction Hsorted as [|y l Hsorted IH Hy]; simpl.
  - constructor; constructor.
  - apply Forall_cons in Hl as [Hiy Hl].
    destruct (rank_not_inherited y Hiy) as [ry Hry].
    destruct (sortsAfter x y) eqn:Hafter.
    + apply sortsAfter_true in Hafter as (rx' & ry' & Hrx' & Hry' & Hlt).
      constructor; [apply IH; exact Hl|].
      rewrite insertSorted_perm. constructor; [|exact Hy].
      exists ry', rx'. split; [exact Hry'|]. split; [exact Hrx' | lia].
    + pose proof (sortsAfter_false x y rx ry Hrx Hry Hafter) as Hle.
      constructor; [constructor; assumption|].
      constructor; [exists rx, ry; repeat split; assumption|].
      eapply Forall_impl; [exact Hy|].
      intros z (ry' & rz & Hry' & Hrz & Hyz). exists rx, rz.
      split; [exact Hrx|]. split; [exact Hrz|].
      rewrite Hry in Hry'. injection Hry' as <-. lia.
Qed.

Lemma insertSorted_ofRank (r : option Z) (x : jsstring) (l : list jsstring) :
  ofRank r (insertSorted x l) = ofRank r (x :: l).
Proof.
  unfold ofRank. induction l as [|y l IH]; [reflexivity|].
  cbn [insertSorted]. destruct (sortsAfter x y) eqn:Hafter; [|reflexivity].
  apply sortsAfter_true in Hafter as (rx & ry & Hrx & Hry & Hlt).
  cbn [List.filter] in *. rewrite IH.
  destruct (bool_decide (rank y = r)) eqn:Py;
    destruct (bool_decide (rank x = r)) eqn:Px; try reflexivity.
  apply bool_decide_eq_true in Py. apply bool_decide_eq_true in Px.
  assert (rx = ry) by congruence. lia.
Qed.

Lemma scanSizes_from (doc : Doc) (selectors : list jsstring) :
  scanSizes doc selectors = []
  \/ exists selector, selector ∈ selectors
       /\ scanSizes doc selectors = uniqueSizes (found doc selector).
Proof.
  induction selectors as [|selector rest IH]; simpl; [left; reflexivity|].
  destruct (nonEmpty (found doc selector));
    [destruct (nonEmpty (uniqueSizes (found doc selector)))|].
  - right. exists selector. split; [left | reflexivity].
  - destruct IH as [IH|(s & Hs & IH)]; [left; exact IH|].
    right. exists s. split; [right; exact Hs | exact IH].
  - destruct IH as [IH|(s & Hs & IH)]; [left; exact IH|].
    right. exists s. split; [right; exact Hs | exact IH].
Qed.

Lemma found_named (doc : Doc) (selector : jsstring) : allNamed (found doc selector).
Proof.
  unfold allNamed, found. apply List.Forall_forall. intros x Hx.
  apply filter_In in Hx as [_ Hx]. exact Hx.
Qed.

Lemma uniqueSizes_elem (l : list jsstring) (x : jsstring) :
  x ∈ uniqueSizes l <-> x ∈ l /\ isComposite x = false.
Proof.
  unfold uniqueSizes. rewrite sortSizes_perm, unique_elem, parseSizes_filter.
  rewrite !list_elem_of_In, filter_In, negb_true_iff. reflexivity.
Qed.

Lemma uniqueSizes_NoDup (l : list jsstring) : NoDup (uniqueSizes l).
Proof.
  unfold uniqueSizes. rewrite sortSizes_perm. apply uniqueFrom_NoDup.
Qed.

Lemma scanSizes_distinct_named (doc : Doc) (selectors : list jsstring) :
  NoDup (scanSizes doc selectors) /\ allNamed (scanSizes doc selectors).
Proof.
  destruct (scanSizes_from doc selectors) as [->|(selector & _ & ->)];
    [split; constructor|].
  split; [apply uniqueSizes_NoDup|].
  unfold allNamed. apply Forall_forall. intros x Hx.
  apply uniqueSizes_elem in Hx as [Hx _].
  pose proof (found_named doc selector) as H. unfold allNamed in H.
  rewrite Forall_forall in H. apply H. exact Hx.
Qed.

Lemma scanColors_find (doc : Doc) (selectors : list jsstring) :
  scanColors doc selectors =
    match List.find (fun selector => nonEmpty (found doc selector)) selectors with
    | Some selector => unique (found doc selector)
    | None => []
    end.
Proof.
  induction selectors as [|selector rest IH]; simpl; [reflexivity|].
  destruct (nonEmpty (found doc selector)); [reflexivity | exact IH].
Qed.

Lemma scanColors_distinct_named (doc : Doc) (selectors : list jsstring) :
  NoDup (scanColors doc selectors) /\ allNamed (scanColors doc selectors).
Proof.
  rewrite scanColors_find.
  destruct (find _ selectors) as [selector|]; [|split; constructor].
  split; [apply uniqueFrom_NoDup|].
  unfold allNamed. apply Forall_forall. intros x Hx.
  apply (proj1 (unique_elem _ _)) in Hx.
  pose proof (found_named doc selector) as H. unfold allNamed in H.
  rewrite Forall_forall in H. apply H. exact Hx.
Qed.

Lemma pushNew_distinct_named (l : list jsstring) (o : option jsstring) :
  NoDup l /\ allNamed l -> NoDup (pushNew l o) /\ allNamed (pushNew l o).
Proof.
  intros [Hd Hn]. unfold pushNew. destruct o as [s|]; [|split; assumption].
  destruct (truthy s) eqn:Hs; [|split; assumption].
  destruct (existsb (str_eqb s) l) eqn:E; [split; assumption|].
  apply existsb_str_eqb_false in E. cbn [negb andb]. split.
  - apply NoDup_app. split; [exact Hd|]. split; [|apply NoDup_singleton].
    intros x Hx Hxs. apply list_elem_of_singleton in Hxs as ->. contradiction.
  - unfold allNamed. apply Forall_app. split; [exact Hn|].
    constructor; [exact Hs | constructor].
Qed.


End VariantFacts.

(** Sizes and colors are pairwise different and none is the empty text. *)
Lemma scrapeVariants_distinct_named (doc : Doc) (schema : Schema) :
  NoDup (sizes (scrapeVariants doc schema))
  /\ Shape.allNamed (sizes (scrapeVariants doc schema))
  /\ NoDup (colors (scrapeVariants doc schema))
  /\ Shape.allNamed (colors (scrapeVariants doc schema)).
Proof.
  assert (H : forall l variants,
            (NoDup (sizes variants) /\ Shape.allNamed (sizes variants))
            /\ (NoDup (colors variants) /\ Shape.allNamed (colors variants)) ->
            (NoDup (sizes (foldl addVariant variants l))
             /\ Shape.allNamed (sizes (foldl addVariant variants l)))
            /\ (NoDup (colors (foldl addVariant variants l))
                /\ Shape.allNamed (colors (foldl addVariant variants l)))).
  { induction l as [|entry l IH]; intros variants [Hs Hc]; [split; assumption|].
    cbn [foldl]. apply IH. unfold addVariant. cbn [sizes colors].
    split; apply pushNew_distinct_named; assumption. }
  pose proof (scanSizes_distinct_named doc sizeSelectors) as Hs.
  pose proof (scanColors_distinct_named doc colorSelectors) as Hc.
  unfold scrapeVariants.
  destruct (s_hasVariant schema) as [|l|]; [cbn [sizes colors]; tauto| |cbn [sizes colors]; tauto].
  destruct (H l {| sizes := scanSizes doc sizeSelectors;
                   colors := scanColors doc colorSelectors |}) as [[? ?] [? ?]];
    [split; assumption|].
  repeat split; assumption.
Qed.

(** X11. Whatever the page and its structured data, the sizes returned by
    [scrapeVariants] are pairwise different and none is the empty text,
    and so are the colors. *)
Theorem variants_distinct_and_named (doc : Doc) (schema : Schema) :
  NoDup (sizes (scrapeVariants doc schema))
  /\ Shape.allNamed (sizes (scrapeVariants doc schema))
  /\ NoDup (colors (scrapeVariants doc schema))
  /\ Shape.allNamed (colors (scrapeVariants doc schema)).
Proof. apply scrapeVariants_distinct_named. Qed.

(** X12. The post-processing of the texts of one size selector keeps
    exactly the texts that do not hold XS, S and M at once, each once:
    a text is among the sizes if and only if it is among the texts and is
    not such a composite. *)
Theorem uniqueSizes_members (foundSizes : list jsstring) :
  NoDup (uniqueSizes foundSizes)
  /\ forall size, size ∈ uniqueSizes foundSizes
                  <-> size ∈ foundSizes /\ isComposite size = false.
Proof. split; [apply uniqueSizes_NoDup | intros size; apply uniqueSizes_elem]. Qed.

(** X13. For sizes none of which is named like a property of
    [Object.prototype], the sort puts them in the order of the size table,
    the sizes outside the table last, and it is stable: it is a
    rearrangement of its input, no size ranks above one that follows it,
    and sizes of one rank keep the order they had. *)
Theorem sortSizes_sorted_and_stable (l : list jsstring) :
  Forall (fun s => inherited s = false) l ->
  sortSizes l ≡ₚ l
  /\ StronglySorted Shape.inRankOrder (sortSizes l)
  /\ forall r, Shape.ofRank r (sortSizes l) = Shape.ofRank r l.
Proof.
  intros Hl. split; [apply sortSizes_perm|]. split.
  - induction Hl as [|x l Hx Hl IH]; simpl; [constructor|].
    apply insertSorted_sorted; [exact Hx| |exact IH].
    rewrite sortSizes_perm. exact Hl.
  - intros r. clear Hl. induction l as [|x l IH]; [reflexivity|].
    cbn [sortSizes foldr]. rewrite insertSorted_ofRank.
    unfold Shape.ofRank in *. cbn [List.filter].
    fold (sortSizes l). rewrite IH. reflexivity.
Qed.

Lemma sortSizes_sorted_and_stable_witness :
  sortSizes [u "XL"; u "38"; u "S"; u "36"; u "M"]
    ≡ₚ [u "XL"; u "38"; u "S"; u "36"; u "M"]
  /\ StronglySorted Shape.inRankOrder
       (sortSizes [u "XL"; u "38"; u "S"; u "36"; u "M"])
  /\ forall r, Shape.ofRank r (sortSizes [u "XL"; u "38"; u "S"; u "36"; u "M"])
               = Shape.ofRank r [u "XL"; u "38"; u "S"; u "36"; u "M"].
Proof.
  apply (sortSizes_sorted_and_stable [u "XL"; u "38"; u "S"; u "36"; u "M"]).
  repeat (constructor; [vm_compute; reflexivity|]). constructor.
Defined.


(** ** Attributes *)

Section AttributeNames.

Import Shape.

Lemma namedEntries_empty : namedEntries ∅.
Proof. split; [apply map_Forall_empty | apply lookup_empty]. Qed.

Lemma namedEntries_assign (attributes : gmap jsstring jsstring) (k v : jsstring) :
  namedEntries attributes -> truthy k = true -> truthy v = true ->
  namedEntries (assign attributes k v).
Proof.
  intros [Hall Hproto] Hk Hv. unfold assign.
  destruct (str_eqb k (u "__proto__")) eqn:E; [split; assumption|].
  split.
  - apply map_Forall_insert_2; [split; assumption | exact Hall].
  - rewrite lookup_insert_ne; [exact Hproto|].
    intros ->. rewrite (proj2 (str_eqb_eq _ _) eq_refl) in E. discriminate E.
Qed.

Lemma namedEntries_addPair (attributes : gmap jsstring jsstring)
    (row : jsstring * jsstring) :
  namedEntries attributes -> namedEntries (addPair attributes row).
Proof.
  intros Hall. unfold addPair.
  destruct (truthy (trim row.1)) eqn:Hk; [|exact Hall].
  destruct (truthy (trim row.2)) eqn:Hv; [|exact Hall].
  apply namedEntries_assign; assumption.
Qed.

Lemma namedEntries_rows (rows : list (list (jsstring * jsstring)))
    (attributes : gmap jsstring jsstring) :
  namedEntries attributes ->
  namedEntries (foldl (fun acc items => foldl addPair acc items) attributes rows).
Proof.
  intros Hall. apply foldl_invariant; [exact Hall|]. intros a items Ha _.
  apply foldl_invariant; [exact Ha|]. intros a' row Ha' _.
  apply namedEntries_addPair. exact Ha'.
Qed.

Lemma namedEntries_fromSchema (doc : Doc) (attributes : gmap jsstring jsstring) :
  namedEntries attributes -> namedEntries (fromSchema doc attributes).
Proof.
  intros Hall. unfold fromSchema.
  apply foldl_invariant; [exact Hall|]. intros a script Ha _.
  unfold addScript. destruct script as [| |[| |schema]]; try exact Ha.
  destruct (s_additionalProperty schema) as [props|]; [|exact Ha].
  apply foldl_invariant; [exact Ha|]. intros a' prop Ha' _.
  unfold addProperty.
  destruct (ap_name prop) as [name|], (ap_unitText prop) as [unitText|];
    try exact Ha'.
  destruct (truthy name) eqn:Hk; [|exact Ha'].
  destruct (truthy unitText) eqn:Hv; [|exact Ha'].
  apply namedEntries_assign; assumption.
Qed.

Lemma namedEntries_fromSelectors (doc : Doc) (attributes : gmap jsstring jsstring) :
  namedEntries attributes -> namedEntries (fromSelectors doc attributes).
Proof.
  intros Hall. unfold fromSelectors.
  apply foldl_invariant; [exact Hall|]. intros a selector Ha _.
  apply foldl_invariant; [exact Ha|]. intros a' element Ha' _.
  unfold addElement.
  destruct (labelValue element) as [[label|] [value|]]; try exact Ha'.
  destruct (truthy label) eqn:Hk; [|exact Ha'].
  destruct (truthy value) eqn:Hv; [|exact Ha'].
  destruct (has a' label); [exact Ha'|].
  apply namedEntries_assign; assumption.
Qed.

Lemma specialAttributes_named :
  Forall (fun entry => truthy entry.1 = true) specialAttributes.
Proof. repeat (constructor; [vm_compute; reflexivity|]). constructor. Qed.

Lemma namedEntries_fromSpecial (doc : Doc) (attributes : gmap jsstring jsstring) :
  namedEntries attributes -> namedEntries (fromSpecial doc attributes).
Proof.
  intros Hall. unfold fromSpecial.
  apply foldl_invariant; [exact Hall|]. intros a [key alternatives] Ha Hin.
  pose proof specialAttributes_named as Hnamed.
  rewrite List.Forall_forall in Hnamed. specialize (Hnamed _ Hin).
  cbn [addSpecial]. destruct (has a key); [exact Ha|].
  apply foldl_invariant; [exact Ha|]. intros a' alt Ha' _.
  apply foldl_invariant; [exact Ha'|]. intros a'' text Ha'' _.
  unfold addSpecialValue.
  destruct (truthy (trim text)) eqn:Hv; [|exact Ha''].
  apply namedEntries_assign; assumption.
Qed.

End AttributeNames.

Lemma scrapeProductAttributes_named (doc : Doc) :
  Shape.namedEntries (scrapeProductAttributes doc).
Proof.
  unfold scrapeProductAttributes, fromGroups, fromContainers.
  apply namedEntries_rows, namedEntries_fromSpecial, namedEntries_fromSelectors,
    namedEntries_rows, namedEntries_fromSchema, namedEntries_empty.
Qed.

(** X15. Whatever the page, every attribute [scrapeProductAttributes]
    returns has a non-empty name and a non-empty text as its value, and
    no attribute is named [__proto__]: a label of that name on the page is
    not stored. *)
Theorem attributes_are_named (doc : Doc) :
  map_Forall (fun k v => truthy k = true /\ truthy v = true)
    (scrapeProductAttributes doc)
  /\ scrapeProductAttributes doc !! u "__proto__" = None.
Proof. apply scrapeProductAttributes_named. Qed.

(** ** The Shopify export *)

Section ExportFacts.

Import Shopify.

Lemma u_ascii (a : ascii) (r : string) :
  (byte_of a <? 128) = true -> u (String a r) = byte_of a :: u r.
Proof. intros H. cbv beta iota delta [u]; fold u. cbv zeta. rewrite H. reflexivity. Qed.

(** On a text of ASCII characters [u] is the list of their codes. *)
Lemma u_ascii_string (s : string) :
  Forall (fun c => (byte_of c <? 128) = true) (list_ascii_of_string s) ->
  u s = map byte_of (list_ascii_of_string s).
Proof.
  induction s as [|a s IH]; cbn [list_ascii_of_string map]; intros H; [reflexivity|].
  apply Forall_cons in H as [Ha Hs]. rewrite u_ascii by exact Ha.
  rewrite IH by exact Hs. reflexivity.
Qed.

Lemma digits_ascii (d : Decimal.uint) :
  Forall (fun c => (byte_of c <? 128) = true)
         (list_ascii_of_string (NilEmpty.string_of_uint d)).
Proof.
  induction d; cbn [NilEmpty.string_of_uint list_ascii_of_string];
    constructor; solve [reflexivity | assumption].
Qed.

Lemma decimal_inj (n m : N) : decimal n = decimal m -> n = m.
Proof.
  unfold decimal. rewrite !u_ascii_string by apply digits_ascii. intros H.
  apply Unsigned.to_uint_inj.
  assert (Hinj : forall l l' : list ascii, map byte_of l = map byte_of l' -> l = l').
  { induction l as [|a l IH]; intros [|a' l'] Hl; try discriminate Hl; [reflexivity|].
    injection Hl as Ha Hl. f_equal; [|apply IH; exact Hl].
    unfold byte_of in Ha. rewrite <- (ascii_N_embedding a), Ha.
    apply ascii_N_embedding. }
  apply Hinj in H.
  apply (f_equal string_of_list_ascii) in H.
  rewrite !string_of_list_ascii_of_string in H.
  apply (f_equal NilEmpty.uint_of_string) in H.
  rewrite !NilEmpty.usu in H. injection H as H. exact H.
Qed.

Lemma sizeRecords_map (product : Product) :
  sizeRecords product
    = map (sizeRecord product) (fromOne (length (sizes product))).
Proof. unfold sizeRecords. destruct (sizes product); reflexivity. Qed.

Lemma colorRecords_map (product : Product) :
  colorRecords product
    = map (colorRecord product) (fromOne (length (colors product))).
Proof. unfold colorRecords. destruct (colors product); reflexivity. Qed.

Lemma map_fmap {A B : Type} (f : A -> B) (l : list A) : map f l = f <$> l.
Proof. induction l as [|x l IH]; [reflexivity|]. cbn. rewrite IH. reflexivity. Qed.

Lemma sku_suffixes :
  u "-1" = [45; 49]
  /\ u "-size-" = [45; 115; 105; 122; 101; 45]
  /\ u "-color-" = [45; 99; 111; 108; 111; 114; 45].
Proof. repeat split; vm_compute; reflexivity. Qed.

(** The SKU cells, record by record. *)
Lemma sku_cells (product : Product) :
  map (fun row => cell row (u "SKU")) (records product)
  = (handle product ++ u "-1")
    :: map (fun i => handle product ++ u "-size-" ++ decimal (N.of_nat i))
           (fromOne (length (sizes product)))
    ++ map (fun i => handle product ++ u "-color-" ++ decimal (N.of_nat i))
           (fromOne (length (colors product))).
Proof.
  unfold records. rewrite sizeRecords_map, colorRecords_map.
  cbn [app map]. rewrite map_app, !map_map. f_equal.
Qed.

Lemma numbered_NoDup (prefix : jsstring) (l : list nat) :
  NoDup l -> NoDup (map (fun i => prefix ++ decimal (N.of_nat i)) l).
Proof.
  intros Hl. rewrite map_fmap. apply NoDup_fmap_2; [|exact Hl].
  intros i j H. apply app_inv_head in H. apply decimal_inj in H.
  apply Nat2N.inj. exact H.
Qed.

End ExportFacts.

(** X16. The export of a product with n sizes and m colors has one line
    for the product, one for each size after the first and one for each
    color after the first, not one per combination; and every line has
    the 28 cells of the header. *)
Theorem export_line_count (product : Shopify.Product) :
  length (Shopify.exportToShopify product)
    = (1 + (length (Shopify.sizes product) - 1)
         + (length (Shopify.colors product) - 1))%nat
  /\ length Shopify.header = 28%nat
  /\ Forall (fun line => length line = length Shopify.header)
            (Shopify.exportToShopify product).
Proof.
  split; [|split; [reflexivity|]].
  - unfold Shopify.exportToShopify, Shopify.records.
    rewrite length_map, sizeRecords_map, colorRecords_map.
    cbn [app length]. rewrite length_app, !length_map.
    unfold Shopify.fromOne. rewrite !length_seq. lia.
  - unfold Shopify.exportToShopify. apply List.Forall_forall. intros line Hline.
    apply in_map_iff in Hline as [row [<- _]]. apply length_map.
Qed.

(** X17. The SKUs of the lines of one product are pairwise different: the
    handle followed by -1 for the product, by -size- and the index for a
    size, by -color- and the index for a color. *)
Theorem skus_are_distinct (product : Shopify.Product) :
  NoDup (map (fun row => Shopify.cell row (u "SKU")) (Shopify.records product)).
Proof.
  rewrite sku_cells.
  destruct sku_suffixes as (H1 & Hsize & Hcolor).
  assert (Hseq : forall n, NoDup (Shopify.fromOne n)) by (intros n; apply NoDup_seq).
  apply NoDup_cons. split.
  - rewrite H1, Hsize, Hcolor. intros Hin.
    apply elem_of_app in Hin as [Hin|Hin]; apply list_elem_of_In in Hin;
      apply in_map_iff in Hin as [i [Hi _]];
      apply app_inv_head in Hi; discriminate Hi.
  - apply NoDup_app. split; [|split].
    + rewrite (map_ext _ (fun i => (Shopify.handle product ++ u "-size-")
                                   ++ decimal (N.of_nat i)))
        by (intros i; apply app_assoc).
      apply numbered_NoDup, Hseq.
    + rewrite Hsize, Hcolor. intros sku Hs Hc.
      apply list_elem_of_In in Hs, Hc.
      apply in_map_iff in Hs as [i [<- _]]. apply in_map_iff in Hc as [j [Hj _]].
      apply app_inv_head in Hj. discriminate Hj.
    + rewrite (map_ext _ (fun i => (Shopify.handle product ++ u "-color-")
                                   ++ decimal (N.of_nat i)))
        by (intros i; apply app_assoc).
      apply numbered_NoDup, Hseq.
Qed.


(** ** The handle *)

Section HandleFacts.

Import Shopify Shape.









End HandleFacts.


(** ** The price and the decimal comma *)

Section DecimalComma.

Local Open Scope Z_scope.

Lemma isDigit_range (c : N) : isDigit c = true -> (48 <= c <= 57)%N.
Proof.
  unfold isDigit. intros H. apply andb_true_iff in H as [H1 H2].
  apply N.leb_le in H1, H2. split; assumption.
Qed.

Lemma digit_not_white (c : N) : isDigit c = true -> isWhiteSpace c = false.
Proof.
  intros H. apply isDigit_range in H. unfold isWhiteSpace.
  repeat match goal with
         | |- context [(?a <=? ?b)%N] => destruct (N.leb_spec a b); try lia
         | |- context [(?a =? ?b)%N] => destruct (N.eqb_spec a b); try lia
         end.
Qed.

(** The value of a run of digits read after [acc]. *)
Lemma digitsFrom_digits (ds t : jsstring) (acc cnt : Z) :
  Forall (fun c => isDigit c = true) ds ->
  match t with c :: _ => isDigit c = false | [] => True end ->
  digitsFrom acc cnt (ds ++ t)
  = (fold_left (fun a c => 10 * a + (Z.of_N c - 48)) ds acc,
     cnt + Z.of_nat (length ds), t).
Proof.
  intros Hds Ht. revert acc cnt.
  induction Hds as [|c ds Hc Hds IH]; intros acc cnt.
  - cbn [app fold_left length]. rewrite Z.add_0_r.
    destruct t as [|c t]; [reflexivity|]. cbn [digitsFrom]. rewrite Ht. reflexivity.
  - cbn [app digitsFrom fold_left length]. rewrite Hc, IH. f_equal. f_equal. lia.
Qed.

(** [parseFloat] of digits, a point and digits, alone or followed by a
    comma and anything. *)
Lemma parseFloat_decimal (whole frac tail : jsstring) :
  whole <> [] ->
  Forall (fun c => isDigit c = true) whole ->
  Forall (fun c => isDigit c = true) frac ->
  tail = [] \/ (exists rest, tail = 44%N :: rest) ->
  parseFloat (whole ++ 46%N :: frac ++ tail)
  = doubleOfDecimal false
      (fold_left (fun a c => 10 * a + (Z.of_N c - 48)) frac
         (fold_left (fun a c => 10 * a + (Z.of_N c - 48)) whole 0))
      (0 - Z.of_nat (length frac)).
Proof.
  intros Hne Hwhole Hfrac Htail.
  destruct whole as [|c whole]; [congruence|].
  pose proof Hwhole as Hc. apply Forall_cons in Hc as [Hc _].
  pose proof (isDigit_range c Hc) as Hrange.
  unfold parseFloat. cbn [app trimStart]. rewrite (digit_not_white c Hc).
  replace (c =? 45)%N with false by (symmetry; apply N.eqb_neq; lia).
  replace (c =? 43)%N with false by (symmetry; apply N.eqb_neq; lia).
  replace (u "Infinity") with [73; 110; 102; 105; 110; 105; 116; 121]%N
    by (vm_compute; reflexivity).
  cbn [startsWith].
  replace (c =? 73)%N with false by (symmetry; apply N.eqb_neq; lia).
  cbn [andb].
  change (c :: whole ++ 46%N :: frac ++ tail)
    with ((c :: whole) ++ 46%N :: frac ++ tail).
  rewrite (digitsFrom_digits (c :: whole)) by (exact Hwhole || reflexivity).
  cbn [N.eqb Pos.eqb].
  rewrite (digitsFrom_digits frac)
    by (exact Hfrac || (destruct Htail as [->|[rest ->]]; [exact I | reflexivity])).
  replace (0 + Z.of_nat (length (c :: whole)) =? 0) with false
    by (symmetry; apply Z.eqb_neq; cbn [length]; lia).
  cbn [andb]. f_equal.
  destruct Htail as [->|[rest ->]]; reflexivity.
Qed.

End DecimalComma.

(** X20. A price text written with a point and a decimal comma, as in
    1.299,99, is read up to the comma: the derived price of digits, a
    point, digits, a comma and anything is the derived price of the part
    before the comma. *)
Theorem price_read_up_to_comma (shortestDecimal : float -> jsstring)
    (whole frac rest : jsstring) :
  whole <> [] ->
  Forall (fun c => isDigit c = true) whole ->
  Forall (fun c => isDigit c = true) frac ->
  Price.withMargin shortestDecimal (whole ++ [46] ++ frac ++ [44] ++ rest)
  = Price.withMargin shortestDecimal (whole ++ [46] ++ frac).
Proof.
  intros Hne Hwhole Hfrac. unfold Price.withMargin. do 2 f_equal.
  cbn [app].
  rewrite (parseFloat_decimal whole frac (44 :: rest) Hne Hwhole Hfrac)
    by (right; exists rest; reflexivity).
  replace (whole ++ 46 :: frac) with (whole ++ 46 :: frac ++ [])
    by (rewrite app_nil_r; reflexivity).
  rewrite (parseFloat_decimal whole frac [] Hne Hwhole Hfrac)
    by (left; reflexivity).
  reflexivity.
Qed.

Lemma price_read_up_to_comma_witness :
  Price.withMargin Examples.noDigits ([49] ++ [46] ++ [50; 57; 57] ++ [44] ++ [57; 57])
  = Price.withMargin Examples.noDigits ([49] ++ [46] ++ [50; 57; 57])
  /\ u "1.299,99" = [49] ++ [46] ++ [50; 57; 57] ++ [44] ++ [57; 57]
  /\ Price.withMargin Examples.noDigits (u "1.299,99") = u "1.49".
Proof.
  split; [|split; vm_compute; reflexivity].
  apply (price_read_up_to_comma Examples.noDigits [49] [50; 57; 57] [57; 57]).
  - discriminate.
  - repeat constructor.
  - repeat constructor.
Defined.

(** ** Images, and the bookkeeping of requests *)

Section ImageFacts.

Import Routes Shape.



Variable parseURL : jsstring -> option UrlSchema.URLRecord.
Variable shortestDecimal : float -> jsstring.
Variable categoriesOf : Doc -> list jsstring.

(** Every request that has arrived is answered or waits for its fetch. *)
Lemma step_accounting (s : Server) (e : Event) :
  ((if isArrival e then 1 else 0) + length (inFlight s)
   = (if answered (step parseURL shortestDecimal categoriesOf s e).2 then 1 else 0)
     + length (inFlight (step parseURL shortestDecimal categoriesOf s e).1))%nat
  /\ (issued (step parseURL shortestDecimal categoriesOf s e).2 = true ->
      isArrival e = true
      /\ answered (step parseURL shortestDecimal categoriesOf s e).2 = false).
Proof.
  destruct e as [body|k result]; cbn [step isArrival].
  - destruct (scrapeStart parseURL (storage s) body) as [r|url]; cbn.
    + split; [reflexivity | discriminate].
    + split; [rewrite length_app; cbn; lia | intros _; split; reflexivity].
  - destruct (inFlight s !! k) as [url|] eqn:Hk.
    + destruct (scrapeFinish shortestDecimal categoriesOf (storage s) url result)
        as [storage' r].
      cbn. split; [|discriminate].
      rewrite length_delete by (eexists; exact Hk).
      apply lookup_lt_Some in Hk. lia.
    + cbn. split; [reflexivity | discriminate].
Qed.

Lemma run_accounting (events : list Event) (s : Server) :
  (length (List.filter isArrival events) + length (inFlight s)
   = length (List.filter answered
               (run parseURL shortestDecimal categoriesOf s events).2)
     + length (inFlight (run parseURL shortestDecimal categoriesOf s events).1))%nat
  /\ Forall (fun eff => issued eff = true -> answered eff = false)
            (run parseURL shortestDecimal categoriesOf s events).2
  /\ (length (List.filter issued
                (run parseURL shortestDecimal categoriesOf s events).2)
      <= length (List.filter isArrival events))%nat.
Proof.
  revert s. induction events as [|e events IH]; intros s; cbn [run].
  - cbn. split; [lia|]. split; [constructor | lia].
  - pose proof (step_accounting s e) as [Hcount Hfetch].
    destruct (step parseURL shortestDecimal categoriesOf s e) as [s1 eff].
    specialize (IH s1).
    destruct (run parseURL shortestDecimal categoriesOf s1 events) as [s2 effs].
    cbn [fst snd] in *. destruct IH as (IH1 & IH2 & IH3).
    split; [|split].
    + cbn [List.filter]. destruct (isArrival e), (answered eff); cbn [length]; lia.
    + constructor; [|exact IH2]. intros Hissued. apply Hfetch. exact Hissued.
    + cbn [List.filter]. destruct (issued eff) eqn:Hissued; [|destruct (isArrival e); cbn [length]; lia].
      destruct (Hfetch eq_refl) as [-> _]. cbn [length]. lia.
Qed.

End ImageFacts.



(** X22. From the start of the server on, every request that has arrived
    has been answered exactly once or is still waiting for its fetch:
    the arrivals are as many as the replies and the fetches in flight
    together. An event that issues a fetch gives no reply, and there are
    no more fetches than arrivals. *)
Theorem every_request_answered_once
    (parseURL : jsstring -> option UrlSchema.URLRecord)
    (shortestDecimal : float -> jsstring) (categoriesOf : Doc -> list jsstring)
    (events : list Routes.Event) :
  (length (List.filter Shape.isArrival events)
   = length (List.filter Shape.answered
               (Routes.run parseURL shortestDecimal categoriesOf
                  Routes.initial events).2)
     + length (Routes.inFlight
                 (Routes.run parseURL shortestDecimal categoriesOf
                    Routes.initial events).1))%nat
  /\ Forall (fun eff => Shape.issued eff = true -> Shape.answered eff = false)
            (Routes.run parseURL shortestDecimal categoriesOf
               Routes.initial events).2
  /\ (length (List.filter Shape.issued
                (Routes.run parseURL shortestDecimal categoriesOf
                   Routes.initial events).2)
      <= length (List.filter Shape.isArrival events))%nat.
Proof.
  pose proof (run_accounting parseURL shortestDecimal categoriesOf events
                Routes.initial) as (H1 & H2 & H3).
  cbn [Routes.initial Routes.inFlight length] in H1.
  split; [lia|]. split; assumption.
Qed.

(** ** The record that is saved *)

Section SavedRecord.

Import UrlSchema Storage Routes Shape.

Variable parseURL : jsstring -> option URLRecord.
Variable shortestDecimal : float -> jsstring.
Variable categoriesOf : Doc -> list jsstring.

(** Where the members of an assembled record come from. *)
Lemma assemble_parts (url : jsstring) (result : FetchResult)
    (product : InsertProduct) :
  assemble shortestDecimal categoriesOf url result = Ok product ->
  exists response schema,
    result = Resolved response
    /\ categories product = categoriesOf (page response)
    /\ Storage.attributes product = scrapeProductAttributes (page response)
    /\ variants product = scrapeVariants (page response) schema
    /\ Price.scrapePrice shortestDecimal (page response)
       = Ok {| Price.price := Storage.price product;
               Price.basePrice := basePrice product |}.
Proof.
  unfold assemble.
  destruct result as [|response]; [discriminate|].
  destruct (ok response); cbn [negb]; [|discriminate].
  destruct (productSchema (page response)) as [schema|e1];
    cbn [mbind result_bind]; [|discriminate].
  destruct (Price.scrapePrice shortestDecimal (page response)) as [[p b]|e2]
    eqn:Hprice; cbn [mbind result_bind]; [|discriminate].
  match goal with |- (if ?c then _ else _) = _ -> _ => destruct c end;
    [discriminate|].
  destruct (productImages (page response) schema) as [images|e3];
    cbn [mbind result_bind]; [|discriminate].
  intros [= <-]. exists response, schema.
  repeat (split; [reflexivity|]). exact Hprice.
Qed.

(** A step never takes an entry out of the cache nor lowers the next id. *)
Lemma step_grows (s : Server) (e : Event) :
  dom (products (storage s))
    ⊆ dom (products (storage (step parseURL shortestDecimal categoriesOf s e).1))
  /\ (currentId (storage s)
      <= currentId (storage (step parseURL shortestDecimal categoriesOf s e).1))%N.
Proof.
  destruct e as [body|k result]; cbn [step].
  - destruct (scrapeStart parseURL (storage s) body); cbn; split; (reflexivity || lia).
  - destruct (inFlight s !! k) as [url|]; [|cbn; split; (reflexivity || lia)].
    unfold scrapeFinish.
    destruct (assemble shortestDecimal categoriesOf url result) as [product|err];
      cbn; [|split; (reflexivity || lia)].
    split; [apply dom_insert_subseteq | lia].
Qed.

Lemma run_grows (events : list Event) (s : Server) :
  dom (products (storage s))
    ⊆ dom (products (storage (run parseURL shortestDecimal categoriesOf s events).1))
  /\ (currentId (storage s)
      <= currentId (storage (run parseURL shortestDecimal categoriesOf s events).1))%N.
Proof.
  revert s. induction events as [|e events IH]; intros s; cbn [run].
  - cbn. split; (reflexivity || lia).
  - pose proof (step_grows s e) as [Hdom Hid].
    destruct (step parseURL shortestDecimal categoriesOf s e) as [s1 eff].
    specialize (IH s1).
    destruct (run parseURL shortestDecimal categoriesOf s1 events) as [s2 effs].
    cbn [fst snd] in *. destruct IH as [IHdom IHid].
    split; [etransitivity; eassumption | lia].
Qed.

End SavedRecord.

(** X23. Every record the scrape handler assembles for saving carries the
    URL of the request, a title, a description, a price and at least one
    image; its price is the one derived from its base price; it has at
    least one category and no empty one, and its tags are its categories;
    its sizes are pairwise different and none is empty, and so are its
    colors; and every attribute has a non-empty name and value. *)
Theorem saved_record_is_well_formed (shortestDecimal : float -> jsstring)
    (view : Doc -> Categories.CategoryPage) (url : jsstring)
    (result : Routes.FetchResult) (product : Storage.InsertProduct) :
  Routes.assemble shortestDecimal
    (fun doc => Categories.scrapeTrendyolCategories (view doc)) url result
    = Ok product ->
  Storage.url product = url
  /\ Shape.completeRecord product
  /\ Storage.price product
     = Price.withMargin shortestDecimal (Storage.basePrice product)
  /\ Storage.categories product <> []
  /\ Shape.allNamed (Storage.categories product)
  /\ NoDup (sizes (Storage.variants product))
  /\ Shape.allNamed (sizes (Storage.variants product))
  /\ NoDup (colors (Storage.variants product))
  /\ Shape.allNamed (colors (Storage.variants product))
  /\ Shape.namedEntries (Storage.attributes product).
Proof.
  intros Ha.
  split; [eapply assemble_url; exact Ha|].
  split; [eapply assemble_complete; exact Ha|].
  apply assemble_parts in Ha
    as (response & schema & _ & Hcategories & Hattributes & Hvariants & Hprice).
  split; [apply (scrapePrice_ok _ _ _ Hprice)|].
  rewrite Hcategories, Hvariants, Hattributes.
  destruct (scrapeTrendyolCategories_named (view (Routes.page response)))
    as [Hsome Hnamed].
  split; [exact Hsome|]. split; [exact Hnamed|].
  destruct (scrapeVariants_distinct_named (Routes.page response) schema)
    as (Hs1 & Hs2 & Hc1 & Hc2).
  repeat (split; [assumption|]).
  apply scrapeProductAttributes_named.
Qed.

Lemma saved_record_is_well_formed_witness :
  Storage.url Instances.scrapedWithBreadcrumbs = Examples.productUrl
  /\ Shape.completeRecord Instances.scrapedWithBreadcrumbs
  /\ Storage.price Instances.scrapedWithBreadcrumbs
     = Price.withMargin Examples.noDigits
         (Storage.basePrice Instances.scrapedWithBreadcrumbs)
  /\ Storage.categories Instances.scrapedWithBreadcrumbs <> []
  /\ Shape.allNamed (Storage.categories Instances.scrapedWithBreadcrumbs)
  /\ NoDup (sizes (Storage.variants Instances.scrapedWithBreadcrumbs))
  /\ Shape.allNamed (sizes (Storage.variants Instances.scrapedWithBreadcrumbs))
  /\ NoDup (colors (Storage.variants Instances.scrapedWithBreadcrumbs))
  /\ Shape.allNamed (colors (Storage.variants Instances.scrapedWithBreadcrumbs))
  /\ Shape.namedEntries (Storage.attributes Instances.scrapedWithBreadcrumbs).
Proof.
  apply (saved_record_is_well_formed Examples.noDigits
           (fun _ => Instances.twoBreadcrumbs) Examples.productUrl
           Examples.pageAt100 Instances.scrapedWithBreadcrumbs).
  vm_compute. reflexivity.
Defined.

(** X24. The cache only grows: whatever happens, a URL that has an entry
    keeps one, no entry is ever removed, and the next id never goes
    down. *)
Theorem cache_only_grows
    (parseURL : jsstring -> option UrlSchema.URLRecord)
    (shortestDecimal : float -> jsstring) (categoriesOf : Doc -> list jsstring)
    (s : Routes.Server) (events : list Routes.Event) :
  (forall url,
     is_Some (Storage.getProduct (Routes.storage s) url) ->
     is_Some (Storage.getProduct
                (Routes.storage
                   (Routes.run parseURL shortestDecimal categoriesOf s events).1)
                url))
  /\ (Storage.currentId (Routes.storage s)
      <= Storage.currentId
           (Routes.storage
              (Routes.run parseURL shortestDecimal categoriesOf s events).1))%N.
Proof.
  destruct (run_grows parseURL shortestDecimal categoriesOf events s) as [Hdom Hid].
  split; [|exact Hid].
  intros url Hurl. unfold Storage.getProduct in *.
  apply elem_of_dom. apply Hdom. apply elem_of_dom. exact Hurl.
Qed.

(** ** The body of the exported product *)

Section BodyFacts.

Import Shopify.

Lemma startsWith_app (x b : jsstring) : startsWith (x ++ b) x = true.
Proof.
  induction x as [|c x IH]; cbn [app startsWith]; [destruct b; reflexivity|].
  rewrite N.eqb_refl, IH. reflexivity.
Qed.

Lemma includes_middle (a x b : jsstring) : includes (a ++ x ++ b) x = true.
Proof.
  induction a as [|c a IH]; cbn [app].
  - destruct (x ++ b) as [|c r] eqn:E.
    + destruct x; [reflexivity | discriminate E].
    + cbn [includes]. rewrite <- E, startsWith_app. reflexivity.
  - cbn [includes]. rewrite IH. apply orb_true_r.
Qed.

Lemma join_holds (sep e : jsstring) (l : list jsstring) :
  In e l -> exists a b, join sep l = a ++ e ++ b.
Proof.
  induction l as [|x l IH]; [intros []|].
  intros [->|Hin].
  - exists []. destruct l as [|y l]; cbn [join app].
    + exists []. symmetry. apply app_nil_r.
    + exists (sep ++ join sep (y :: l)). reflexivity.
  - destruct (IH Hin) as (a & b & Hjoin).
    destruct l as [|y l]; [destruct Hin|].
    exists (x ++ sep ++ a), b. cbn [join] in Hjoin |- *. rewrite Hjoin.
    rewrite <- !app_assoc. reflexivity.
Qed.

Lemma doubleQuotes_app (a b : jsstring) :
  doubleQuotes (a ++ b) = doubleQuotes a ++ doubleQuotes b.
Proof. unfold doubleQuotes. rewrite map_app, concat_app. reflexivity. Qed.

End BodyFacts.

(** X25. The Body (HTML) cell of the first line holds every attribute of
    the product as it is, name and value between the markup of the
    exporter, with nothing changed but each double quote doubled: no
    character of a name or a value is escaped or removed. *)
Theorem body_holds_attributes_verbatim (product : Shopify.Product) :
  Forall (fun attribute =>
            includes (Shopify.cell (Shopify.mainRecord product) (u "Body (HTML)"))
              (Shopify.doubleQuotes
                 (u "<strong>" ++ attribute.1 ++ u ":</strong> " ++ attribute.2))
            = true)
         (Shopify.attributes product).
Proof.
  apply List.Forall_forall. intros attribute Hin.
  change (Shopify.cell (Shopify.mainRecord product) (u "Body (HTML)"))
    with (Shopify.doubleQuotes (Shopify.bodyHtml (Shopify.attributesHtml product))).
  unfold Shopify.bodyHtml, Shopify.attributesHtml.
  destruct (join_holds (u "<br>")
              (u "<strong>" ++ attribute.1 ++ u ":</strong> " ++ attribute.2)
              (map (fun e => u "<strong>" ++ e.1 ++ u ":</strong> " ++ e.2)
                   (Shopify.attributes product)))
    as (a & b & Hjoin).
  { apply in_map_iff. exists attribute. split; [reflexivity | exact Hin]. }
  rewrite Hjoin.
  remember (u "<strong>" ++ attribute.1 ++ u ":</strong> " ++ attribute.2) as x.
  rewrite !doubleQuotes_app, <- !app_assoc.
  rewrite (app_assoc _ (Shopify.doubleQuotes a)).
  apply includes_middle.
Qed.
